(** * kube-router: the IPVS service/endpoint sync engine

    A shallow embedding of [pkg/controllers/proxy/service_endpoints_sync.go]:
    the sync orchestrator, the three reconcile passes (cluster IP, node port,
    external IP with its DSR variant), the three stale-state sweeps and the
    DSR teardown, followed by the properties established for them.

    The Go code drives the kernel through the [LinuxNetworking] interface
    ([nsc.ln]) and a handful of package level helpers.  Their implementations
    live in other files; here they are an in-memory host whose every call is
    recorded and may be made to fail by a fault oracle, so that each statement
    below ranges over every failure pattern of the host. *)

From Stdlib Require Import ZArith String Ascii List Bool Lia.
From Stdlib Require DecimalString HexadecimalString.
From stdpp Require Import gmap strings list.

Local Open Scope Z_scope.

(* ===================================================================== *)
(** ** Go standard library functions used by the file *)
(* ===================================================================== *)

Module Go.

(** Go's [error]: [None] is [nil], [Some msg] an error whose [Error()] is
    [msg]. *)
Definition error := option string.

(** The line separator. *)
Definition newline : string := String (ascii_of_nat 10) EmptyString.

(** [strings.Contains]. *)
Fixpoint Contains (s substr : string) : bool :=
  String.prefix substr s ||
  match s with
  | EmptyString => false
  | String _ t => Contains t substr
  end.

Fixpoint dropString (n : nat) (s : string) : string :=
  match n, s with
  | O, _ => s
  | S n', String _ t => dropString n' t
  | S _, EmptyString => EmptyString
  end.

(** [strings.Cut] for a non-empty separator: the text before and after the
    first occurrence of [sep]. *)
Fixpoint Cut (s sep : string) : option (string * string) :=
  if String.prefix sep s then Some (EmptyString, dropString (String.length sep) s)
  else match s with
       | EmptyString => None
       | String c t =>
           match Cut t sep with
           | Some (a, b) => Some (String c a, b)
           | None => None
           end
       end.

(** [strings.SplitN s sep n] for [n >= 0] and a non-empty separator: at most
    [n] fields, the last one being the unsplit remainder. *)
Fixpoint SplitN (s sep : string) (n : nat) : list string :=
  match n with
  | O => []
  | S O => [s]
  | S n' =>
      match Cut s sep with
      | None => [s]
      | Some (a, b) => a :: SplitN b sep n'
      end
  end.

(** [strings.Split]: a string of length [k] has at most [k + 1] fields, so
    the bound never truncates. *)
Definition Split (s sep : string) : list string :=
  SplitN s sep (S (String.length s)).

(** [strconv.Itoa]; [fmt.Sprint] of an unsigned integer prints the same. *)
Definition Itoa (z : Z) : string :=
  DecimalString.NilZero.string_of_int (Z.to_int z).

Definition Sprint (z : Z) : string := Itoa z.

(** [strconv.Atoi], as far as the registry needs it. *)
Definition Atoi (s : string) : option Z :=
  option_map Z.of_int (DecimalString.NilZero.int_of_string s).

(** [strconv.FormatInt z 16]: lower-case hexadecimal, no prefix. *)
Definition FormatHex (z : Z) : string :=
  if z <? 0
  then "-" +:+ HexadecimalString.NilZero.string_of_uint (N.to_hex_uint (Z.to_N (- z)))
  else HexadecimalString.NilZero.string_of_uint (N.to_hex_uint (Z.to_N z)).

(** Integer conversions [uint16(x)] and [uint32(x)] wrap around. *)
Definition uint16 (z : Z) : Z := z mod 65536.
Definition uint32 (z : Z) : Z := z mod 4294967296.

(** A non-nil [net.IP] is represented by its textual form, the value of its
    [String()] method; a possibly nil one is an [option IP]. *)
Definition IP := string.

Definition IP_String (ip : option IP) : string :=
  match ip with
  | Some s => s
  | None => "<nil>"
  end.

Definition isDigit (c : ascii) : bool :=
  let n := N_of_ascii c in ((48 <=? n)%N && (n <=? 57)%N)%bool.

(** One field of a dotted quad: one to three digits, no leading zero, at
    most 255. *)
Definition octet (f : string) : option Z :=
  match f with
  | EmptyString => None
  | String c t =>
      if (forallb isDigit (list_ascii_of_string f)
          && (String.length f <=? 3)%nat
          && negb (Ascii.eqb c "0"%char && negb (String.eqb t EmptyString)))%bool
      then match Atoi f with
           | Some v => if v <=? 255 then Some v else None
           | None => None
           end
      else None
  end.

(** The 32-bit value of an IPv4 dotted quad. *)
Definition ipv4Value (s : string) : option Z :=
  match Split s "." with
  | [a; b; c; d] =>
      match octet a, octet b, octet c, octet d with
      | Some x, Some y, Some z, Some u =>
          Some (Z.lor (Z.shiftl x 24) (Z.lor (Z.shiftl y 16) (Z.lor (Z.shiftl z 8) u)))
      | _, _, _, _ => None
      end
  | _ => None
  end.

(** [net.ParseIP], restricted to IPv4 (the file only builds [AF_INET]
    destinations): [nil] unless the text is a dotted quad. *)
Definition ParseIP (s : string) : option IP :=
  match ipv4Value s with
  | Some _ => Some s
  | None => None
  end.

(** [net.IPNet] for IPv4: the network address and the number of leading one
    bits of the mask. *)
Record IPNet := mkIPNet { IPNet_IP : IP; IPNet_ones : Z }.

(** [Contains] of [net.IPNet]; a nil address is in no network. *)
Definition IPNet_Contains (n : IPNet) (ip : option IP) : bool :=
  match ip with
  | None => false
  | Some s =>
      match ipv4Value s, ipv4Value (IPNet_IP n) with
      | Some v, Some b =>
          Z.shiftr v (32 - IPNet_ones n) =? Z.shiftr b (32 - IPNet_ones n)
      | _, _ => false
      end
  end.

(** [sets.NewString(l...).List()] of apimachinery: the distinct elements in
    ascending byte order. *)
Fixpoint insertString (x : string) (l : list string) : list string :=
  match l with
  | [] => [x]
  | y :: t =>
      match String.compare x y with
      | Lt => x :: l
      | Eq => l
      | Gt => y :: insertString x t
      end
  end.

Definition NewStringSet (l : list string) : list string :=
  fold_right insertString [] l.

End Go.

Import Go.

(* ===================================================================== *)
(** ** Data model *)
(* ===================================================================== *)

(** [serviceInfo], the fields the sync engine reads. *)
Record serviceInfo := mkServiceInfo {
  svc_name : string;
  svc_namespace : string;
  svc_clusterIP : option IP;
  svc_port : Z;
  svc_protocol : string;
  svc_nodePort : Z;
  svc_sessionAffinity : bool;
  svc_sessionAffinityTimeoutSeconds : Z;
  svc_directServerReturn : bool;
  svc_scheduler : string;
  svc_directServerReturnMethod : string;
  svc_externalIPs : list string;
  svc_loadBalancerIPs : list string;
  svc_skipLbIps : bool;
  svc_local : bool;
  svc_flags : Z
}.

(** [endpointsInfo]. *)
Record endpointsInfo := mkEndpointsInfo {
  ep_ip : string;
  ep_port : Z;
  ep_isLocal : bool
}.

(** [ipvs.Service] of moby/ipvs, the fields the engine sets or reads. *)
Record Service := mkService {
  Address : option IP;
  Protocol : Z;
  Port : Z;
  FWMark : Z;
  SchedName : string;
  Persistent : bool;
  Timeout : Z;
  SchedFlags : Z
}.

(** [ipvs.Destination]. *)
Record Destination := mkDestination {
  DstAddress : option IP;
  DstPort : Z;
  Weight : Z;
  ConnectionFlags : Z;
  AddressFamily : Z
}.

#[global] Instance Service_eq_dec : EqDecision Service.
Proof. solve_decision. Defined.

#[global] Instance Destination_eq_dec : EqDecision Destination.
Proof. solve_decision. Defined.

Definition AF_INET : Z := 2.
Definition IPPROTO_TCP : Z := 6.
Definition IPPROTO_UDP : Z := 17.
Definition IPPROTO_NONE : Z := 59.
Definition ConnectionFlagMasq : Z := 0.
Definition ConnectionFlagTunnel : Z := 2.

(** Modelled from the spec: the constants of the controller package that the
    file refers to but does not declare.  The protocol names are the lower
    case ones of the service keys, [tunnel] is the DSR method, and the two
    address outcomes are the distinguishable "already has address" and "no
    such address" errors of the host adapter. *)
Definition tcpProtocol : string := "tcp".
Definition udpProtocol : string := "udp".
Definition noneProtocol : string := "none".
Definition tunnelInterfaceType : string := "tunnel".
Definition IfaceHasAddr : string := "file exists".
Definition IfaceHasNoAddr : string := "cannot assign requested address".
Definition KubeDummyIf : string := "kube-dummy-if".

(** Modelled from the spec: [serviceKey(ip, proto, port)] is
    ["<ip>-<proto>-<port>"]. *)
Definition generateIPPortID (ip protocol port : string) : string :=
  ip +:+ "-" +:+ protocol +:+ "-" +:+ port.

(** Modelled from the spec: [endpointID(ip, port)] is ["<ip>:<port>"]. *)
Definition generateEndpointID (ip port : string) : string :=
  ip +:+ ":" +:+ port.

(** Modelled from the spec: "any backend on this node exists". *)
Definition hasActiveEndpoints (endpoints : list endpointsInfo) : bool :=
  existsb ep_isLocal endpoints.

(** Modelled from the spec: the textual protocol of a service as a kernel
    protocol number. *)
Definition convertSvcProtoToSysCallProto (svcProtocol : string) : Z :=
  if String.eqb svcProtocol tcpProtocol then IPPROTO_TCP
  else if String.eqb svcProtocol udpProtocol then IPPROTO_UDP
  else IPPROTO_NONE.

(** Modelled from the spec: "converting the kernel protocol number back to
    the textual form"; neither TCP nor UDP gives [noneProtocol]. *)
Definition convertSysCallProtoToSvcProto (sysProtocol : Z) : string :=
  if sysProtocol =? IPPROTO_TCP then tcpProtocol
  else if sysProtocol =? IPPROTO_UDP then udpProtocol
  else noneProtocol.

(** The configuration fields of [NetworkServicesController] read during a
    pass.  [markHash] is the deterministic 32-bit hash of the mark allocator,
    which the spec leaves open. *)
Record NetworkServicesController := mkController {
  nodeIP : option IP;
  nodeportBindOnAllIP : bool;
  excludedCidrs : list IPNet;
  dsrTCPMSS : Z;
  MetricsEnabled : bool;
  markHash : string -> string -> string -> Z
}.

(* ===================================================================== *)
(** ** The host and the controller state *)
(* ===================================================================== *)

(** One constructor per operation the file invokes outside itself, with the
    arguments it passes. *)
Inductive Call :=
| GetKubeDummyInterface
| IpvsGetServices
| IpAddrAdd (ip : string) (addRoute : bool)
| IpAddrDel (ip : string)
| AddrList
| IpvsAddService (vip : option IP) (protocol port : Z) (persistent : bool)
    (timeout : Z) (scheduler : string) (flags : Z)
| IpvsAddFWMarkService (fwMark protocol port : Z) (persistent : bool)
    (timeout : Z) (scheduler : string) (flags : Z)
| IpvsAddServer (service : option Service) (dest : Destination)
| IpvsGetDestinations (service : Service)
| IpvsDeleteDestination (service : Service) (dest : Destination)
| IpvsDelService (service : Service)
| SaveInto (table : string)
| SetupMangleTableRule (ip protocol port fwmark : string) (tcpMSS : Z)
| CleanupMangleTableRule (ip protocol port fwmark : string) (tcpMSS : Z)
| RouteVIPTrafficToDirector (fwmark : string)
| AddDSRIPInsidePodNetNamespace (externalIP endpointIP : string)
| GetAllLocalIPs
| SyncIpvsFirewall
| SetupPolicyRoutingForDSR
| SetupRoutesForExternalIPForDSR
| MetricsDeleteLabelValues (labels : list string).

(** The kernel objects the engine manages, the two long-lived maps of the
    controller ([fwMarkMap], [metricsMap]), the per-pass
    [activeServiceEndpointMap] that [syncIpvsServices] allocates and shares by
    reference with every step, the orchestrator's log lines, the calls made so
    far (most recent first) and the fault oracle: [faults n c] is the error
    with which the call [c] fails when [n] calls were made before it. *)
Record World := mkWorld {
  dummyAddrs : list IP;
  ipvsTable : list (Service * list Destination);
  mangleTable : list string;
  localAddrs : list IP;
  fwMarkMap : gmap Z (string * string * string);
  metricsMap : gmap string (list string);
  activeServiceEndpointMap : gmap string (list string);
  klog : list string;
  calls : list Call;
  faults : nat -> Call -> option string
}.

Definition set_dummyAddrs (v : list IP) (w : World) : World :=
  mkWorld v (ipvsTable w) (mangleTable w) (localAddrs w) (fwMarkMap w)
    (metricsMap w) (activeServiceEndpointMap w) (klog w) (calls w) (faults w).

Definition set_ipvsTable (v : list (Service * list Destination)) (w : World) : World :=
  mkWorld (dummyAddrs w) v (mangleTable w) (localAddrs w) (fwMarkMap w)
    (metricsMap w) (activeServiceEndpointMap w) (klog w) (calls w) (faults w).

Definition set_mangleTable (v : list string) (w : World) : World :=
  mkWorld (dummyAddrs w) (ipvsTable w) v (localAddrs w) (fwMarkMap w)
    (metricsMap w) (activeServiceEndpointMap w) (klog w) (calls w) (faults w).

Definition set_fwMarkMap (v : gmap Z (string * string * string)) (w : World) : World :=
  mkWorld (dummyAddrs w) (ipvsTable w) (mangleTable w) (localAddrs w) v
    (metricsMap w) (activeServiceEndpointMap w) (klog w) (calls w) (faults w).

Definition set_metricsMap (v : gmap string (list string)) (w : World) : World :=
  mkWorld (dummyAddrs w) (ipvsTable w) (mangleTable w) (localAddrs w) (fwMarkMap w)
    v (activeServiceEndpointMap w) (klog w) (calls w) (faults w).

Definition set_active (v : gmap string (list string)) (w : World) : World :=
  mkWorld (dummyAddrs w) (ipvsTable w) (mangleTable w) (localAddrs w) (fwMarkMap w)
    (metricsMap w) v (klog w) (calls w) (faults w).

Definition set_klog (v : list string) (w : World) : World :=
  mkWorld (dummyAddrs w) (ipvsTable w) (mangleTable w) (localAddrs w) (fwMarkMap w)
    (metricsMap w) (activeServiceEndpointMap w) v (calls w) (faults w).

Definition set_calls (v : list Call) (w : World) : World :=
  mkWorld (dummyAddrs w) (ipvsTable w) (mangleTable w) (localAddrs w) (fwMarkMap w)
    (metricsMap w) (activeServiceEndpointMap w) (klog w) v (faults w).

(** The calls of a run in the order they were made. *)
Definition trace (w : World) : list Call := rev (calls w).

(** *** The state monad of the embedding *)

Definition M (A : Type) : Type := World -> A * World.

Definition ret {A} (a : A) : M A := fun w => (a, w).

Definition bind {A B} (m : M A) (k : A -> M B) : M B :=
  fun w => let (a, w') := m w in k a w'.

Declare Scope go_scope.
Delimit Scope go_scope with go.
Notation "x <- c ;; k" := (bind c (fun x => k))
  (at level 100, c at next level, right associativity) : go_scope.
Notation "c ;;; k" := (bind c (fun _ => k))
  (at level 100, right associativity) : go_scope.
Local Open Scope go_scope.

Definition gets {A} (f : World -> A) : M A := fun w => (f w, w).
Definition modify (f : World -> World) : M unit := fun w => (tt, f w).

(** Every host operation starts here: the call is recorded and the oracle
    says whether it fails. *)
Definition call (c : Call) : M error :=
  fun w => (faults w (length (calls w)) c, set_calls (c :: calls w) w).

(** *** Loops *)

(** How the body of a [for ... range] loop ends: it falls through or
    [continue]s ([Next]), [break]s, or [return]s from the enclosing
    function. *)
Inductive Flow :=
| Next
| Break
| Return (e : error).

(** [for _, x := range l { body }]; [Some e] when the body returned [e] from
    the function, [None] when the loop ended. *)
Fixpoint forRange {A} (body : A -> M Flow) (l : list A) : M (option error) :=
  match l with
  | [] => ret None
  | x :: t =>
      f <- body x ;;
      match f with
      | Next => forRange body t
      | Break => ret None
      | Return e => ret (Some e)
      end
  end.

(** A loop whose body neither breaks nor returns. *)
Fixpoint forEach {A} (body : A -> M unit) (l : list A) : M unit :=
  match l with
  | [] => ret tt
  | x :: t => body x ;;; forEach body t
  end.

(** *** The IPVS table *)

(** The kernel identifies a virtual service by address, protocol and port,
    or by its firewall mark. *)
Definition sameService (a b : Service) : bool :=
  bool_decide (Address a = Address b) && (Protocol a =? Protocol b)
  && (Port a =? Port b) && (FWMark a =? FWMark b).

Definition sameDestination (a b : Destination) : bool :=
  bool_decide (DstAddress a = DstAddress b) && (DstPort a =? DstPort b).

Definition services (w : World) : list Service := map fst (ipvsTable w).

Definition ensureService (s : Service) (t : list (Service * list Destination))
  : list (Service * list Destination) :=
  if existsb (fun e => sameService s (fst e)) t
  then map (fun e => if sameService s (fst e) then (s, snd e) else e) t
  else t ++ [(s, [])].

Definition ensureDestination (d : Destination) (ds : list Destination) : list Destination :=
  if existsb (sameDestination d) ds
  then map (fun d' => if sameDestination d d' then d else d') ds
  else ds ++ [d].

Definition onService (s : Service) (f : list Destination -> list Destination)
  (t : list (Service * list Destination)) : list (Service * list Destination) :=
  map (fun e => if sameService s (fst e) then (fst e, f (snd e)) else e) t.

Definition destinationsOf (s : Service) (t : list (Service * list Destination))
  : list Destination :=
  match find (fun e => sameService s (fst e)) t with
  | Some e => snd e
  | None => []
  end.

Definition removeService (s : Service) (t : list (Service * list Destination))
  : list (Service * list Destination) :=
  filter (fun e => negb (sameService s (fst e))) t.

(** *** The mangle table *)

(** Modelled from the spec: the lines [iptables-save] prints for the DSR rule
    of a tuple; the mark is given in decimal on install and printed in
    hexadecimal, and a TCP service carries the MSS clamp as a second rule. *)
Definition mangleRulesFor (ip protocol port fwmark : string) (tcpMSS : Z) : list string :=
  let hex := match Atoi fwmark with Some m => FormatHex m | None => fwmark end in
  let sel := "-A PREROUTING -d " +:+ ip +:+ "/32 -p " +:+ protocol
             +:+ " -m " +:+ protocol +:+ " --dport " +:+ port in
  (sel +:+ " -j MARK --set-xmark 0x" +:+ hex +:+ "/0xffffffff")
  :: (if String.eqb protocol tcpProtocol
      then [sel +:+ " -m mark --mark 0x" +:+ hex +:+ " -j TCPMSS --set-mss " +:+ Itoa tcpMSS]
      else []).

Definition addLines (new old : list string) : list string :=
  old ++ filter (fun l => negb (existsb (String.eqb l) old)) new.

Definition removeLines (gone old : list string) : list string :=
  filter (fun l => negb (existsb (String.eqb l) gone)) old.

(* ===================================================================== *)
(** ** The host adapter *)
(* ===================================================================== *)

(** The [LinuxNetworking] interface behind [nsc.ln] is declared and
    implemented outside this file.  Each operation records its call, fails
    with the oracle's error leaving the kernel untouched, and otherwise has
    the idempotent effect the spec gives it.  The dummy interface is the
    single link [kube-dummy-if], so the link handle is not passed around. *)
Module ln.

(** Modelled from the spec: [ensureDummyInterface], the adapter operation
    that creates the dummy interface if it is missing. *)
Definition getKubeDummyInterface : M error := call GetKubeDummyInterface.

(** Modelled from the spec: [listVirtualServices], a snapshot of the IPVS
    services. *)
Definition ipvsGetServices : M (list Service * error) :=
  err <- call IpvsGetServices ;;
  match err with
  | Some e => ret ([], Some e)
  | None => svcs <- gets services ;; ret (svcs, None)
  end.

(** Modelled from the spec: [addAddress], idempotent; whether the adapter
    reports an address that is already there as [IfaceHasAddr] is up to the
    oracle. *)
Definition ipAddrAdd (ip : string) (addRoute : bool) : M error :=
  err <- call (IpAddrAdd ip addRoute) ;;
  match err with
  | Some e => ret (Some e)
  | None =>
      modify (fun w =>
        if existsb (String.eqb ip) (dummyAddrs w) then w
        else set_dummyAddrs (dummyAddrs w ++ [ip]) w) ;;;
      ret None
  end.

(** Modelled from the spec: [delAddress], idempotent; likewise for
    [IfaceHasNoAddr]. *)
Definition ipAddrDel (ip : string) : M error :=
  err <- call (IpAddrDel ip) ;;
  match err with
  | Some e => ret (Some e)
  | None =>
      modify (fun w =>
        set_dummyAddrs (filter (fun a => negb (String.eqb ip a)) (dummyAddrs w)) w) ;;;
      ret None
  end.

(** Modelled from the spec: [ensureVirtualService], which creates the
    service if absent and updates it in place otherwise.  The snapshot
    [ipvsSvcs] the callers hand over only saves the adapter a listing; the
    kernel table decides. *)
Definition ipvsAddService (ipvsSvcs : list Service) (vip : option IP)
  (protocol port : Z) (persistent : bool) (timeout : Z) (scheduler : string)
  (flags : Z) : M (option Service * error) :=
  err <- call (IpvsAddService vip protocol port persistent timeout scheduler flags) ;;
  match err with
  | Some e => ret (None, Some e)
  | None =>
      let s := mkService vip protocol port 0 scheduler persistent timeout flags in
      modify (fun w => set_ipvsTable (ensureService s (ipvsTable w)) w) ;;;
      ret (Some s, None)
  end.

(** Modelled from the spec: [ensureFWMarkVirtualService], the same keyed by
    firewall mark; the kernel keeps neither address nor protocol for such an
    entry. *)
Definition ipvsAddFWMarkService (ipvsSvcs : list Service) (fwMark protocol port : Z)
  (persistent : bool) (timeout : Z) (scheduler : string) (flags : Z)
  : M (option Service * error) :=
  err <- call (IpvsAddFWMarkService fwMark protocol port persistent timeout scheduler flags) ;;
  match err with
  | Some e => ret (None, Some e)
  | None =>
      let s := mkService None 0 0 fwMark scheduler persistent timeout flags in
      modify (fun w => set_ipvsTable (ensureService s (ipvsTable w)) w) ;;;
      ret (Some s, None)
  end.

(** Modelled from the spec: [ensureRealServer], an idempotent add.  The
    handle is handed over as the caller holds it, nil included; with a nil
    handle there is no virtual service to attach the destination to. *)
Definition ipvsAddServer (service : option Service) (dest : Destination) : M error :=
  err <- call (IpvsAddServer service dest) ;;
  match err with
  | Some e => ret (Some e)
  | None =>
      match service with
      | Some s =>
          modify (fun w =>
            set_ipvsTable (onService s (ensureDestination dest) (ipvsTable w)) w) ;;;
          ret None
      | None => ret None
      end
  end.

(** Modelled from the spec: [listRealServers]. *)
Definition ipvsGetDestinations (service : Service) : M (list Destination * error) :=
  err <- call (IpvsGetDestinations service) ;;
  match err with
  | Some e => ret ([], Some e)
  | None => dsts <- gets (fun w => destinationsOf service (ipvsTable w)) ;; ret (dsts, None)
  end.

(** Modelled from the spec: [deleteVirtualService]. *)
Definition ipvsDelService (service : Service) : M error :=
  err <- call (IpvsDelService service) ;;
  match err with
  | Some e => ret (Some e)
  | None =>
      modify (fun w => set_ipvsTable (removeService service (ipvsTable w)) w) ;;;
      ret None
  end.

(** Modelled from the spec: [deleteMangleRule], which removes the rules of
    the tuple together. *)
Definition cleanupMangleTableRule (ip protocol port fwmark : string) (tcpMSS : Z) : M error :=
  err <- call (CleanupMangleTableRule ip protocol port fwmark tcpMSS) ;;
  match err with
  | Some e => ret (Some e)
  | None =>
      modify (fun w =>
        set_mangleTable
          (removeLines (mangleRulesFor ip protocol port fwmark tcpMSS) (mangleTable w)) w) ;;;
      ret None
  end.

(** Modelled from the spec: [ensurePolicyRoutingForDSR]; the routing tables
    are outside the state the claims speak of. *)
Definition setupPolicyRoutingForDSR : M error := call SetupPolicyRoutingForDSR.

(** Modelled from the spec: [ensureExternalIPRoutes]. *)
Definition setupRoutesForExternalIPForDSR (serviceInfoMap : list (string * serviceInfo))
  : M error := call SetupRoutesForExternalIPForDSR.

End ln.

(** The package level helpers and controller methods the file calls but does
    not define touch the host like the adapter does. *)

(** Modelled from the spec: [ensureMangleRule], which installs the rules of
    the tuple. *)
Definition setupMangleTableRule (ip protocol port fwmark : string) (tcpMSS : Z) : M error :=
  err <- call (SetupMangleTableRule ip protocol port fwmark tcpMSS) ;;
  match err with
  | Some e => ret (Some e)
  | None =>
      modify (fun w =>
        set_mangleTable
          (addLines (mangleRulesFor ip protocol port fwmark tcpMSS) (mangleTable w)) w) ;;;
      ret None
  end.

(** Modelled from the spec: the [ip rule] that routes packets with the mark
    through the custom DSR table. *)
Definition routeVIPTrafficToDirector (fwmark : string) : M error :=
  call (RouteVIPTrafficToDirector fwmark).

(** Modelled from the spec: [ensureVIPInsidePodNetNS]. *)
Definition addDSRIPInsidePodNetNamespace (externalIP endpointIP : string) : M error :=
  call (AddDSRIPInsidePodNetNamespace externalIP endpointIP).

(** Modelled from the spec: [listLocalIPs]. *)
Definition getAllLocalIPs : M (list IP * error) :=
  err <- call GetAllLocalIPs ;;
  match err with
  | Some e => ret ([], Some e)
  | None => addrs <- gets localAddrs ;; ret (addrs, None)
  end.

(** Modelled from the spec: the delegated firewall sync, "ensure service-VIP
    traffic is permitted". *)
Definition syncIpvsFirewall : M error := call SyncIpvsFirewall.

(** [netlink.AddrList(dummyVipInterface, netlink.FAMILY_V4)]. *)
Definition netlink_AddrList : M (list IP * error) :=
  err <- call AddrList ;;
  match err with
  | Some e => ret ([], Some e)
  | None => addrs <- gets dummyAddrs ;; ret (addrs, None)
  end.

(** Modelled from the spec: [utils.SaveInto(table, &buffer)], the snapshot of
    an iptables table; the buffer holds the saved rules, one per line. *)
Definition utils_SaveInto (table : string) : M (string * error) :=
  err <- call (SaveInto table) ;;
  match err with
  | Some e => ret (EmptyString, Some e)
  | None => dump <- gets (fun w => String.concat newline (mangleTable w)) ;; ret (dump, None)
  end.

(** Modelled from the spec: [deleteRealServer]. *)
Definition ipvsDeleteDestination (service : Service) (dest : Destination) : M error :=
  err <- call (IpvsDeleteDestination service dest) ;;
  match err with
  | Some e => ret (Some e)
  | None =>
      modify (fun w =>
        set_ipvsTable
          (onService service (filter (fun d => negb (sameDestination dest d))) (ipvsTable w)) w) ;;;
      ret None
  end.

(** Modelled from the spec: the deletion of the label values from every
    per-service metric, in one go. *)
Definition metrics_DeleteLabelValues (labels : list string) : M unit :=
  call (MetricsDeleteLabelValues labels) ;;; ret tt.

(** *** The firewall mark registry *)

(** Modelled from the spec: [lookupMark(ip, proto, port)] returns the mark
    bound to the tuple, 0 when there is none, and never fails. *)
Definition lookupFWMarkByService (ip protocol port : string) : M Z :=
  gets (fun w =>
    match filter (fun kv => bool_decide (snd kv = (ip, protocol, port)))
                 (map_to_list (fwMarkMap w)) with
    | kv :: _ => fst kv
    | [] => 0
    end).

(** Modelled from the spec: [lookupTuple(mark)] returns the tuple bound to the
    mark or an error; the port comes back as a number. *)
Definition lookupServiceByFWMark (fwMark : Z) : M (string * string * Z * error) :=
  gets (fun w =>
    match fwMarkMap w !! fwMark with
    | None => (EmptyString, EmptyString, 0,
               Some "could not find service matching the given FW mark")
    | Some (ip, protocol, port) =>
        match Atoi port with
        | Some p => (ip, protocol, p, None)
        | None => (EmptyString, EmptyString, 0,
                   Some "port number for service key for found FW mark was not a 32-bit int")
        end
    end).

(** Modelled from the spec: the rehash [h' = h + 1], wrapped to non-zero. *)
Definition nextMark (h : Z) : Z :=
  let h' := uint32 (h + 1) in if h' =? 0 then 1 else h'.

(** The first mark from [h] on that is free or already bound to [tuple]. *)
Fixpoint probeMark (fuel : nat) (m : gmap Z (string * string * string))
  (tuple : string * string * string) (h : Z) : option Z :=
  match fuel with
  | O => None
  | S fuel' =>
      match m !! h with
      | None => Some h
      | Some t => if bool_decide (t = tuple) then Some h else probeMark fuel' m tuple (nextMark h)
      end
  end.

(** Modelled from the spec: [allocateMark(ip, proto, port)] returns the mark
    the tuple already owns, and otherwise hashes the tuple and rehashes while
    another tuple holds the mark; a registry with [n] bindings is found a
    free mark within [n + 1] probes. *)
Definition generateUniqueFWMark (nsc : NetworkServicesController)
  (ip protocol port : string) : M (Z * error) :=
  owned <- lookupFWMarkByService ip protocol port ;;
  if negb (owned =? 0) then ret (owned, None)
  else
    m <- gets fwMarkMap ;;
    let h0 := uint32 (markHash nsc ip protocol port) in
    match probeMark (S (size m)) m (ip, protocol, port) (if h0 =? 0 then 1 else h0) with
    | None => ret (0, Some "could not obtain a unique FWMark")
    | Some mark =>
        modify (fun w => set_fwMarkMap (<[mark := (ip, protocol, port)]> (fwMarkMap w)) w) ;;;
        ret (mark, None)
    end.

(* ===================================================================== *)
(** ** The sync engine *)
(* ===================================================================== *)

(** [activeServiceEndpointMap[key] = make([]string, 0)] and
    [activeServiceEndpointMap[key] = append(activeServiceEndpointMap[key], id)];
    a missing key reads as the nil slice. *)
Definition activeReset (key : string) : M unit :=
  modify (fun w => set_active (<[key := []]> (activeServiceEndpointMap w)) w).

Definition activeAppend (key id : string) : M unit :=
  modify (fun w =>
    set_active (<[key := default [] (activeServiceEndpointMap w !! key) ++ [id]]>
                  (activeServiceEndpointMap w)) w).

(** The [ipvs.Destination] literal built for an endpoint. *)
Definition destinationFor (endpoint : endpointsInfo) (connectionFlags : Z) : Destination :=
  mkDestination (ParseIP (ep_ip endpoint)) (uint16 (ep_port endpoint)) 1
    connectionFlags AF_INET.

Definition endpointIDFor (endpoint : endpointsInfo) : string :=
  generateEndpointID (ep_ip endpoint) (Itoa (ep_port endpoint)).

(** [endpointsInfoMap[k]]: the nil slice when the key is missing. *)
Definition endpointsOf (endpointsInfoMap : gmap string (list endpointsInfo)) (k : string)
  : list endpointsInfo :=
  default [] (endpointsInfoMap !! k).

(** *** cleanupDSRService *)

(** The test of the scan: the saved rule mentions the address and the mark in
    hexadecimal. *)
Definition mangleRuleMatches (ipAddress : string) (fwMark : Z) (mangleTableRule : string)
  : bool :=
  Contains mangleTableRule ipAddress && Contains mangleTableRule (FormatHex fwMark).

(** The body of the scan over the saved mangle rules. *)
Definition cleanupDSRRule (nsc : NetworkServicesController)
  (ipAddress proto : string) (port fwMark : Z) (mangleTableRule : string) : M Flow :=
  if mangleRuleMatches ipAddress fwMark mangleTableRule
  then
    err <- ln.cleanupMangleTableRule ipAddress proto (Itoa port) (Itoa fwMark) (dsrTCPMSS nsc) ;;
    match err with
    | Some _ => ret Next
    | None => ret Break
    end
  else ret Next.

Definition cleanupDSRService (nsc : NetworkServicesController) (fwMark : Z) : M error :=
  r <- lookupServiceByFWMark fwMark ;;
  let '(ipAddress, proto, port, err) := r in
  match err with
  | Some e =>
      ret (Some ("no service was found for FW mark: " +:+ Sprint fwMark
                 +:+ ", service may not be all the way cleaned up: " +:+ e))
  | None =>
      saved <- utils_SaveInto "mangle" ;;
      let mangleTableRules :=
        match snd saved with
        | Some _ => []
        | None => Split (fst saved) newline
        end in
      forRange (cleanupDSRRule nsc ipAddress proto port fwMark) mangleTableRules ;;;
      modify (fun w => set_fwMarkMap (delete fwMark (fwMarkMap w)) w) ;;;
      ret None
  end.

(** *** setupClusterIPServices *)

Definition clusterIPEndpoint (svc : serviceInfo) (endpoints : list endpointsInfo)
  (ipvsClusterVipSvc : option Service) (clusterServiceID : string)
  (endpoint : endpointsInfo) : M unit :=
  let dst := destinationFor endpoint ConnectionFlagMasq in
  if svc_local svc && (hasActiveEndpoints endpoints && negb (ep_isLocal endpoint))
  then ret tt
  else
    err <- ln.ipvsAddServer ipvsClusterVipSvc dst ;;
    match err with
    | Some _ => ret tt
    | None => activeAppend clusterServiceID (endpointIDFor endpoint)
    end.

Definition clusterIPService (ipvsSvcs : list Service)
  (endpointsInfoMap : gmap string (list endpointsInfo))
  (entry : string * serviceInfo) : M Flow :=
  let (k, svc) := entry in
  let protocol := convertSvcProtoToSysCallProto (svc_protocol svc) in
  let endpoints := endpointsOf endpointsInfoMap k in
  err <- ln.getKubeDummyInterface ;;
  match err with
  | Some e => ret (Return (Some ("Failed creating dummy interface: " +:+ e)))
  | None =>
      err <- ln.ipAddrAdd (IP_String (svc_clusterIP svc)) true ;;
      match err with
      | Some _ => ret Next
      | None =>
          r <- ln.ipvsAddService ipvsSvcs (svc_clusterIP svc) protocol
                 (uint16 (svc_port svc)) (svc_sessionAffinity svc)
                 (svc_sessionAffinityTimeoutSeconds svc) (svc_scheduler svc) (svc_flags svc) ;;
          match snd r with
          | Some _ => ret Next
          | None =>
              let clusterServiceID :=
                generateIPPortID (IP_String (svc_clusterIP svc)) (svc_protocol svc)
                  (Itoa (svc_port svc)) in
              activeReset clusterServiceID ;;;
              forEach (clusterIPEndpoint svc endpoints (fst r) clusterServiceID) endpoints ;;;
              ret Next
          end
      end
  end.

Definition setupClusterIPServices (nsc : NetworkServicesController)
  (serviceInfoMap : list (string * serviceInfo))
  (endpointsInfoMap : gmap string (list endpointsInfo)) : M error :=
  r <- ln.ipvsGetServices ;;
  match snd r with
  | Some e => ret (Some ("Failed get list of IPVS services due to: " +:+ e))
  | None =>
      out <- forRange (clusterIPService (fst r) endpointsInfoMap) serviceInfoMap ;;
      match out with
      | Some e => ret e
      | None => ret None
      end
  end.

(** *** setupNodePortServices *)

(** One round of the loop over the local addresses: the slot of the address
    in [ipvsNodeportSvcs] and in [nodeServiceIds].  When the virtual service
    cannot be created the handle slot holds what the adapter returned and the
    id slot keeps the empty string it was made with. *)
Definition nodePortSlot (svc : serviceInfo) (ipvsSvcs : list Service) (protocol : Z)
  (addr : IP) : M (option Service * string) :=
  r <- ln.ipvsAddService ipvsSvcs (Some addr) protocol (uint16 (svc_nodePort svc))
         (svc_sessionAffinity svc) (svc_sessionAffinityTimeoutSeconds svc)
         (svc_scheduler svc) (svc_flags svc) ;;
  match snd r with
  | Some _ => ret (fst r, EmptyString)
  | None =>
      let id := generateIPPortID addr (svc_protocol svc) (Itoa (svc_nodePort svc)) in
      activeReset id ;;; ret (fst r, id)
  end.

Fixpoint forSlots {A B} (f : A -> M B) (l : list A) : M (list B) :=
  match l with
  | [] => ret []
  | x :: t => y <- f x ;; ys <- forSlots f t ;; ret (y :: ys)
  end.

Definition nodePortServer (svc : serviceInfo) (endpoint : endpointsInfo)
  (slot : option Service * string) : M unit :=
  if negb (svc_local svc) || (svc_local svc && ep_isLocal endpoint)
  then
    err <- ln.ipvsAddServer (fst slot) (destinationFor endpoint ConnectionFlagMasq) ;;
    match err with
    | Some _ => ret tt
    | None => activeAppend (snd slot) (endpointIDFor endpoint)
    end
  else ret tt.

Definition nodePortEndpoints (svc : serviceInfo) (endpoints : list endpointsInfo)
  (slots : list (option Service * string)) : M unit :=
  forEach (fun endpoint => forEach (nodePortServer svc endpoint) slots) endpoints.

Definition nodePortService (nsc : NetworkServicesController) (ipvsSvcs : list Service)
  (endpointsInfoMap : gmap string (list endpointsInfo))
  (entry : string * serviceInfo) : M Flow :=
  let (k, svc) := entry in
  let protocol := convertSvcProtoToSysCallProto (svc_protocol svc) in
  if svc_nodePort svc =? 0 then ret Next
  else
    let endpoints := endpointsOf endpointsInfoMap k in
    if svc_local svc && negb (hasActiveEndpoints endpoints) then ret Next
    else if nodeportBindOnAllIP nsc then
      r <- getAllLocalIPs ;;
      match snd r with
      | Some _ => ret Next
      | None =>
          if (length (fst r) =? 0)%nat then ret Next
          else
            slots <- forSlots (nodePortSlot svc ipvsSvcs protocol) (fst r) ;;
            nodePortEndpoints svc endpoints slots ;;;
            ret Next
      end
    else
      r <- ln.ipvsAddService ipvsSvcs (nodeIP nsc) protocol (uint16 (svc_nodePort svc))
             (svc_sessionAffinity svc) (svc_sessionAffinityTimeoutSeconds svc)
             (svc_scheduler svc) (svc_flags svc) ;;
      match snd r with
      | Some _ => ret Next
      | None =>
          let id := generateIPPortID (IP_String (nodeIP nsc)) (svc_protocol svc)
                      (Itoa (svc_nodePort svc)) in
          activeReset id ;;;
          nodePortEndpoints svc endpoints [(fst r, id)] ;;;
          ret Next
      end.

Definition setupNodePortServices (nsc : NetworkServicesController)
  (serviceInfoMap : list (string * serviceInfo))
  (endpointsInfoMap : gmap string (list endpointsInfo)) : M error :=
  r <- ln.ipvsGetServices ;;
  match snd r with
  | Some e => ret (Some ("Failed get list of IPVS services due to: " +:+ e))
  | None =>
      out <- forRange (nodePortService nsc (fst r) endpointsInfoMap) serviceInfoMap ;;
      match out with
      | Some e => ret e
      | None => ret None
      end
  end.

(** *** setupExternalIPForService and setupExternalIPForDSRService *)

(** [if err != nil { return err }]: the function ends with [e] when it is an
    error and goes on with [k] otherwise. *)
Definition orReturn (e : error) (k : M error) : M error :=
  match e with
  | Some _ => ret e
  | None => k
  end.

(** [fmt.Errorf(prefix + "%v", err)] for a non-nil [err]. *)
Definition wrapError (prefix : string) (e : error) : error :=
  option_map (fun msg => prefix +:+ msg) e.

Definition loopResult (out : option error) : error :=
  match out with
  | Some e => e
  | None => None
  end.

(** The loop that adds the pod endpoints to an external IP service; [after]
    is what the DSR variant does once a destination is in place. *)
Definition externalIPEndpoint (svc : serviceInfo) (externalIP : string)
  (ipvsExternalIPSvc : option Service) (connectionFlags : Z)
  (after : endpointsInfo -> M Flow) (endpoint : endpointsInfo) : M Flow :=
  if svc_local svc && negb (ep_isLocal endpoint) then ret Next
  else
    err <- ln.ipvsAddServer ipvsExternalIPSvc (destinationFor endpoint connectionFlags) ;;
    match err with
    | Some e =>
        ret (Return (Some ("unable to add destination " +:+ ep_ip endpoint
                           +:+ " to externalIP service " +:+ externalIP +:+ ": " +:+ e)))
    | None => after endpoint
    end.

Definition setupExternalIPForService (nsc : NetworkServicesController)
  (svc : serviceInfo) (externalIP : string) (endpoints : list endpointsInfo) : M error :=
  let protocol := convertSvcProtoToSysCallProto (svc_protocol svc) in
  err <- ln.getKubeDummyInterface ;;
  orReturn (wrapError "failed creating dummy interface: " err) (
  r <- ln.ipvsGetServices ;;
  orReturn (wrapError "failed get list of IPVS services due to: " (snd r)) (
  err <- ln.ipAddrAdd externalIP true ;;
  orReturn
    (match err with
     | Some e =>
         if negb (String.eqb e IfaceHasAddr)
         then Some ("failed to assign external ip " +:+ externalIP
                    +:+ " to dummy interface " +:+ KubeDummyIf +:+ " due to " +:+ e)
         else None
     | None => None
     end) (
  s <- ln.ipvsAddService (fst r) (ParseIP externalIP) protocol (uint16 (svc_port svc))
         (svc_sessionAffinity svc) (svc_sessionAffinityTimeoutSeconds svc)
         (svc_scheduler svc) (svc_flags svc) ;;
  orReturn
    (wrapError ("failed to create ipvs service for external ip: " +:+ externalIP
                +:+ " due to ") (snd s)) (
  fwMark <- lookupFWMarkByService externalIP (svc_protocol svc) (Itoa (svc_port svc)) ;;
  cleaned <- (if fwMark =? 0 then ret None
              else err <- cleanupDSRService nsc fwMark ;;
                   ret (wrapError "failed to cleanup DSR service: " err)) ;;
  orReturn cleaned (
  out <- forRange (externalIPEndpoint svc externalIP (fst s) ConnectionFlagMasq
                     (fun _ => ret Next)) endpoints ;;
  ret (loopResult out)))))).

Definition setupExternalIPForDSRService (nsc : NetworkServicesController)
  (svc : serviceInfo) (externalIP : string) (endpoints : list endpointsInfo) : M error :=
  let protocol := convertSvcProtoToSysCallProto (svc_protocol svc) in
  err <- ln.getKubeDummyInterface ;;
  orReturn (wrapError "Failed creating dummy interface: " err) (
  r <- ln.ipvsGetServices ;;
  orReturn (wrapError "Failed get list of IPVS services due to: " (snd r)) (
  m <- generateUniqueFWMark nsc externalIP (svc_protocol svc) (Itoa (svc_port svc)) ;;
  orReturn (option_map (fun _ => "failed to generate FW mark") (snd m)) (
  let fwMark := fst m in
  s <- ln.ipvsAddFWMarkService (fst r) fwMark protocol (uint16 (svc_port svc))
         (svc_sessionAffinity svc) (svc_sessionAffinityTimeoutSeconds svc)
         (svc_scheduler svc) (svc_flags svc) ;;
  orReturn
    (wrapError ("failed to create IPVS service for External IP: " +:+ externalIP
                +:+ " due to: ") (snd s)) (
  let externalIPServiceID := Sprint fwMark in
  err <- setupMangleTableRule externalIP (svc_protocol svc) (Itoa (svc_port svc))
           externalIPServiceID (dsrTCPMSS nsc) ;;
  orReturn
    (option_map (fun _ => "failed to setup mangle table rule to forward the traffic to external IP")
       err) (
  err <- ln.ipAddrDel externalIP ;;
  orReturn
    (match err with
     | Some e =>
         if negb (String.eqb e IfaceHasNoAddr)
         then Some ("failed to delete external ip address from dummyVipInterface due to " +:+ e)
         else None
     | None => None
     end) (
  err <- routeVIPTrafficToDirector ("0x" +:+ FormatHex fwMark) ;;
  orReturn
    (wrapError ("failed to setup ip rule to lookup traffic to external IP: " +:+ externalIP
                +:+ " through custom route table due to ") err) (
  out <- forRange
           (externalIPEndpoint svc externalIP (fst s) ConnectionFlagTunnel
              (fun endpoint =>
                 err <- addDSRIPInsidePodNetNamespace externalIP (ep_ip endpoint) ;;
                 match err with
                 | Some e => ret (Return (Some ("unable to setup DSR receiver inside pod: " +:+ e)))
                 | None => ret Next
                 end)) endpoints ;;
  ret (loopResult out)))))))).

(** *** setupExternalIPServices *)

Definition externalIPRecord (svc : serviceInfo) (externalIPServiceID : string)
  (endpoint : endpointsInfo) : M unit :=
  if negb (svc_local svc) || (svc_local svc && ep_isLocal endpoint)
  then activeAppend externalIPServiceID (endpointIDFor endpoint)
  else ret tt.

Definition externalIPOfService (nsc : NetworkServicesController) (svc : serviceInfo)
  (endpoints : list endpointsInfo) (externalIP : string) : M Flow :=
  r <- (if svc_directServerReturn svc
           && String.eqb (svc_directServerReturnMethod svc) tunnelInterfaceType
        then
          err <- setupExternalIPForDSRService nsc svc externalIP endpoints ;;
          match err with
          | Some e =>
              ret (inl (Some ("failed to setup DSR endpoint " +:+ externalIP +:+ ": " +:+ e)))
          | None =>
              fwMark <- lookupFWMarkByService externalIP (svc_protocol svc)
                          (Sprint (svc_port svc)) ;;
              ret (inr (Sprint fwMark))
          end
        else
          err <- setupExternalIPForService nsc svc externalIP endpoints ;;
          match err with
          | Some e =>
              ret (inl (Some ("failed to setup service endpoint " +:+ externalIP +:+ ": " +:+ e)))
          | None =>
              ret (inr (generateIPPortID externalIP (svc_protocol svc) (Itoa (svc_port svc))))
          end) ;;
  match r with
  | inl e => ret (Return e)
  | inr externalIPServiceID =>
      activeReset externalIPServiceID ;;;
      forEach (externalIPRecord svc externalIPServiceID) endpoints ;;;
      ret Next
  end.

Definition externalIPSetOf (svc : serviceInfo) : list string :=
  NewStringSet (svc_externalIPs svc
                ++ (if svc_skipLbIps svc then [] else svc_loadBalancerIPs svc)).

Definition externalIPService (nsc : NetworkServicesController)
  (endpointsInfoMap : gmap string (list endpointsInfo))
  (entry : string * serviceInfo) : M Flow :=
  let (k, svc) := entry in
  let endpoints := endpointsOf endpointsInfoMap k in
  let extIPSet := externalIPSetOf svc in
  if (length extIPSet =? 0)%nat then ret Next
  else if svc_local svc && negb (hasActiveEndpoints endpoints) then ret Next
  else
    out <- forRange (externalIPOfService nsc svc endpoints) extIPSet ;;
    match out with
    | Some e => ret (Return e)
    | None => ret Next
    end.

Definition setupExternalIPServices (nsc : NetworkServicesController)
  (serviceInfoMap : list (string * serviceInfo))
  (endpointsInfoMap : gmap string (list endpointsInfo)) : M error :=
  out <- forRange (externalIPService nsc endpointsInfoMap) serviceInfoMap ;;
  ret (loopResult out).

(** *** setupForDSR *)

Definition setupForDSR (serviceInfoMap : list (string * serviceInfo)) : M error :=
  err <- ln.setupPolicyRoutingForDSR ;;
  orReturn (wrapError "Failed setup PBR for DSR due to: " err) (
  err <- ln.setupRoutesForExternalIPForDSR serviceInfoMap ;;
  orReturn
    (wrapError
       "failed setup custom routing table required to add routes for external IP's due to: "
       err)
    (ret None)).

(** *** cleanupStaleVIPs *)

(** The [addrActive] map: the first dash separated field of every key of the
    active map that contains a dash. *)
Definition addrActiveOf (active : gmap string (list string)) : gset string :=
  list_to_set
    (omap (fun k => if Contains k "-" then head (SplitN k "-" 3) else None)
          (elements (dom active))).

Definition staleVIP (addrActive : gset string) (addr : IP) : M unit :=
  let isActive := bool_decide (addr ∈ addrActive) in
  if negb isActive
  then _ <- ln.ipAddrDel addr ;; ret tt
  else ret tt.

Definition cleanupStaleVIPs : M error :=
  addrActive <- gets (fun w => addrActiveOf (activeServiceEndpointMap w)) ;;
  err <- ln.getKubeDummyInterface ;;
  orReturn (wrapError "Failed creating dummy interface: " err) (
  r <- netlink_AddrList ;;
  orReturn (wrapError "Failed to list dummy interface IPs: " (snd r)) (
  forEach (staleVIP addrActive) (fst r) ;;;
  ret None)).

(** *** cleanupStaleIPVSConfig *)

(** The key under which the sweep looks an installed entry up in the active
    map; [None] where the loop [continue]s without a key. *)
Definition staleKey (ipvsSvc : Service) : option string :=
  let protocol := convertSysCallProtoToSvcProto (Protocol ipvsSvc) in
  if String.eqb protocol noneProtocol && (FWMark ipvsSvc =? 0) then None
  else
    match Address ipvsSvc with
    | Some _ =>
        Some (generateIPPortID (IP_String (Address ipvsSvc)) protocol (Itoa (Port ipvsSvc)))
    | None =>
        if negb (FWMark ipvsSvc =? 0) then Some (Sprint (FWMark ipvsSvc)) else None
    end.

Definition isExcluded (nsc : NetworkServicesController) (ipvsSvc : Service) : bool :=
  existsb (fun excludedCidr => IPNet_Contains excludedCidr (Address ipvsSvc))
          (excludedCidrs nsc).

Definition destinationID (dst : Destination) : string :=
  generateEndpointID (IP_String (DstAddress dst)) (Itoa (DstPort dst)).

Definition staleDestination (ipvsSvc : Service) (endpointIDs : list string)
  (dst : Destination) : M unit :=
  let validEp := existsb (fun epID => String.eqb epID (destinationID dst)) endpointIDs in
  if negb validEp
  then _ <- ipvsDeleteDestination ipvsSvc dst ;; ret tt
  else ret tt.

Definition staleIPVSService (nsc : NetworkServicesController) (ipvsSvc : Service) : M unit :=
  match staleKey ipvsSvc with
  | None => ret tt
  | Some key =>
      active <- gets activeServiceEndpointMap ;;
      match active !! key with
      | None =>
          if isExcluded nsc ipvsSvc then ret tt
          else
            (if negb (FWMark ipvsSvc =? 0)
             then
               r <- lookupServiceByFWMark (FWMark ipvsSvc) ;;
               match snd r with
               | Some _ => ret tt
               | None => _ <- cleanupDSRService nsc (FWMark ipvsSvc) ;; ret tt
               end
             else ret tt) ;;;
            _ <- ln.ipvsDelService ipvsSvc ;;
            ret tt
      | Some endpointIDs =>
          r <- ln.ipvsGetDestinations ipvsSvc ;;
          forEach (staleDestination ipvsSvc endpointIDs) (fst r)
      end
  end.

Definition cleanupStaleIPVSConfig (nsc : NetworkServicesController) : M error :=
  r <- ln.ipvsGetServices ;;
  orReturn (wrapError "failed get list of IPVS services due to: " (snd r)) (
  forEach (staleIPVSService nsc) (fst r) ;;;
  ret None).

(** *** cleanupStaleMetrics *)

Definition staleMetric (entry : string * list string) : M unit :=
  let (k, v) := entry in
  active <- gets activeServiceEndpointMap ;;
  match active !! k with
  | Some _ => ret tt
  | None =>
      metrics_DeleteLabelValues v ;;;
      modify (fun w => set_metricsMap (delete k (metricsMap w)) w)
  end.

Definition cleanupStaleMetrics : M unit :=
  entries <- gets (fun w => map_to_list (metricsMap w)) ;;
  forEach staleMetric entries.

(** *** syncIpvsServices *)

(** [if err != nil { syncErrors = true; klog.Errorf(msg, err.Error()) }]. *)
Definition noteError (msg : string) (err : error) (syncErrors : bool) : M bool :=
  match err with
  | Some e => modify (fun w => set_klog (klog w ++ [msg +:+ e]) w) ;;; ret true
  | None => ret syncErrors
  end.

Definition summary (syncErrors : bool) : string :=
  if syncErrors
  then "One or more errors encountered during sync of IPVS services and servers to desired state"
  else "IPVS servers and services are synced to desired state".

(** The messages of the orchestrator's [klog.Errorf] lines, one per step that
    can fail. *)
Definition msgClusterIP : string :=
  "Error setting up IPVS services for service cluster IP's: ".
Definition msgNodePort : string :=
  "Error setting up IPVS services for service nodeport's: ".
Definition msgExternalIP : string :=
  "Error setting up IPVS services for service external IP's and load balancer IP's: ".
Definition msgStaleVIPs : string :=
  "Error cleaning up stale VIP's configured on the dummy interface: ".
Definition msgStaleIPVS : string :=
  "Error cleaning up stale IPVS services and servers: ".
Definition msgFirewall : string :=
  "Error syncing ipvs svc iptables rules to permit traffic to service VIP's: ".
Definition msgDSR : string :=
  "Error setting up necessary policy based routing configuration needed for direct server return: ".

(** The observation of the elapsed time in the deferred function does not
    touch the state the engine manages and is left out. *)
Definition syncIpvsServices (nsc : NetworkServicesController)
  (serviceInfoMap : list (string * serviceInfo))
  (endpointsInfoMap : gmap string (list endpointsInfo)) : M error :=
  let syncErrors := false in
  modify (set_active ∅) ;;;
  err <- setupClusterIPServices nsc serviceInfoMap endpointsInfoMap ;;
  syncErrors <- noteError msgClusterIP err syncErrors ;;
  err <- setupNodePortServices nsc serviceInfoMap endpointsInfoMap ;;
  syncErrors <- noteError msgNodePort err syncErrors ;;
  err <- setupExternalIPServices nsc serviceInfoMap endpointsInfoMap ;;
  syncErrors <- noteError msgExternalIP err syncErrors ;;
  err <- cleanupStaleVIPs ;;
  syncErrors <- noteError msgStaleVIPs err syncErrors ;;
  err <- cleanupStaleIPVSConfig nsc ;;
  syncErrors <- noteError msgStaleIPVS err syncErrors ;;
  cleanupStaleMetrics ;;;
  err <- syncIpvsFirewall ;;
  syncErrors <- noteError msgFirewall err syncErrors ;;
  err <- setupForDSR serviceInfoMap ;;
  syncErrors <- noteError msgDSR err syncErrors ;;
  modify (fun w => set_klog (klog w ++ [summary syncErrors]) w) ;;;
  ret None.

(* ===================================================================== *)
(** ** Observations and predicates over runs *)
(* ===================================================================== *)

(** [preserves f m]: running [m] leaves the observation [f] of the world
    unchanged. *)
Definition preserves {A B} (f : World -> B) (m : M A) : Prop :=
  forall w, f (snd (m w)) = f w.

(** The world after the orchestrator has looked at the error of a step. *)
Definition logged (msg : string) (err : error) (w : World) : World :=
  snd (noteError msg err false w).



(** [always P m]: whatever the world, the result of [m] satisfies [P]. *)
Definition always {A} (P : A -> Prop) (m : M A) : Prop :=
  forall w, P (fst (m w)).

(** A loop whose body always falls through visits every element, each from
    the world the previous visit left. *)
Definition visitAll {A} (body : A -> M Flow) (l : list A) (w : World) : World :=
  fold_left (fun w x => snd (body x w)) l w.

(** A flow that is a fall-through or the return of an error. *)
Definition nextOrError (f : Flow) : Prop :=
  f = Next \/ exists msg, f = Return (Some msg).

(** The local-policy predicate: the service is not local, or the endpoint is
    local, or the service is local and has no local endpoint. *)
Definition localPolicy (svc : serviceInfo) (endpoints : list endpointsInfo)
  (endpoint : endpointsInfo) : bool :=
  negb (svc_local svc) || ep_isLocal endpoint
  || (svc_local svc && negb (hasActiveEndpoints endpoints)).

(** The real servers the run handed to [ipvsAddServer], with the handle of
    the virtual service they were added to, most recent first. *)
Definition addedServerOf (c : Call) : option (option Service * Destination) :=
  match c with
  | IpvsAddServer h d => Some (h, d)
  | _ => None
  end.

Definition addedServers (w : World) : list (option Service * Destination) :=
  omap addedServerOf (calls w).

(** Whether the visit of a service in the cluster-IP pass gets as far as
    ensuring the virtual service: the dummy interface, the address and the
    virtual service, the calls number [n], [n + 1] and [n + 2] of the run,
    all succeed. *)
Definition clusterIPInstalled (svc : serviceInfo) (w : World) : bool :=
  let n := length (calls w) in
  bool_decide (faults w n GetKubeDummyInterface = None)
  && bool_decide (faults w (S n) (IpAddrAdd (IP_String (svc_clusterIP svc)) true) = None)
  && bool_decide
       (faults w (S (S n))
          (IpvsAddService (svc_clusterIP svc)
             (convertSvcProtoToSysCallProto (svc_protocol svc)) (uint16 (svc_port svc))
             (svc_sessionAffinity svc) (svc_sessionAffinityTimeoutSeconds svc)
             (svc_scheduler svc) (svc_flags svc)) = None).

(** The same for the node-port pass bound to the node IP: the service has a
    node port, passes the guard on local endpoints, and the virtual service,
    the call number [n], is created. *)
Definition nodePortInstalled (nsc : NetworkServicesController) (svc : serviceInfo)
  (endpoints : list endpointsInfo) (w : World) : bool :=
  negb (svc_nodePort svc =? 0)
  && negb (svc_local svc && negb (hasActiveEndpoints endpoints))
  && bool_decide
       (faults w (length (calls w))
          (IpvsAddService (nodeIP nsc)
             (convertSvcProtoToSysCallProto (svc_protocol svc)) (uint16 (svc_nodePort svc))
             (svc_sessionAffinity svc) (svc_sessionAffinityTimeoutSeconds svc)
             (svc_scheduler svc) (svc_flags svc)) = None).

(** A host on which no call fails. *)
Definition faultFree (w : World) : Prop := forall n c, faults w n c = None.

(** The entries the sweep leaves in place by design: those it computes no
    key for, those inside an excluded CIDR and those whose key is in the
    active map. *)
Definition keptBySweep (nsc : NetworkServicesController)
  (active : gmap string (list string)) (s : Service) : Prop :=
  staleKey s = None
  \/ isExcluded nsc s = true
  \/ exists key, staleKey s = Some key /\ is_Some (active !! key).

(** The real servers the host accepted: the [ipvsAddServer] calls of a
    record that the oracle answered with nil, with the handle they were added
    to, most recent first.  The call at the head of a record was made when
    the calls of its tail had been made. *)
Fixpoint acceptedIn (faulty : nat -> Call -> option string) (cs : list Call)
  : list (option Service * Destination) :=
  match cs with
  | [] => []
  | c :: t =>
      match c with
      | IpvsAddServer h d =>
          match faulty (length t) c with
          | None => (h, d) :: acceptedIn faulty t
          | Some _ => acceptedIn faulty t
          end
      | _ => acceptedIn faulty t
      end
  end.

Definition acceptedServers (w : World) : list (option Service * Destination) :=
  acceptedIn (faults w) (calls w).

(** A host that refuses no real server. *)
Definition noAddRefused (w : World) : Prop :=
  forall n h d, faults w n (IpvsAddServer h d) = None.

(** The endpoints the loops of the external IP setups do not pass over. *)
Definition servedBy (svc : serviceInfo) (endpoints : list endpointsInfo) : list endpointsInfo :=
  filter (fun endpoint => negb (svc_local svc && negb (ep_isLocal endpoint))) endpoints.

(** The outcome [r] of a setup started in [w]: the real servers accepted on
    the way are the first of [served], in order, added to [h], and all of
    them when the setup returned nil. *)
Definition acceptedWithin (h : option Service) (connectionFlags : Z)
  (served : list endpointsInfo) (w : World) (r : error * World) : Prop :=
  faults (snd r) = faults w
  /\ exists accepted,
       accepted `prefix_of` served
       /\ acceptedServers (snd r) =
          rev (map (fun endpoint => (h, destinationFor endpoint connectionFlags)) accepted)
          ++ acceptedServers w
       /\ (fst r = None -> accepted = served).

(** [extends m]: running [m] puts calls on top of the record and removes
    none. *)
Definition extends {A} (m : M A) : Prop :=
  forall w, exists l, calls (snd (m w)) = l ++ calls w.

(* ===================================================================== *)
(** ** Scenarios *)
(* ===================================================================== *)

(** Concrete nodes, services and fault oracles on which the engine is run
    further down. *)

(** An installed entry that carries both an address and a firewall mark. *)
Definition markedEntryWithAddress : Service :=
  mkService (Some "203.0.113.9") IPPROTO_TCP 443 5 "rr" false 0 0.

Definition sweepWorld (table : list (Service * list Destination))
  (active : gmap string (list string)) : World :=
  mkWorld [] table [] [] ∅ ∅ active [] [] (fun _ _ => None).

Definition plainController : NetworkServicesController :=
  mkController (Some "192.168.1.10") false [] 0 false (fun _ _ _ => 7).

(** A registry that knows the mark 31 and a mangle table holding the two
    rules of its tuple. *)
Definition dsrTuple : string * string * string := ("203.0.113.9", "tcp", "443").

Definition dsrWorld (faulty : nat -> Call -> option string) : World :=
  mkWorld [] [] (mangleRulesFor "203.0.113.9" "tcp" "443" "31" 0) []
    {[ 31 := dsrTuple ]} ∅ ∅ [] [] faulty.

(** The host on which dumping the mangle table fails. *)
Definition failSaveInto (n : nat) (c : Call) : option string :=
  match c with
  | SaveInto _ => Some "iptables-save: exit status 1"
  | _ => None
  end.

(** The host on which the first call of the rule cleanup fails; the dump of
    the table is call 0, so that cleanup is call 1. *)
Definition failFirstCleanup (n : nat) (c : Call) : option string :=
  match n, c with
  | 1%nat, CleanupMangleTableRule _ _ _ _ _ => Some "iptables: resource temporarily unavailable"
  | _, _ => None
  end.

(** A table whose first line belongs to another service. *)
Definition dsrWorldWithForeignRule : World :=
  mkWorld [] []
    ("-A PREROUTING -d 198.51.100.7/32 -p udp -m udp --dport 53 -j MARK --set-xmark 0x2a/0xffffffff"
     :: mangleRulesFor "203.0.113.9" "tcp" "443" "31" 0)
    [] {[ 31 := dsrTuple ]} ∅ ∅ [] [] (fun _ _ => None).

(** The entry of the cluster IP service [10.0.0.1:80/tcp] with two real
    servers, and a world that has it installed. *)
Definition webEntry : Service :=
  mkService (Some "10.0.0.1") IPPROTO_TCP 80 0 "rr" false 0 0.

Definition webDestination (ip : string) : Destination :=
  mkDestination (Some ip) 8080 1 ConnectionFlagMasq AF_INET.

Definition webInstalled (active : gmap string (list string))
  (faulty : nat -> Call -> option string) : World :=
  mkWorld ["10.0.0.1"]
    [(webEntry, [webDestination "10.1.0.2"; webDestination "10.1.0.3"])]
    [] [] ∅ ∅ active [] [] faulty.

Definition noFaults (n : nat) (c : Call) : option string := None.

Definition bindAllController : NetworkServicesController :=
  mkController (Some "192.168.1.10") true [] 0 false (fun _ _ _ => 7).

Definition webNodePort : serviceInfo :=
  mkServiceInfo "web" "default" (Some "10.0.0.1") 80 "tcp" 30080 false 0 false "rr"
    EmptyString [] [] false false 0.

Definition webBackend : endpointsInfo := mkEndpointsInfo "10.1.0.2" 8080 true.

(** The host on which the virtual service for the local address [10.0.0.5]
    cannot be created. *)
Definition failSecondAddress (n : nat) (c : Call) : option string :=
  match c with
  | IpvsAddService (Some "10.0.0.5") _ _ _ _ _ _ => Some "ipvs: no buffer space available"
  | _ => None
  end.

Definition twoAddressNode : World :=
  mkWorld [] [] [] ["192.168.1.10"; "10.0.0.5"] ∅ ∅ ∅ [] [] failSecondAddress.

Definition web : serviceInfo :=
  mkServiceInfo "web" "default" (Some "10.0.0.1") 80 "tcp" 0 false 0 false "rr"
    EmptyString [] [] false false 0.

Definition webEndpoints : gmap string (list endpointsInfo) :=
  {[ "default/web" := [mkEndpointsInfo "10.1.0.2" 8080 true;
                       mkEndpointsInfo "10.1.0.3" 8080 false] ]}.

(** The host that reports the distinguishable "already has address" outcome
    when an address is added a second time. *)
Definition alreadyPresent (n : nat) (c : Call) : option string :=
  match c with
  | IpAddrAdd "10.0.0.1" _ => Some IfaceHasAddr
  | _ => None
  end.

(** Two services with one external IP each; the virtual service for the
    external IP of the first cannot be created. *)
Definition frontend : serviceInfo :=
  mkServiceInfo "frontend" "default" (Some "10.0.0.1") 80 "tcp" 0 false 0 false "rr"
    EmptyString ["203.0.113.9"] [] false false 0.

Definition backend : serviceInfo :=
  mkServiceInfo "backend" "default" (Some "10.0.0.2") 80 "tcp" 0 false 0 false "rr"
    EmptyString ["203.0.113.10"] [] false false 0.

Definition failFrontendVIP (n : nat) (c : Call) : option string :=
  match c with
  | IpvsAddService (Some "203.0.113.9") _ _ _ _ _ _ => Some "ipvs: no buffer space available"
  | _ => None
  end.

Definition emptyNode (faulty : nat -> Call -> option string) : World :=
  mkWorld [] [] [] [] ∅ ∅ ∅ [] [] faulty.

(** The host on which the dummy interface cannot be obtained once, at the
    second call of the pass, and can be obtained afterwards. *)
Definition failFirstDummyLookup (n : nat) (c : Call) : option string :=
  match c with
  | GetKubeDummyInterface => if Nat.eqb n 1 then Some "netlink: operation not permitted" else None
  | _ => None
  end.

(** The host on which no virtual service can be created. *)
Definition failAddService (n : nat) (c : Call) : option string :=
  match c with
  | IpvsAddService _ _ _ _ _ _ _ => Some "ipvs: no buffer space available"
  | _ => None
  end.

Definition twoServices : list (string * serviceInfo) :=
  [("default/frontend", frontend); ("default/web", webNodePort)].

(** A local service with a local and a remote endpoint: only the local one
    is added, in each of the three passes. *)
Definition webLocal : serviceInfo :=
  mkServiceInfo "web" "default" (Some "10.0.0.1") 80 "tcp" 30080 false 0 false "rr"
    EmptyString ["203.0.113.9"] [] false true 0.

Definition localAndRemote : list endpointsInfo :=
  [mkEndpointsInfo "10.1.0.2" 8080 true; mkEndpointsInfo "10.1.0.3" 8080 false].

Definition localEndpoints : gmap string (list endpointsInfo) :=
  {[ "default/web" := localAndRemote ]}.

Definition externalEntry : Service :=
  mkService (Some "203.0.113.9") IPPROTO_TCP 80 0 "rr" false 0 0.

(** An installed SCTP entry without a mark, on a node where nothing is
    desired and no CIDR is excluded. *)
Definition sctpEntry : Service :=
  mkService (Some "10.0.0.99") 132 80 0 "rr" false 0 0.

Definition sctpNode : World :=
  mkWorld [] [(sctpEntry, [])] [] [] ∅ ∅ ∅ [] [] noFaults.

(** A node that still carries the address and the virtual service of the
    retired service [10.0.0.99:80/tcp] next to those of [10.0.0.1:80/tcp]. *)
Definition retiredEntry : Service :=
  mkService (Some "10.0.0.99") IPPROTO_TCP 80 0 "rr" false 0 0.

Definition staleNode : World :=
  mkWorld ["10.0.0.1"; "10.0.0.99"]
    [(webEntry, [webDestination "10.1.0.2"]); (retiredEntry, [webDestination "10.1.0.7"])]
    [] [] ∅ ∅ {[ "10.0.0.1-tcp-80" := ["10.1.0.2:8080"] ]} [] [] noFaults.

(** The host that refuses the real server [10.1.0.3] and accepts every other
    call. *)
Definition refuseSecondBackend (n : nat) (c : Call) : option string :=
  match c with
  | IpvsAddServer _ d =>
      if bool_decide (DstAddress d = Some "10.1.0.3")
      then Some "ipvs: no buffer space available"
      else None
  | _ => None
  end.

(** Three endpoints of the service [default/frontend], none of them on this
    node. *)
Definition threeBackends : gmap string (list endpointsInfo) :=
  {[ "default/frontend" := [mkEndpointsInfo "10.1.0.2" 8080 false;
                            mkEndpointsInfo "10.1.0.3" 8080 false;
                            mkEndpointsInfo "10.1.0.4" 8080 false] ]}.

(* ===================================================================== *)
(** ** Reasoning about runs *)
(* ===================================================================== *)

Section Preservation.
Context {B : Type} (f : World -> B).

Lemma preserves_ret {A} (a : A) : preserves f (ret a).
Proof. intros w; reflexivity. Qed.

Lemma preserves_gets {A} (g : World -> A) : preserves f (gets g).
Proof. intros w; reflexivity. Qed.

Lemma preserves_bind {A C} (m : M A) (k : A -> M C) :
  preserves f m -> (forall a, preserves f (k a)) -> preserves f (bind m k).
Proof.
  intros Hm Hk w. unfold bind. specialize (Hm w).
  destruct (m w) as [a w1]. cbn in Hm. rewrite Hk. exact Hm.
Qed.

Lemma preserves_modify (g : World -> World) :
  (forall w, f (g w) = f w) -> preserves f (modify g).
Proof. intros H w; apply H. Qed.

Lemma preserves_call (c : Call) :
  (forall v w, f (set_calls v w) = f w) -> preserves f (call c).
Proof. intros H w; apply H. Qed.

Lemma preserves_forEach {A} (body : A -> M unit) (l : list A) :
  (forall x, preserves f (body x)) -> preserves f (forEach body l).
Proof.
  intros H. induction l as [|x t IH]; cbn.
  - apply preserves_ret.
  - apply preserves_bind; [apply H | intros _; exact IH].
Qed.

Lemma preserves_forRange {A} (body : A -> M Flow) (l : list A) :
  (forall x, preserves f (body x)) -> preserves f (forRange body l).
Proof.
  intros H. induction l as [|x t IH]; cbn.
  - apply preserves_ret.
  - apply preserves_bind; [apply H |].
    intros [| |e]; [exact IH | apply preserves_ret | apply preserves_ret].
Qed.

Lemma preserves_forSlots {A C} (g : A -> M C) (l : list A) :
  (forall x, preserves f (g x)) -> preserves f (forSlots g l).
Proof.
  intros H. induction l as [|x t IH]; cbn.
  - apply preserves_ret.
  - apply preserves_bind; [apply H |]. intros y.
    apply preserves_bind; [exact IH |]. intros ys. apply preserves_ret.
Qed.

Lemma preserves_orReturn (e : error) (k : M error) :
  preserves f k -> preserves f (orReturn e k).
Proof. intros H. destruct e; [apply preserves_ret | exact H]. Qed.

End Preservation.

(** An observation of the call record is kept by a call it does not look
    at. *)
Lemma preserves_call_obs {B} (g : list Call -> B) (c : Call) :
  (forall cs, g (c :: cs) = g cs) -> preserves (fun w => g (calls w)) (call c).
Proof. intros H w. cbn. apply H. Qed.

(** Splits a preservation goal along the structure of the computation; what
    is left are the state updates, to be checked against the observation. *)
Ltac preserve_step :=
  lazymatch goal with
  | |- preserves _ (ret _) => apply preserves_ret
  | |- preserves _ (gets _) => apply preserves_gets
  | |- preserves _ (bind _ _) => apply preserves_bind; [| intros ?]
  | |- preserves _ (orReturn _ _) => apply preserves_orReturn
  | |- preserves _ (forEach _ _) => apply preserves_forEach; intros ?
  | |- preserves _ (forRange _ _) => apply preserves_forRange; intros ?
  | |- preserves _ (forSlots _ _) => apply preserves_forSlots; intros ?
  | |- preserves _ (call _) =>
      first [ apply preserves_call_obs; intros ? | apply preserves_call; intros ? ? ]
  | |- preserves _ (modify _) => apply preserves_modify; intros ?
  | |- preserves _ (match ?x with _ => _ end) => destruct x
  end.

Ltac preserve := repeat preserve_step.

Lemma forEach_cons {A} (body : A -> M unit) (x : A) (t : list A) (w : World) :
  forEach body (x :: t) w = forEach body t (snd (body x w)).
Proof. cbn. unfold bind. destruct (body x w). reflexivity. Qed.

(** A run of a sequence is the run of its first operation followed by the
    run of the rest. *)
Lemma bind_run {A B} (m : M A) (k : A -> M B) (w w' : World) (b : B) :
  bind m k w = (b, w') -> k (fst (m w)) (snd (m w)) = (b, w').
Proof. unfold bind. destruct (m w). exact id. Qed.

Lemma orReturn_run (e : error) (k : M error) (w w' : World) :
  orReturn e k w = (None, w') -> e = None /\ k w = (None, w').
Proof. destruct e; cbn; [discriminate | auto]. Qed.

(** What a single call does. *)
Lemma call_run (c : Call) (w : World) :
  call c w = (faults w (length (calls w)) c, set_calls (c :: calls w) w).
Proof. reflexivity. Qed.

Lemma preserves_apply {A B} (f : World -> B) (m : M A) (w : World) :
  preserves f m -> f (snd (m w)) = f w.
Proof. intros H. apply H. Qed.

(* ===================================================================== *)
(** ** The orchestrator *)
(* ===================================================================== *)

Lemma noteError_run msg err b w :
  noteError msg err b w = (b || bool_decide (err <> None), logged msg err w).
Proof.
  unfold logged, noteError. destruct err as [e|]; cbn.
  - rewrite orb_true_r. reflexivity.
  - rewrite orb_false_r. reflexivity.
Qed.

(** The run of the orchestrator, step by step. *)
Lemma syncIpvsServices_steps
  (nsc : NetworkServicesController) (serviceInfoMap : list (string * serviceInfo))
  (endpointsInfoMap : gmap string (list endpointsInfo)) (w : World) :
  exists e1 w1 e2 w2 e3 w3 e4 w4 e5 w5 w6 e7 w7 e8 w8,
    setupClusterIPServices nsc serviceInfoMap endpointsInfoMap (set_active ∅ w) = (e1, w1)
    /\ setupNodePortServices nsc serviceInfoMap endpointsInfoMap
         (logged msgClusterIP e1 w1) = (e2, w2)
    /\ setupExternalIPServices nsc serviceInfoMap endpointsInfoMap
         (logged msgNodePort e2 w2) = (e3, w3)
    /\ cleanupStaleVIPs (logged msgExternalIP e3 w3) = (e4, w4)
    /\ cleanupStaleIPVSConfig nsc (logged msgStaleVIPs e4 w4) = (e5, w5)
    /\ cleanupStaleMetrics (logged msgStaleIPVS e5 w5) = (tt, w6)
    /\ syncIpvsFirewall w6 = (e7, w7)
    /\ setupForDSR serviceInfoMap (logged msgFirewall e7 w7) = (e8, w8)
    /\ syncIpvsServices nsc serviceInfoMap endpointsInfoMap w =
       (None,
        let w9 := logged msgDSR e8 w8 in
        let hadErrors :=
          bool_decide (e1 <> None) || bool_decide (e2 <> None) || bool_decide (e3 <> None)
          || bool_decide (e4 <> None) || bool_decide (e5 <> None)
          || bool_decide (e7 <> None) || bool_decide (e8 <> None) in
        set_klog (klog w9 ++ [summary hadErrors]) w9).
Proof.
  destruct (setupClusterIPServices nsc serviceInfoMap endpointsInfoMap (set_active ∅ w))
    as [e1 w1] eqn:H1.
  destruct (setupNodePortServices nsc serviceInfoMap endpointsInfoMap
              (logged msgClusterIP e1 w1)) as [e2 w2] eqn:H2.
  destruct (setupExternalIPServices nsc serviceInfoMap endpointsInfoMap
              (logged msgNodePort e2 w2)) as [e3 w3] eqn:H3.
  destruct (cleanupStaleVIPs (logged msgExternalIP e3 w3)) as [e4 w4] eqn:H4.
  destruct (cleanupStaleIPVSConfig nsc (logged msgStaleVIPs e4 w4)) as [e5 w5] eqn:H5.
  destruct (cleanupStaleMetrics (logged msgStaleIPVS e5 w5)) as [[] w6] eqn:H6.
  destruct (syncIpvsFirewall w6) as [e7 w7] eqn:H7.
  destruct (setupForDSR serviceInfoMap (logged msgFirewall e7 w7)) as [e8 w8] eqn:H8.
  exists e1, w1, e2, w2, e3, w3, e4, w4, e5, w5, w6, e7, w7, e8, w8.
  repeat (split; [first [assumption | reflexivity] |]).
  unfold syncIpvsServices, bind.
  change (modify (set_active ∅) w) with (tt, set_active ∅ w).
  cbv beta iota.
  rewrite H1, noteError_run, H2, noteError_run, H3, noteError_run, H4, noteError_run,
    H5, noteError_run, H6, H7, noteError_run, H8, noteError_run.
  reflexivity.
Qed.

(** C8. For every input [syncIpvsServices] returns nil, whatever the steps
    returned, and it runs the eight steps in the fixed order cluster IP, node
    port, external IP, stale VIPs, stale IPVS, stale metrics, firewall, DSR
    setup: each step starts from the world the previous one left (with the
    orchestrator's log line when that one failed), so no failure skips a
    later step; the closing log line tells whether any step failed. *)
Theorem syncIpvsServices_returns_nil_after_all_steps
  (nsc : NetworkServicesController) (serviceInfoMap : list (string * serviceInfo))
  (endpointsInfoMap : gmap string (list endpointsInfo)) (w : World) :
  exists e1 w1 e2 w2 e3 w3 e4 w4 e5 w5 w6 e7 w7 e8 w8,
    setupClusterIPServices nsc serviceInfoMap endpointsInfoMap (set_active ∅ w) = (e1, w1)
    /\ setupNodePortServices nsc serviceInfoMap endpointsInfoMap
         (logged msgClusterIP e1 w1) = (e2, w2)
    /\ setupExternalIPServices nsc serviceInfoMap endpointsInfoMap
         (logged msgNodePort e2 w2) = (e3, w3)
    /\ cleanupStaleVIPs (logged msgExternalIP e3 w3) = (e4, w4)
    /\ cleanupStaleIPVSConfig nsc (logged msgStaleVIPs e4 w4) = (e5, w5)
    /\ cleanupStaleMetrics (logged msgStaleIPVS e5 w5) = (tt, w6)
    /\ syncIpvsFirewall w6 = (e7, w7)
    /\ setupForDSR serviceInfoMap (logged msgFirewall e7 w7) = (e8, w8)
    /\ syncIpvsServices nsc serviceInfoMap endpointsInfoMap w =
       (None,
        let w9 := logged msgDSR e8 w8 in
        let hadErrors :=
          bool_decide (e1 <> None) || bool_decide (e2 <> None) || bool_decide (e3 <> None)
          || bool_decide (e4 <> None) || bool_decide (e5 <> None)
          || bool_decide (e7 <> None) || bool_decide (e8 <> None) in
        set_klog (klog w9 ++ [summary hadErrors]) w9).
Proof. apply syncIpvsServices_steps. Qed.

(* ===================================================================== *)
(** ** Frames: what the operations leave alone *)
(* ===================================================================== *)

Create HintDb engine discriminated.

#[global] Hint Unfold
  ln.getKubeDummyInterface ln.ipvsGetServices ln.ipAddrAdd ln.ipAddrDel
  ln.ipvsAddService ln.ipvsAddFWMarkService ln.ipvsAddServer ln.ipvsGetDestinations
  ln.ipvsDelService ln.cleanupMangleTableRule ln.setupPolicyRoutingForDSR
  ln.setupRoutesForExternalIPForDSR setupMangleTableRule routeVIPTrafficToDirector
  addDSRIPInsidePodNetNamespace getAllLocalIPs syncIpvsFirewall netlink_AddrList
  utils_SaveInto ipvsDeleteDestination metrics_DeleteLabelValues
  lookupFWMarkByService lookupServiceByFWMark generateUniqueFWMark
  activeReset activeAppend cleanupDSRRule cleanupDSRService
  clusterIPEndpoint clusterIPService setupClusterIPServices
  nodePortSlot nodePortServer nodePortEndpoints nodePortService setupNodePortServices
  externalIPEndpoint setupExternalIPForService setupExternalIPForDSRService
  externalIPRecord externalIPOfService externalIPService setupExternalIPServices
  setupForDSR staleVIP cleanupStaleVIPs staleDestination staleIPVSService
  cleanupStaleIPVSConfig staleMetric cleanupStaleMetrics : engine.

(** Closes the state updates left by [preserve] when the observation does
    not depend on the updated field. *)
Ltac frame_done :=
  try reflexivity;
  try (match goal with
       | |- context [if ?b then _ else _] => destruct b
       end; reflexivity).

Ltac frame := repeat autounfold with engine; preserve; frame_done.

Lemma cleanupDSRRule_fwMarkMap nsc ip proto port mark rule :
  preserves fwMarkMap (cleanupDSRRule nsc ip proto port mark rule).
Proof. frame. Qed.

Lemma utils_SaveInto_fwMarkMap table : preserves fwMarkMap (utils_SaveInto table).
Proof. frame. Qed.

(* ===================================================================== *)
(** ** The key of the stale-IPVS sweep *)
(* ===================================================================== *)

(** C2, as stated, fails: for an entry with a non-nil address and the
    non-zero mark 5 the sweep computes the key from the address, not from the
    mark.  With the decimal mark in the active map and the address key absent
    from it, the sweep finds the entry stale and deletes it. *)
Lemma staleKey_of_marked_entry_with_address_is_not_the_mark :
  Address markedEntryWithAddress <> None
  /\ FWMark markedEntryWithAddress <> 0
  /\ staleKey markedEntryWithAddress = Some "203.0.113.9-tcp-443"
  /\ staleKey markedEntryWithAddress <> Some (Sprint (FWMark markedEntryWithAddress))
  /\ trace (snd (cleanupStaleIPVSConfig plainController
                   (sweepWorld [(markedEntryWithAddress, [])] {[ "5" := [] ]})))
     = [IpvsGetServices; IpvsDelService markedEntryWithAddress].
Proof. repeat split; try discriminate; vm_compute; (reflexivity || discriminate). Qed.

(** The three ways the sweep treats an entry when it computes its key. *)
Lemma staleKey_address_first_cases (s : Service) :
  (staleKey s = None
   /\ FWMark s = 0
   /\ (Address s = None \/ convertSysCallProtoToSvcProto (Protocol s) = noneProtocol))
  \/ (exists a, Address s = Some a
      /\ staleKey s =
         Some (generateIPPortID a (convertSysCallProtoToSvcProto (Protocol s))
                 (Itoa (Port s))))
  \/ (Address s = None /\ FWMark s <> 0 /\ staleKey s = Some (Sprint (FWMark s))).
Proof.
  unfold staleKey.
  destruct (String.eqb (convertSysCallProtoToSvcProto (Protocol s)) noneProtocol) eqn:Hp;
    destruct (FWMark s =? 0) eqn:Hm; cbn.
  - left. apply String.eqb_eq in Hp. apply Z.eqb_eq in Hm. auto.
  - apply Z.eqb_neq in Hm. destruct (Address s) as [a|] eqn:Ha.
    + right; left. exists a. auto.
    + right; right. auto.
  - apply Z.eqb_eq in Hm. destruct (Address s) as [a|] eqn:Ha.
    + right; left. exists a. auto.
    + left. auto.
  - apply Z.eqb_neq in Hm. destruct (Address s) as [a|] eqn:Ha.
    + right; left. exists a. auto.
    + right; right. auto.
Qed.

(** C2, amended.  An entry without a mark whose protocol is neither TCP nor
    UDP gets no key and is passed over, whether it has an address or not.
    Any other entry that has an address is keyed by ["<ip>-<proto>-<port>"],
    whether it carries a firewall mark or not; an entry without an address
    is keyed by the decimal firewall mark when it carries one and gets no key
    when it carries none. *)
Theorem staleKey_address_first (s : Service) :
  let protocol := convertSysCallProtoToSvcProto (Protocol s) in
  (protocol = noneProtocol <-> Protocol s <> IPPROTO_TCP /\ Protocol s <> IPPROTO_UDP)
  /\ (FWMark s = 0 -> protocol = noneProtocol -> staleKey s = None)
  /\ (forall a,
        Address s = Some a ->
        FWMark s <> 0 \/ protocol <> noneProtocol ->
        staleKey s = Some (generateIPPortID a protocol (Itoa (Port s))))
  /\ (Address s = None -> FWMark s <> 0 -> staleKey s = Some (Sprint (FWMark s)))
  /\ (Address s = None -> FWMark s = 0 -> staleKey s = None).
Proof.
  cbv zeta. split.
  { unfold convertSysCallProtoToSvcProto.
    destruct (Protocol s =? IPPROTO_TCP) eqn:Ht.
    - apply Z.eqb_eq in Ht. split; [discriminate | intros [H _]; contradiction].
    - destruct (Protocol s =? IPPROTO_UDP) eqn:Hu.
      + apply Z.eqb_eq in Hu. split; [discriminate | intros [_ H]; contradiction].
      + apply Z.eqb_neq in Ht, Hu. split; [auto | reflexivity]. }
  assert (FWMark s = 0 ->
          convertSysCallProtoToSvcProto (Protocol s) = noneProtocol ->
          staleKey s = None) as Hnone.
  { intros Hm Hp. unfold staleKey. rewrite Hp, Hm. reflexivity. }
  assert (FWMark s <> 0 \/ convertSysCallProtoToSvcProto (Protocol s) <> noneProtocol ->
          andb (String.eqb (convertSysCallProtoToSvcProto (Protocol s)) noneProtocol)
               (FWMark s =? 0) = false) as Hguard.
  { intros [Hm | Hp].
    - apply Z.eqb_neq in Hm. rewrite Hm. apply andb_false_r.
    - apply String.eqb_neq in Hp. rewrite Hp. reflexivity. }
  split; [exact Hnone |]. split; [| split].
  - intros a Ha Hk. unfold staleKey. rewrite (Hguard Hk), Ha. reflexivity.
  - intros Ha Hm. unfold staleKey. rewrite (Hguard (or_introl Hm)), Ha.
    apply Z.eqb_neq in Hm. rewrite Hm. reflexivity.
  - intros Ha Hm. unfold staleKey. rewrite Ha, Hm. cbn [Z.eqb negb].
    clear Hguard. destruct (String.eqb _ _); reflexivity.
Qed.

(** The three kinds of entry: an SCTP entry without a mark, an entry with
    an address and a mark, and an entry with a mark alone. *)
Lemma staleKey_address_first_witness :
  staleKey sctpEntry = None
  /\ staleKey markedEntryWithAddress = Some "203.0.113.9-tcp-443"
  /\ staleKey (mkService None 0 0 31 "rr" false 0 0) = Some "31".
Proof.
  split; [| split].
  - destruct (staleKey_address_first sctpEntry) as (_ & H & _).
    apply H; reflexivity.
  - destruct (staleKey_address_first markedEntryWithAddress) as (_ & _ & H & _).
    rewrite (H "203.0.113.9" eq_refl) by (left; discriminate).
    vm_compute. reflexivity.
  - destruct (staleKey_address_first (mkService None 0 0 31 "rr" false 0 0))
      as (_ & _ & _ & H & _).
    rewrite (H eq_refl) by discriminate. vm_compute. reflexivity.
Defined.

(* ===================================================================== *)
(** ** The DSR teardown *)
(* ===================================================================== *)

(** Lines that do not match are passed over without touching the host. *)
Lemma cleanupDSR_scan_skips nsc ip proto port mark (pre rest : list string) (w : World) :
  Forall (fun r => mangleRuleMatches ip mark r = false) pre ->
  forRange (cleanupDSRRule nsc ip proto port mark) (pre ++ rest) w =
  forRange (cleanupDSRRule nsc ip proto port mark) rest w.
Proof.
  induction 1 as [|r pre Hr _ IH]; cbn [app forRange]; [reflexivity |].
  unfold bind at 1. unfold cleanupDSRRule at 1. rewrite Hr. cbn. exact IH.
Qed.

(** At a matching line the cleanup routine is called; the scan ends there
    when it succeeds and goes on with the next line when it fails. *)
Lemma cleanupDSR_scan_match nsc ip proto port mark (rule : string) (post : list string)
  (w : World) :
  mangleRuleMatches ip mark rule = true ->
  forRange (cleanupDSRRule nsc ip proto port mark) (rule :: post) w =
  let (err, w1) :=
    ln.cleanupMangleTableRule ip proto (Itoa port) (Itoa mark) (dsrTCPMSS nsc) w in
  match err with
  | None => (None, w1)
  | Some _ => forRange (cleanupDSRRule nsc ip proto port mark) post w1
  end.
Proof.
  intros Hm. cbn [forRange]. unfold bind at 1. unfold cleanupDSRRule at 1. rewrite Hm.
  unfold bind at 1.
  destruct (ln.cleanupMangleTableRule _ _ _ _ _ w) as [[e|] w1]; reflexivity.
Qed.

Lemma lookupServiceByFWMark_run fwMark w :
  lookupServiceByFWMark fwMark w = (fst (lookupServiceByFWMark fwMark w), w).
Proof. reflexivity. Qed.

(** The two ways [cleanupDSRService] runs. *)
Lemma cleanupDSRService_not_found nsc fwMark w ip proto port e :
  fst (lookupServiceByFWMark fwMark w) = (ip, proto, port, Some e) ->
  cleanupDSRService nsc fwMark w =
  (Some ("no service was found for FW mark: " +:+ Sprint fwMark
         +:+ ", service may not be all the way cleaned up: " +:+ e), w).
Proof.
  intros H. unfold cleanupDSRService, bind.
  rewrite lookupServiceByFWMark_run, H. reflexivity.
Qed.

Lemma cleanupDSRService_found nsc fwMark w ip proto port :
  fst (lookupServiceByFWMark fwMark w) = (ip, proto, port, None) ->
  cleanupDSRService nsc fwMark w =
  let (saved, w1) := utils_SaveInto "mangle" w in
  let mangleTableRules :=
    match snd saved with
    | Some _ => []
    | None => Split (fst saved) newline
    end in
  let (_, w2) := forRange (cleanupDSRRule nsc ip proto port fwMark) mangleTableRules w1 in
  (None, set_fwMarkMap (delete fwMark (fwMarkMap w2)) w2).
Proof.
  intros H. unfold cleanupDSRService, bind.
  rewrite lookupServiceByFWMark_run, H.
  destruct (utils_SaveInto "mangle" w) as [saved w1].
  destruct (forRange _ _ w1) as [out w2]. reflexivity.
Qed.

(** C10. Once the registry has a tuple for the mark, [cleanupDSRService]
    returns nil and the binding of the mark is gone from [fwMarkMap], on
    every host: whether the mangle table could be dumped, whether any saved
    line matched and whether the rule cleanup succeeded play no role. *)
Theorem cleanupDSRService_releases_found_mark
  (nsc : NetworkServicesController) (fwMark : Z) (w : World) :
  snd (fst (lookupServiceByFWMark fwMark w)) = None ->
  fst (cleanupDSRService nsc fwMark w) = None
  /\ fwMarkMap (snd (cleanupDSRService nsc fwMark w)) = delete fwMark (fwMarkMap w)
  /\ fwMarkMap (snd (cleanupDSRService nsc fwMark w)) !! fwMark = None.
Proof.
  intros Hfound.
  destruct (fst (lookupServiceByFWMark fwMark w)) as [[[ip proto] port] err] eqn:Hl.
  cbn in Hfound. subst err.
  rewrite (cleanupDSRService_found nsc fwMark w ip proto port Hl).
  pose proof (utils_SaveInto_fwMarkMap "mangle" w) as Hs.
  destruct (utils_SaveInto "mangle" w) as [saved w1]. cbn in Hs.
  cbv beta iota zeta.
  match goal with
  | |- context [forRange ?b ?l w1] =>
      pose proof (preserves_forRange fwMarkMap b l
                    (cleanupDSRRule_fwMarkMap nsc ip proto port fwMark) w1) as Hr;
      destruct (forRange b l w1) as [out w2]
  end.
  cbn in Hr. cbn [fst snd fwMarkMap set_fwMarkMap]. rewrite Hr, Hs.
  repeat split. apply lookup_delete_eq.
Qed.

Lemma cleanupDSRService_releases_found_mark_witness :
  snd (fst (lookupServiceByFWMark 31 (dsrWorld failSaveInto))) = None
  /\ fst (cleanupDSRService plainController 31 (dsrWorld failSaveInto)) = None
  /\ mangleTable (snd (cleanupDSRService plainController 31 (dsrWorld failSaveInto)))
     = mangleTable (dsrWorld failSaveInto)
  /\ fwMarkMap (snd (cleanupDSRService plainController 31 (dsrWorld failSaveInto))) !! 31
     = None.
Proof.
  split; [reflexivity |].
  destruct (cleanupDSRService_releases_found_mark plainController 31
              (dsrWorld failSaveInto)) as (H1 & _ & H3); [reflexivity |].
  split; [exact H1 |]. split; [reflexivity | exact H3].
Defined.

(** C7, as stated, fails: both saved lines mention the address and the mark
    [1f]; the cleanup triggered at the first of them fails, so the scan does
    not stop there and triggers the cleanup again at the second line. *)
Lemma cleanupDSRService_rescans_after_failed_cleanup :
  Forall (fun r => mangleRuleMatches "203.0.113.9" 31 r = true)
         (mangleTable (dsrWorld failFirstCleanup))
  /\ trace (snd (cleanupDSRService plainController 31 (dsrWorld failFirstCleanup)))
     = [SaveInto "mangle";
        CleanupMangleTableRule "203.0.113.9" "tcp" "443" "31" 0;
        CleanupMangleTableRule "203.0.113.9" "tcp" "443" "31" 0].
Proof. split; [repeat constructor | reflexivity]. Qed.

(** C7, amended.  Without a tuple for the mark [cleanupDSRService] returns an
    error and leaves the world as it was: no mangle rule and no registry
    binding is removed.  With a tuple it scans the saved mangle table: the
    lines before the first one that mentions both the address and the
    hexadecimal mark cause no call, the cleanup is triggered at that line,
    and the scan stops there if the cleanup succeeds; if it fails the scan
    goes on with the following lines, retrying at the next match.  The
    binding is released at the end. *)
Theorem cleanupDSRService_scan
  (nsc : NetworkServicesController) (fwMark : Z) (w : World) :
  (snd (fst (lookupServiceByFWMark fwMark w)) <> None ->
   exists e, cleanupDSRService nsc fwMark w = (Some e, w))
  /\ (forall ip proto port dump w1 pre rule post,
        fst (lookupServiceByFWMark fwMark w) = (ip, proto, port, None) ->
        utils_SaveInto "mangle" w = ((dump, None), w1) ->
        Split dump newline = pre ++ rule :: post ->
        Forall (fun r => mangleRuleMatches ip fwMark r = false) pre ->
        mangleRuleMatches ip fwMark rule = true ->
        cleanupDSRService nsc fwMark w =
        let (err, w2) :=
          ln.cleanupMangleTableRule ip proto (Itoa port) (Itoa fwMark) (dsrTCPMSS nsc) w1 in
        let w3 :=
          match err with
          | None => w2
          | Some _ => snd (forRange (cleanupDSRRule nsc ip proto port fwMark) post w2)
          end in
        (None, set_fwMarkMap (delete fwMark (fwMarkMap w3)) w3)).
Proof.
  split.
  - intros Hnone.
    destruct (fst (lookupServiceByFWMark fwMark w)) as [[[ip proto] port] [e|]] eqn:Hl;
      [| cbn in Hnone; congruence].
    eexists. apply (cleanupDSRService_not_found nsc fwMark w ip proto port e Hl).
  - intros ip proto port dump w1 pre rule post Hl Hs Hsplit Hpre Hrule.
    rewrite (cleanupDSRService_found nsc fwMark w ip proto port Hl), Hs.
    cbn [fst snd]. rewrite Hsplit.
    rewrite (cleanupDSR_scan_skips nsc ip proto port fwMark pre (rule :: post) w1 Hpre).
    rewrite (cleanupDSR_scan_match nsc ip proto port fwMark rule post w1 Hrule).
    destruct (ln.cleanupMangleTableRule _ _ _ _ _ w1) as [[e|] w2].
    + destruct (forRange _ post w2) as [out w3]. reflexivity.
    + reflexivity.
Qed.

Lemma cleanupDSRService_scan_witness :
  (exists e, cleanupDSRService plainController 32 dsrWorldWithForeignRule
             = (Some e, dsrWorldWithForeignRule))
  /\ trace (snd (cleanupDSRService plainController 31 dsrWorldWithForeignRule))
     = [SaveInto "mangle"; CleanupMangleTableRule "203.0.113.9" "tcp" "443" "31" 0].
Proof.
  destruct (cleanupDSRService_scan plainController 32 dsrWorldWithForeignRule) as [Ha _].
  destruct (cleanupDSRService_scan plainController 31 dsrWorldWithForeignRule) as [_ Hb].
  split.
  - apply Ha. vm_compute. discriminate.
  - rewrite (Hb "203.0.113.9" "tcp" 443
               (String.concat newline (mangleTable dsrWorldWithForeignRule))
               (snd (utils_SaveInto "mangle" dsrWorldWithForeignRule))
               [hd EmptyString (mangleTable dsrWorldWithForeignRule)]
               (hd EmptyString (tl (mangleTable dsrWorldWithForeignRule)))
               (tl (tl (mangleTable dsrWorldWithForeignRule)))).
    + reflexivity.
    + reflexivity.
    + reflexivity.
    + reflexivity.
    + repeat constructor.
    + reflexivity.
Defined.

(* ===================================================================== *)
(** ** The stale-IPVS sweep on entries that are still active *)
(* ===================================================================== *)



Lemma services_onService s f t : map fst (onService s f t) = map fst t.
Proof.
  unfold onService. induction t as [|e t IH]; cbn; [reflexivity |].
  rewrite IH. destruct (sameService s (fst e)); reflexivity.
Qed.

Lemma staleDestination_services s endpointIDs dst :
  preserves services (staleDestination s endpointIDs dst).
Proof.
  repeat autounfold with engine; preserve; try reflexivity.
  unfold services. cbn. apply services_onService.
Qed.








(* ===================================================================== *)
(** ** The node-port pass when a slot has no virtual service *)
(* ===================================================================== *)

(** C9. There is an input of the node-port pass, bound on all local
    addresses, on which the virtual service of one of two addresses cannot be
    created and the loop over the endpoints still visits the slot of that
    address: [ipvsAddServer] is called with the nil handle the slot holds,
    and as the host reports success the endpoint is recorded in the active
    map under the empty string the id slot holds, a key without a dash, which
    the stale-VIP sweep therefore does not read as an address key. *)
Theorem setupNodePortServices_visits_slot_without_service :
  exists nsc serviceInfoMap endpointsInfoMap w,
    nodeportBindOnAllIP nsc = true
    /\ length (localAddrs w) = 2%nat
    /\ fst (setupNodePortServices nsc serviceInfoMap endpointsInfoMap w) = None
    /\ (let w' := snd (setupNodePortServices nsc serviceInfoMap endpointsInfoMap w) in
        trace w' =
          [IpvsGetServices; GetAllLocalIPs;
           IpvsAddService (Some "192.168.1.10") IPPROTO_TCP 30080 false 0 "rr" 0;
           IpvsAddService (Some "10.0.0.5") IPPROTO_TCP 30080 false 0 "rr" 0;
           IpvsAddServer
             (Some (mkService (Some "192.168.1.10") IPPROTO_TCP 30080 0 "rr" false 0 0))
             (webDestination "10.1.0.2");
           IpvsAddServer None (webDestination "10.1.0.2")]
        /\ faults w 3 (IpvsAddService (Some "10.0.0.5") IPPROTO_TCP 30080 false 0 "rr" 0)
           <> None
        /\ activeServiceEndpointMap w' !! EmptyString = Some ["10.1.0.2:8080"]
        /\ activeServiceEndpointMap w' !! "10.0.0.5-tcp-30080" = None
        /\ Contains EmptyString "-" = false
        /\ addrActiveOf (activeServiceEndpointMap w') = {[ "192.168.1.10" ]}).
Proof.
  exists bindAllController, [("default/web", webNodePort)],
    {[ "default/web" := [webBackend] ]}, twoAddressNode.
  repeat split; try reflexivity. discriminate.
Qed.

(* ===================================================================== *)
(** ** An address that is already on the dummy interface *)
(* ===================================================================== *)

(** C6, the code at the failing input.  The cluster IP [10.0.0.1] is on the
    dummy interface and its virtual service is installed; adding the address
    again reports [IfaceHasAddr].  The cluster-IP pass leaves the service at
    that point: no virtual service is ensured and no key is recorded.  The
    external-IP path, given the same outcome for the same address, goes on to
    ensure the virtual service.  In a whole sync the skipped service is then
    absent from the active map, and the sweeps remove its address and its
    virtual service from the node. *)
Theorem setupClusterIPServices_skips_on_already_present :
  let w := webInstalled ∅ alreadyPresent in
  let w1 := snd (setupClusterIPServices plainController [("default/web", web)]
                   webEndpoints w) in
  let w2 := snd (setupExternalIPForService plainController web "10.0.0.1"
                   (endpointsOf webEndpoints "default/web") w) in
  let w3 := snd (syncIpvsServices plainController [("default/web", web)] webEndpoints w) in
  trace w1 = [IpvsGetServices; GetKubeDummyInterface; IpAddrAdd "10.0.0.1" true]
  /\ activeServiceEndpointMap w1 = ∅
  /\ In (IpvsAddService (Some "10.0.0.1") IPPROTO_TCP 80 false 0 "rr" 0) (trace w2)
  /\ dummyAddrs w = ["10.0.0.1"] /\ services w = [webEntry]
  /\ dummyAddrs w3 = [] /\ services w3 = [].
Proof.
  cbv zeta. split; [reflexivity |]. split; [reflexivity |].
  split; [vm_compute; tauto |]. repeat split; reflexivity.
Qed.

(* ===================================================================== *)
(** ** Failures inside a reconcile pass *)
(* ===================================================================== *)

Lemma always_ret {A} (P : A -> Prop) (a : A) : P a -> always P (ret a).
Proof. intros H w. exact H. Qed.

Lemma always_bind {A B} (P : B -> Prop) (m : M A) (k : A -> M B) :
  (forall a, always P (k a)) -> always P (bind m k).
Proof. intros H w. unfold bind. destruct (m w) as [a w1]. apply H. Qed.

Ltac always_step :=
  lazymatch goal with
  | |- always _ (ret _) => apply always_ret; try reflexivity
  | |- always _ (bind _ _) => apply always_bind; intros ?
  | |- always _ (match ?x with _ => _ end) => destruct x
  end.

Lemma forRange_visits_all {A} (I : World -> Prop) (body : A -> M Flow) (l : list A) :
  (forall x w, I w -> fst (body x w) = Next /\ I (snd (body x w))) ->
  forall w, I w -> forRange body l w = (None, visitAll body l w).
Proof.
  intros H. induction l as [|x t IH]; intros w Hw; [reflexivity |].
  cbn [forRange visitAll fold_left]. unfold bind.
  destruct (H x w Hw) as [Hn Hi]. destruct (body x w) as [f w1]. cbn in Hn, Hi. subst f.
  apply IH. exact Hi.
Qed.

Lemma forRange_cons {A} (body : A -> M Flow) (x : A) (t : list A) (w : World) :
  forRange body (x :: t) w =
  match body x w with
  | (Next, w1) => forRange body t w1
  | (Break, w1) => (None, w1)
  | (Return e, w1) => (Some e, w1)
  end.
Proof. cbn. unfold bind. destruct (body x w) as [[| |e] w1]; reflexivity. Qed.

(** *** The node-port pass: nothing inside a visit ends the pass *)

Lemma nodePortService_Next nsc ipvsSvcs endpointsInfoMap entry :
  always (fun f => f = Next) (nodePortService nsc ipvsSvcs endpointsInfoMap entry).
Proof. unfold nodePortService. destruct entry as [k svc]. repeat always_step. Qed.

(** *** The cluster-IP pass: only the dummy interface ends the pass *)

Lemma clusterIPService_flow ipvsSvcs endpointsInfoMap entry w :
  fst (clusterIPService ipvsSvcs endpointsInfoMap entry w) =
  match faults w (length (calls w)) GetKubeDummyInterface with
  | Some e => Return (Some ("Failed creating dummy interface: " +:+ e))
  | None => Next
  end.
Proof.
  unfold clusterIPService. destruct entry as [k svc].
  unfold bind at 1. unfold ln.getKubeDummyInterface. rewrite call_run.
  destruct (faults w (length (calls w)) GetKubeDummyInterface) as [e|]; [reflexivity |].
  match goal with
  | |- fst (?m ?w1) = Next =>
      generalize w1; change (always (fun f => f = Next) m)
  end.
  repeat always_step.
Qed.

Lemma clusterIPService_faults ipvsSvcs endpointsInfoMap entry :
  preserves faults (clusterIPService ipvsSvcs endpointsInfoMap entry).
Proof. destruct entry as [k svc]. frame. Qed.

(** *** The external-IP pass: a failed setup ends the pass *)

Lemma always_bind_with {A B} (Q : A -> Prop) (P : B -> Prop) (m : M A) (k : A -> M B) :
  always Q m -> (forall a, Q a -> always P (k a)) -> always P (bind m k).
Proof.
  intros Hm Hk w. unfold bind. specialize (Hm w).
  destruct (m w) as [a w1]. apply Hk. exact Hm.
Qed.

Lemma forRange_nextOrError {A} (body : A -> M Flow) (l : list A) :
  (forall x, always nextOrError (body x)) ->
  always (fun out => out = None \/ exists msg, out = Some (Some msg)) (forRange body l).
Proof.
  intros H. induction l as [|x t IH]; intros w; [left; reflexivity |].
  rewrite forRange_cons. specialize (H x w).
  destruct (body x w) as [f w1]. cbn in H.
  destruct H as [-> | [msg ->]]; [apply IH |]. right. exists msg. reflexivity.
Qed.

Lemma externalIPOfService_flow nsc svc endpoints ip :
  always nextOrError (externalIPOfService nsc svc endpoints ip).
Proof.
  unfold externalIPOfService.
  apply always_bind_with
    with (Q := fun r => match r with
                        | inl e => exists msg, e = Some msg
                        | inr _ => True
                        end).
  - destruct (_ && _).
    + apply always_bind. intros [e|].
      * apply always_ret. eexists. reflexivity.
      * apply always_bind. intros m. apply always_ret. exact I.
    + apply always_bind. intros [e|]; apply always_ret; [eexists; reflexivity | exact I].
  - intros [e|id] Hr.
    + apply always_ret. destruct Hr as [msg ->]. right. exists msg. reflexivity.
    + repeat always_step. left. reflexivity.
Qed.

Lemma externalIPService_flow nsc endpointsInfoMap entry :
  always nextOrError (externalIPService nsc endpointsInfoMap entry).
Proof.
  unfold externalIPService. destruct entry as [k svc].
  destruct (_ =? _)%nat; [apply always_ret; left; reflexivity |].
  destruct (_ && _); [apply always_ret; left; reflexivity |].
  eapply always_bind_with.
  - apply forRange_nextOrError. intros ip. apply externalIPOfService_flow.
  - intros out [-> | [msg ->]]; apply always_ret.
    + left. reflexivity.
    + right. exists msg. reflexivity.
Qed.

(** C1, as stated, fails: in the external-IP pass the failure on the first
    service ends the step.  The second service, which the same host sets up
    without error when it is iterated, is never attempted: no call mentions
    its address and its key is not recorded.  The cluster-IP pass, too, can
    end before the second service: it returns when the dummy interface
    cannot be obtained for the first. *)
Lemma setupExternalIPServices_stops_at_first_failure :
  let both := [("default/frontend", frontend); ("default/backend", backend)] in
  let r := setupExternalIPServices plainController both ∅ (emptyNode failFrontendVIP) in
  let alone := setupExternalIPServices plainController [("default/backend", backend)] ∅
                 (emptyNode failFrontendVIP) in
  let c := setupClusterIPServices plainController both ∅ (emptyNode failFirstDummyLookup) in
  (fst r <> None
   /\ trace (snd r) =
      [GetKubeDummyInterface; IpvsGetServices; IpAddrAdd "203.0.113.9" true;
       IpvsAddService (Some "203.0.113.9") IPPROTO_TCP 80 false 0 "rr" 0]
   /\ activeServiceEndpointMap (snd r) !! "203.0.113.10-tcp-80" = None
   /\ fst alone = None
   /\ activeServiceEndpointMap (snd alone) !! "203.0.113.10-tcp-80" = Some [])
  /\ (fst c <> None
      /\ trace (snd c) = [IpvsGetServices; GetKubeDummyInterface]
      /\ activeServiceEndpointMap (snd c) !! "10.0.0.2-tcp-80" = None).
Proof.
  cbv zeta. split.
  - repeat split; try reflexivity. vm_compute. discriminate.
  - repeat split; try reflexivity. vm_compute. discriminate.
Qed.

Lemma ipvsGetServices_ok w :
  faults w (length (calls w)) IpvsGetServices = None ->
  ln.ipvsGetServices w = ((services w, None), set_calls (IpvsGetServices :: calls w) w).
Proof. intros H. unfold ln.ipvsGetServices, bind. rewrite call_run, H. reflexivity. Qed.

(** In the external-IP pass the visit of a service either falls through to
    the next service or ends the pass with the error of the setup that
    failed. *)
Lemma setupExternalIPServices_cons
  (nsc : NetworkServicesController) (entry : string * serviceInfo)
  (rest : list (string * serviceInfo))
  (endpointsInfoMap : gmap string (list endpointsInfo)) (w : World) :
  match externalIPService nsc endpointsInfoMap entry w with
  | (Next, w1) =>
      setupExternalIPServices nsc (entry :: rest) endpointsInfoMap w =
      setupExternalIPServices nsc rest endpointsInfoMap w1
  | (Return e, w1) =>
      e <> None
      /\ setupExternalIPServices nsc (entry :: rest) endpointsInfoMap w = (e, w1)
  | (Break, _) => False
  end.
Proof.
  unfold setupExternalIPServices, bind.
  rewrite forRange_cons.
  pose proof (externalIPService_flow nsc endpointsInfoMap entry w) as Hf.
  destruct (externalIPService nsc endpointsInfoMap entry w) as [[| |e] w1]; cbn in Hf.
  - reflexivity.
  - destruct Hf as [Hf | [msg Hf]]; discriminate.
  - destruct Hf as [Hf | [msg Hf]]; [discriminate |]. inversion Hf; subst.
    split; [discriminate | reflexivity].
Qed.

(** C1, amended.  In the node-port pass no failure inside the visit of a
    service ends the pass, and in the cluster-IP pass none does as long as
    the dummy interface can be obtained: a failure to add the address, to
    create a virtual service, to list the local addresses or to add a real
    server skips at most that service or endpoint, and every service of the
    map is visited, each from the world the previous visit left. *)
Theorem reconcile_passes_failure_isolation
  (nsc : NetworkServicesController) (serviceInfoMap : list (string * serviceInfo))
  (endpointsInfoMap : gmap string (list endpointsInfo)) (w : World) :
  (faults w (length (calls w)) IpvsGetServices = None ->
   setupNodePortServices nsc serviceInfoMap endpointsInfoMap w =
   (None, visitAll (nodePortService nsc (services w) endpointsInfoMap) serviceInfoMap
            (set_calls (IpvsGetServices :: calls w) w)))
  /\ (faults w (length (calls w)) IpvsGetServices = None ->
      (forall n, faults w n GetKubeDummyInterface = None) ->
      setupClusterIPServices nsc serviceInfoMap endpointsInfoMap w =
      (None, visitAll (clusterIPService (services w) endpointsInfoMap) serviceInfoMap
               (set_calls (IpvsGetServices :: calls w) w))).
Proof.
  split.
  - intros Hl. unfold setupNodePortServices. unfold bind at 1.
    rewrite (ipvsGetServices_ok w Hl). cbn [fst snd]. unfold bind.
    rewrite (forRange_visits_all (fun _ => True)
               (nodePortService nsc (services w) endpointsInfoMap) serviceInfoMap);
      [reflexivity | | exact I].
    intros x w0 _. split; [apply nodePortService_Next | exact I].
  - intros Hl Hd. unfold setupClusterIPServices. unfold bind at 1.
    rewrite (ipvsGetServices_ok w Hl). cbn [fst snd]. unfold bind.
    rewrite (forRange_visits_all (fun w0 => faults w0 = faults w)
               (clusterIPService (services w) endpointsInfoMap) serviceInfoMap);
      [reflexivity | | reflexivity].
    intros x w0 Hw0. split.
    + rewrite clusterIPService_flow, Hw0, Hd. reflexivity.
    + rewrite clusterIPService_faults. exact Hw0.
Qed.

(** On the host where no virtual service can be created both passes still
    visit both services and return nil. *)
Lemma reconcile_passes_failure_isolation_witness :
  let w := emptyNode failAddService in
  (fst (setupNodePortServices plainController twoServices webEndpoints w) = None
   /\ trace (snd (setupNodePortServices plainController twoServices webEndpoints w))
      = [IpvsGetServices;
         IpvsAddService (Some "192.168.1.10") IPPROTO_TCP 30080 false 0 "rr" 0])
  /\ (fst (setupClusterIPServices plainController twoServices webEndpoints w) = None
      /\ trace (snd (setupClusterIPServices plainController twoServices webEndpoints w))
         = [IpvsGetServices;
            GetKubeDummyInterface; IpAddrAdd "10.0.0.1" true;
            IpvsAddService (Some "10.0.0.1") IPPROTO_TCP 80 false 0 "rr" 0;
            GetKubeDummyInterface; IpAddrAdd "10.0.0.1" true;
            IpvsAddService (Some "10.0.0.1") IPPROTO_TCP 80 false 0 "rr" 0]).
Proof.
  intros w.
  destruct (reconcile_passes_failure_isolation plainController twoServices webEndpoints w)
    as (Hn & Hc).
  split.
  - rewrite Hn by reflexivity. split; reflexivity.
  - rewrite Hc by reflexivity. split; reflexivity.
Defined.

(* ===================================================================== *)
(** ** The real servers of a virtual service and the local policy *)
(* ===================================================================== *)

Lemma ipvsAddServer_calls h d w :
  calls (snd (ln.ipvsAddServer h d w)) = IpvsAddServer h d :: calls w.
Proof.
  unfold ln.ipvsAddServer, bind. rewrite call_run.
  destruct (faults w (length (calls w)) (IpvsAddServer h d)); [reflexivity |].
  destruct h; reflexivity.
Qed.

Lemma filter_policy_cons (p : endpointsInfo -> bool) (x : endpointsInfo)
  (l : list endpointsInfo) :
  filter p (x :: l) = if p x then x :: filter p l else filter p l.
Proof.
  rewrite filter_cons. destruct (p x); reflexivity.
Qed.

(** *** The cluster-IP loop *)

Lemma clusterIPEndpoint_calls svc endpoints h id endpoint w :
  calls (snd (clusterIPEndpoint svc endpoints h id endpoint w)) =
  if localPolicy svc endpoints endpoint
  then IpvsAddServer h (destinationFor endpoint ConnectionFlagMasq) :: calls w
  else calls w.
Proof.
  unfold clusterIPEndpoint, localPolicy.
  destruct (svc_local svc), (hasActiveEndpoints endpoints), (ep_isLocal endpoint); cbn;
    try reflexivity;
    unfold bind;
    match goal with
    | |- context [ln.ipvsAddServer ?h ?d ?w] =>
        pose proof (ipvsAddServer_calls h d w) as Hc;
        destruct (ln.ipvsAddServer h d w) as [[e|] w1]; exact Hc
    end.
Qed.

Lemma clusterIP_loop_servers svc endpoints h id (l : list endpointsInfo) (w : World) :
  addedServers (snd (forEach (clusterIPEndpoint svc endpoints h id) l w)) =
  rev (map (fun endpoint => (h, destinationFor endpoint ConnectionFlagMasq))
         (filter (localPolicy svc endpoints) l))
  ++ addedServers w.
Proof.
  revert w. induction l as [|x l IH]; intros w; [reflexivity |].
  rewrite forEach_cons, IH, filter_policy_cons. unfold addedServers at 1.
  rewrite clusterIPEndpoint_calls.
  destruct (localPolicy svc endpoints x); [| reflexivity].
  cbn [map rev omap addedServerOf]. rewrite <- app_assoc. reflexivity.
Qed.

(** *** The node-port loop *)

Lemma nodePortServer_calls svc endpoint slot w :
  calls (snd (nodePortServer svc endpoint slot w)) =
  if negb (svc_local svc) || (svc_local svc && ep_isLocal endpoint)
  then IpvsAddServer (fst slot) (destinationFor endpoint ConnectionFlagMasq) :: calls w
  else calls w.
Proof.
  unfold nodePortServer.
  destruct (negb (svc_local svc) || (svc_local svc && ep_isLocal endpoint));
    [| reflexivity].
  unfold bind.
  pose proof (ipvsAddServer_calls (fst slot)
                (destinationFor endpoint ConnectionFlagMasq) w) as Hc.
  destruct (ln.ipvsAddServer _ _ w) as [[e|] w1]; exact Hc.
Qed.

Lemma nodePort_slots_servers svc endpoint (slots : list (option Service * string)) w :
  addedServers (snd (forEach (nodePortServer svc endpoint) slots w)) =
  (if negb (svc_local svc) || (svc_local svc && ep_isLocal endpoint)
   then rev (map (fun slot => (fst slot, destinationFor endpoint ConnectionFlagMasq)) slots)
   else [])
  ++ addedServers w.
Proof.
  revert w. induction slots as [|x slots IH]; intros w.
  - destruct (_ || _); reflexivity.
  - rewrite forEach_cons, IH. unfold addedServers at 1.
    rewrite nodePortServer_calls.
    destruct (negb (svc_local svc) || (svc_local svc && ep_isLocal endpoint));
      [| reflexivity].
    cbn [map rev omap addedServerOf]. rewrite <- app_assoc. reflexivity.
Qed.

Lemma guarded_policy svc endpoints endpoint :
  (svc_local svc = true -> hasActiveEndpoints endpoints = true) ->
  negb (svc_local svc) || (svc_local svc && ep_isLocal endpoint)
  = localPolicy svc endpoints endpoint
  /\ negb (svc_local svc && negb (ep_isLocal endpoint))
     = localPolicy svc endpoints endpoint.
Proof.
  unfold localPolicy. intros Hg.
  destruct (svc_local svc); [rewrite Hg by reflexivity |];
    destruct (ep_isLocal endpoint); split; reflexivity.
Qed.

Lemma nodePort_loop_servers svc endpoints (slots : list (option Service * string))
  (l : list endpointsInfo) (w : World) :
  (svc_local svc = true -> hasActiveEndpoints endpoints = true) ->
  addedServers (snd (nodePortEndpoints svc l slots w)) =
  rev (flat_map
         (fun endpoint =>
            map (fun slot => (fst slot, destinationFor endpoint ConnectionFlagMasq)) slots)
         (filter (localPolicy svc endpoints) l))
  ++ addedServers w.
Proof.
  intros Hg. unfold nodePortEndpoints. revert w.
  induction l as [|x l IH]; intros w; [reflexivity |].
  rewrite forEach_cons, IH, filter_policy_cons, nodePort_slots_servers.
  destruct (guarded_policy svc endpoints x Hg) as [-> _].
  destruct (localPolicy svc endpoints x); [| reflexivity].
  cbn [flat_map]. rewrite rev_app_distr, <- app_assoc. reflexivity.
Qed.

(** *** The visits of the cluster-IP and node-port passes *)

Lemma getKubeDummyInterface_run w :
  ln.getKubeDummyInterface w =
  (faults w (length (calls w)) GetKubeDummyInterface,
   set_calls (GetKubeDummyInterface :: calls w) w).
Proof. reflexivity. Qed.

Lemma ipAddrAdd_run ip addRoute w :
  fst (ln.ipAddrAdd ip addRoute w) = faults w (length (calls w)) (IpAddrAdd ip addRoute)
  /\ calls (snd (ln.ipAddrAdd ip addRoute w)) = IpAddrAdd ip addRoute :: calls w
  /\ faults (snd (ln.ipAddrAdd ip addRoute w)) = faults w.
Proof.
  unfold ln.ipAddrAdd, bind. rewrite call_run.
  destruct (faults w (length (calls w)) (IpAddrAdd ip addRoute)); cbn;
    [auto |]. destruct (existsb _ _); auto.
Qed.

Lemma ipvsAddService_run svcs vip protocol port persistent timeout scheduler flags w :
  fst (ln.ipvsAddService svcs vip protocol port persistent timeout scheduler flags w) =
  match faults w (length (calls w))
          (IpvsAddService vip protocol port persistent timeout scheduler flags) with
  | Some e => (None, Some e)
  | None => (Some (mkService vip protocol port 0 scheduler persistent timeout flags), None)
  end
  /\ calls (snd (ln.ipvsAddService svcs vip protocol port persistent timeout scheduler
                   flags w))
     = IpvsAddService vip protocol port persistent timeout scheduler flags :: calls w.
Proof.
  unfold ln.ipvsAddService, bind. rewrite call_run.
  destruct (faults w (length (calls w)) _); cbn; auto.
Qed.

Lemma clusterIPService_servers ipvsSvcs endpointsInfoMap k svc w :
  addedServers (snd (clusterIPService ipvsSvcs endpointsInfoMap (k, svc) w)) =
  (if clusterIPInstalled svc w
   then rev (map (fun endpoint =>
                    (Some (mkService (svc_clusterIP svc)
                             (convertSvcProtoToSysCallProto (svc_protocol svc))
                             (uint16 (svc_port svc)) 0 (svc_scheduler svc)
                             (svc_sessionAffinity svc)
                             (svc_sessionAffinityTimeoutSeconds svc) (svc_flags svc)),
                     destinationFor endpoint ConnectionFlagMasq))
               (filter (localPolicy svc (endpointsOf endpointsInfoMap k))
                       (endpointsOf endpointsInfoMap k)))
   else [])
  ++ addedServers w.
Proof.
  destruct (clusterIPService ipvsSvcs endpointsInfoMap (k, svc) w) as [f w'] eqn:Hrun.
  cbn [snd]. unfold clusterIPService in Hrun. unfold clusterIPInstalled.
  apply bind_run in Hrun. rewrite getKubeDummyInterface_run in Hrun.
  cbn [fst snd] in Hrun.
  destruct (faults w (length (calls w)) GetKubeDummyInterface) as [e1|];
    [inversion Hrun; reflexivity |].
  rewrite bool_decide_eq_true_2 by reflexivity.
  apply bind_run in Hrun.
  match type of Hrun with
  | context [ln.ipAddrAdd ?ip ?b ?w0] =>
      destruct (ipAddrAdd_run ip b w0) as (Hr1 & Hc1 & Hf1);
      destruct (ln.ipAddrAdd ip b w0) as [a1 w1]
  end.
  cbn [fst snd calls set_calls faults length] in Hr1, Hc1, Hf1, Hrun. subst a1.
  destruct (faults w (S (length (calls w))) (IpAddrAdd _ true)) as [e2|].
  { inversion Hrun; subst. unfold addedServers. rewrite Hc1. reflexivity. }
  rewrite bool_decide_eq_true_2 by reflexivity.
  apply bind_run in Hrun.
  match type of Hrun with
  | context [ln.ipvsAddService ?a ?b ?c ?d ?e ?f ?g ?h w1] =>
      destruct (ipvsAddService_run a b c d e f g h w1) as (Hr2 & Hc2);
      destruct (ln.ipvsAddService a b c d e f g h w1) as [a2 w2]
  end.
  cbn [fst snd] in Hr2, Hc2, Hrun. rewrite Hf1, Hc1 in Hr2. cbn [length] in Hr2.
  subst a2.
  destruct (faults w (S (S (length (calls w)))) (IpvsAddService _ _ _ _ _ _ _)) as [e3|].
  { inversion Hrun; subst. unfold addedServers. rewrite Hc2, Hc1. reflexivity. }
  rewrite bool_decide_eq_true_2 by reflexivity. cbn [andb fst snd] in Hrun |- *.
  apply bind_run in Hrun. apply bind_run in Hrun. inversion Hrun as [[Hn Hw']].
  rewrite clusterIP_loop_servers. f_equal.
  unfold addedServers. cbn [activeReset modify snd calls set_active].
  rewrite Hc2, Hc1. reflexivity.
Qed.

Lemma single_slot_servers (h : option Service) (id : string) (l : list endpointsInfo) :
  flat_map
    (fun endpoint =>
       map (fun slot : option Service * string =>
              (fst slot, destinationFor endpoint ConnectionFlagMasq)) [(h, id)]) l
  = map (fun endpoint => (h, destinationFor endpoint ConnectionFlagMasq)) l.
Proof.
  induction l as [|a l IH]; [reflexivity |].
  cbn [flat_map map app fst] in IH |- *. rewrite IH. reflexivity.
Qed.

Lemma guard_passed svc endpoints :
  svc_local svc && negb (hasActiveEndpoints endpoints) = false ->
  svc_local svc = true -> hasActiveEndpoints endpoints = true.
Proof. intros H Hl. rewrite Hl in H. cbn in H. apply negb_false_iff in H. exact H. Qed.

(** The visit of a service in the node-port pass bound to the node IP. *)
Lemma nodePortService_servers nsc ipvsSvcs endpointsInfoMap k svc w :
  nodeportBindOnAllIP nsc = false ->
  addedServers (snd (nodePortService nsc ipvsSvcs endpointsInfoMap (k, svc) w)) =
  (if nodePortInstalled nsc svc (endpointsOf endpointsInfoMap k) w
   then rev (map (fun endpoint =>
                    (Some (mkService (nodeIP nsc)
                             (convertSvcProtoToSysCallProto (svc_protocol svc))
                             (uint16 (svc_nodePort svc)) 0 (svc_scheduler svc)
                             (svc_sessionAffinity svc)
                             (svc_sessionAffinityTimeoutSeconds svc) (svc_flags svc)),
                     destinationFor endpoint ConnectionFlagMasq))
               (filter (localPolicy svc (endpointsOf endpointsInfoMap k))
                       (endpointsOf endpointsInfoMap k)))
   else [])
  ++ addedServers w.
Proof.
  intros Hmode.
  destruct (nodePortService nsc ipvsSvcs endpointsInfoMap (k, svc) w) as [f w'] eqn:Hrun.
  cbn [snd]. unfold nodePortService in Hrun. unfold nodePortInstalled.
  destruct (svc_nodePort svc =? 0); [inversion Hrun; reflexivity |].
  destruct (svc_local svc && negb (hasActiveEndpoints (endpointsOf endpointsInfoMap k)))
    eqn:Hg; [inversion Hrun; reflexivity |].
  rewrite Hmode in Hrun. cbn [negb andb].
  apply bind_run in Hrun.
  match type of Hrun with
  | context [ln.ipvsAddService ?a ?b ?c ?d ?e ?f ?g ?h w] =>
      destruct (ipvsAddService_run a b c d e f g h w) as (Hr & Hc);
      destruct (ln.ipvsAddService a b c d e f g h w) as [a1 w1]
  end.
  cbn [fst snd] in Hr, Hc, Hrun. subst a1.
  destruct (faults w (length (calls w)) (IpvsAddService _ _ _ _ _ _ _)) as [e|].
  { inversion Hrun; subst. unfold addedServers. rewrite Hc. reflexivity. }
  rewrite bool_decide_eq_true_2 by reflexivity. cbn [fst snd] in Hrun.
  apply bind_run in Hrun. apply bind_run in Hrun. inversion Hrun as [[Hn Hw']].
  rewrite (nodePort_loop_servers svc (endpointsOf endpointsInfoMap k))
    by (apply guard_passed; exact Hg).
  rewrite single_slot_servers. f_equal.
  unfold addedServers. cbn [activeReset modify snd calls set_active].
  rewrite Hc. reflexivity.
Qed.

Lemma nodePortSlot_addedServers svc ipvsSvcs protocol addr :
  preserves (fun w => omap addedServerOf (calls w))
    (nodePortSlot svc ipvsSvcs protocol addr).
Proof. frame. Qed.

(** The visit of a service in the node-port pass bound to all local
    addresses, once the addresses are listed: every slot, whether its virtual
    service could be created or not, is handed the same endpoints. *)
Lemma nodePortService_servers_all nsc ipvsSvcs endpointsInfoMap k svc w :
  nodeportBindOnAllIP nsc = true ->
  svc_nodePort svc <> 0 ->
  (svc_local svc = true -> hasActiveEndpoints (endpointsOf endpointsInfoMap k) = true) ->
  faults w (length (calls w)) GetAllLocalIPs = None ->
  localAddrs w <> [] ->
  addedServers (snd (nodePortService nsc ipvsSvcs endpointsInfoMap (k, svc) w)) =
  rev (flat_map
         (fun endpoint =>
            map (fun slot => (fst slot, destinationFor endpoint ConnectionFlagMasq))
                (fst (forSlots
                        (nodePortSlot svc ipvsSvcs
                           (convertSvcProtoToSysCallProto (svc_protocol svc)))
                        (localAddrs w) (set_calls (GetAllLocalIPs :: calls w) w))))
         (filter (localPolicy svc (endpointsOf endpointsInfoMap k))
                 (endpointsOf endpointsInfoMap k)))
  ++ addedServers w.
Proof.
  intros Hmode Hport Hg Hlist Haddrs.
  destruct (nodePortService nsc ipvsSvcs endpointsInfoMap (k, svc) w) as [f w'] eqn:Hrun.
  cbn [snd]. unfold nodePortService in Hrun.
  apply Z.eqb_neq in Hport. rewrite Hport, Hmode in Hrun.
  assert (svc_local svc && negb (hasActiveEndpoints (endpointsOf endpointsInfoMap k))
          = false) as Hgb.
  { destruct (svc_local svc); [rewrite Hg by reflexivity |]; reflexivity. }
  rewrite Hgb in Hrun.
  apply bind_run in Hrun. unfold getAllLocalIPs, bind in Hrun.
  rewrite call_run, Hlist in Hrun. cbn [gets ret fst snd localAddrs set_calls] in Hrun.
  destruct (localAddrs w) as [|a0 addrs] eqn:Hl; [congruence |].
  cbn [length Nat.eqb] in Hrun.
  apply bind_run in Hrun.
  match type of Hrun with
  | context [forSlots ?g ?l ?w1] =>
      pose proof (preserves_forSlots (fun w => omap addedServerOf (calls w)) g l
                    (nodePortSlot_addedServers svc ipvsSvcs _) w1) as Hs;
      destruct (forSlots g l w1) as [slots w2]
  end.
  cbn [fst snd] in Hrun, Hs |- *.
  apply bind_run in Hrun. inversion Hrun as [[Hn Hw']].
  rewrite (nodePort_loop_servers svc (endpointsOf endpointsInfoMap k)) by exact Hg.
  f_equal. exact Hs.
Qed.

(** *** The external-IP loops *)

Lemma externalIP_loop_servers svc endpoints ip h connectionFlags
  (after : endpointsInfo -> M Flow) (l : list endpointsInfo) (w w' : World) :
  (svc_local svc = true -> hasActiveEndpoints endpoints = true) ->
  (forall endpoint, preserves (fun w => omap addedServerOf (calls w)) (after endpoint)) ->
  (forall endpoint, always (fun f => f <> Break) (after endpoint)) ->
  forRange (externalIPEndpoint svc ip h connectionFlags after) l w = (None, w') ->
  addedServers w' =
  rev (map (fun endpoint => (h, destinationFor endpoint connectionFlags))
         (filter (localPolicy svc endpoints) l))
  ++ addedServers w.
Proof.
  intros Hg Hafter Hnb. revert w. induction l as [|x l IH]; intros w Hrun.
  - inversion Hrun; subst. reflexivity.
  - rewrite forRange_cons in Hrun. rewrite filter_policy_cons.
    destruct (guarded_policy svc endpoints x Hg) as [_ Hp].
    unfold externalIPEndpoint in Hrun at 1.
    destruct (localPolicy svc endpoints x).
    + apply negb_true_iff in Hp. rewrite Hp in Hrun. unfold bind in Hrun.
      pose proof (ipvsAddServer_calls h (destinationFor x connectionFlags) w) as Hc.
      destruct (ln.ipvsAddServer h (destinationFor x connectionFlags) w) as [[e|] w1];
        [discriminate |].
      cbn [snd] in Hc. specialize (Hafter x w1). specialize (Hnb x w1).
      destruct (after x w1) as [[| |e] w2]; cbn in Hafter, Hnb;
        [| congruence | discriminate].
      rewrite (IH w2 Hrun). unfold addedServers at 1. rewrite Hafter, Hc.
      cbn [map rev omap addedServerOf]. rewrite <- app_assoc. reflexivity.
    + apply negb_false_iff in Hp. rewrite Hp in Hrun. cbn in Hrun. apply IH. exact Hrun.
Qed.

Lemma addedServers_kept {A} (m : M A) (w : World) :
  preserves (fun w => omap addedServerOf (calls w)) m ->
  addedServers (snd (m w)) = addedServers w.
Proof. intros H. exact (H w). Qed.

Lemma ipvsAddService_ok svcs vip protocol port persistent timeout scheduler flags w w' h :
  ln.ipvsAddService svcs vip protocol port persistent timeout scheduler flags w
  = ((h, None), w') ->
  h = Some (mkService vip protocol port 0 scheduler persistent timeout flags).
Proof.
  unfold ln.ipvsAddService, bind. rewrite call_run.
  destruct (faults _ _ _); cbn; intros H; inversion H; reflexivity.
Qed.

(** One step of a run held in a hypothesis: the first operation is run and
    the servers added so far are carried over it. *)
Ltac step_servers Hrun F :=
  apply bind_run in Hrun;
  match type of Hrun with
  | context [snd (?m ?w)] =>
      assert (addedServers (snd (m w)) = addedServers w) as F
        by (apply addedServers_kept; frame);
      let a := fresh "a" in
      let w1 := fresh "w" in
      destruct (m w) as [a w1] eqn:?; cbn [fst snd] in Hrun, F
  end.

Lemma ipvsAddFWMarkService_ok svcs fwMark protocol port persistent timeout scheduler
  flags w w' h :
  ln.ipvsAddFWMarkService svcs fwMark protocol port persistent timeout scheduler flags w
  = ((h, None), w') ->
  h = Some (mkService None 0 0 fwMark scheduler persistent timeout flags).
Proof.
  unfold ln.ipvsAddFWMarkService, bind. rewrite call_run.
  destruct (faults _ _ _); cbn; intros H; inversion H; reflexivity.
Qed.

Lemma dsrReceiver_flow ip endpoint :
  always nextOrError
    (err <- addDSRIPInsidePodNetNamespace ip (ep_ip endpoint) ;;
     match err with
     | Some e => ret (Return (Some ("unable to setup DSR receiver inside pod: " +:+ e)))
     | None => ret Next
     end).
Proof.
  apply always_bind. intros [e|]; apply always_ret; [right; eexists | left]; reflexivity.
Qed.

Lemma externalIPEndpoint_flow svc ip h connectionFlags
  (after : endpointsInfo -> M Flow) (endpoint : endpointsInfo) :
  (forall x, always nextOrError (after x)) ->
  always nextOrError (externalIPEndpoint svc ip h connectionFlags after endpoint).
Proof.
  intros Hafter. unfold externalIPEndpoint.
  destruct (svc_local svc && negb (ep_isLocal endpoint));
    [apply always_ret; left; reflexivity |].
  apply always_bind. intros [e|]; [| apply Hafter].
  apply always_ret. right. eexists. reflexivity.
Qed.

(** The loop over the endpoints ends the setup with nil only by running to
    its end. *)
Lemma externalIP_loop_nil svc ip h connectionFlags (after : endpointsInfo -> M Flow)
  (l : list endpointsInfo) (w w' : World) :
  (forall x, always nextOrError (after x)) ->
  (out <- forRange (externalIPEndpoint svc ip h connectionFlags after) l ;;
   ret (loopResult out)) w = (None, w') ->
  forRange (externalIPEndpoint svc ip h connectionFlags after) l w = (None, w').
Proof.
  intros Hafter Hrun. apply bind_run in Hrun.
  pose proof (forRange_nextOrError
                (externalIPEndpoint svc ip h connectionFlags after) l
                (fun x => externalIPEndpoint_flow svc ip h connectionFlags after x Hafter)
                w) as Hn.
  destruct (forRange _ l w) as [out w1]. cbn in Hn, Hrun.
  destruct Hn as [-> | [msg ->]]; cbn in Hrun; [| discriminate].
  inversion Hrun. reflexivity.
Qed.

Lemma breakFree_of_nextOrError (m : M Flow) :
  always nextOrError m -> always (fun f => f <> Break) m.
Proof. intros H w. destruct (H w) as [-> | [msg ->]]; discriminate. Qed.

Lemma setupExternalIPForService_servers nsc svc ip endpoints w w' :
  (svc_local svc = true -> hasActiveEndpoints endpoints = true) ->
  setupExternalIPForService nsc svc ip endpoints w = (None, w') ->
  addedServers w' =
  rev (map (fun endpoint =>
              (Some (mkService (ParseIP ip)
                       (convertSvcProtoToSysCallProto (svc_protocol svc))
                       (uint16 (svc_port svc)) 0 (svc_scheduler svc)
                       (svc_sessionAffinity svc) (svc_sessionAffinityTimeoutSeconds svc)
                       (svc_flags svc)),
               destinationFor endpoint ConnectionFlagMasq))
         (filter (localPolicy svc endpoints) endpoints))
  ++ addedServers w.
Proof.
  intros Hg Hrun. unfold setupExternalIPForService in Hrun.
  step_servers Hrun F1. apply orReturn_run in Hrun as [_ Hrun].
  step_servers Hrun F2. apply orReturn_run in Hrun as [_ Hrun].
  step_servers Hrun F3. apply orReturn_run in Hrun as [_ Hrun].
  step_servers Hrun F4. apply orReturn_run in Hrun as [Hes Hrun].
  match goal with
  | E : ln.ipvsAddService _ _ _ _ _ _ _ _ _ = (?a, _) |- _ =>
      destruct a as [hs [es|]]; [discriminate |];
      apply ipvsAddService_ok in E; subst hs
  end.
  step_servers Hrun F5. step_servers Hrun F6.
  apply orReturn_run in Hrun as [_ Hrun].
  assert (forall x : endpointsInfo, always nextOrError (ret Next)) as Hafter
    by (intros _; apply always_ret; left; reflexivity).
  apply externalIP_loop_nil in Hrun; [| exact Hafter].
  eapply externalIP_loop_servers in Hrun;
    [| exact Hg | intros x; frame
     | intros x; apply breakFree_of_nextOrError, (Hafter x)].
  cbn [fst] in Hrun. rewrite Hrun, F6, F5, F4, F3, F2, F1. reflexivity.
Qed.

Lemma setupExternalIPForDSRService_servers nsc svc ip endpoints w w' :
  (svc_local svc = true -> hasActiveEndpoints endpoints = true) ->
  setupExternalIPForDSRService nsc svc ip endpoints w = (None, w') ->
  exists fwMark,
    addedServers w' =
    rev (map (fun endpoint =>
                (Some (mkService None 0 0 fwMark (svc_scheduler svc)
                         (svc_sessionAffinity svc)
                         (svc_sessionAffinityTimeoutSeconds svc) (svc_flags svc)),
                 destinationFor endpoint ConnectionFlagTunnel))
           (filter (localPolicy svc endpoints) endpoints))
    ++ addedServers w.
Proof.
  intros Hg Hrun. unfold setupExternalIPForDSRService in Hrun.
  step_servers Hrun F1. apply orReturn_run in Hrun as [_ Hrun].
  step_servers Hrun F2. apply orReturn_run in Hrun as [_ Hrun].
  step_servers Hrun F3. apply orReturn_run in Hrun as [_ Hrun].
  step_servers Hrun F4. apply orReturn_run in Hrun as [Hes Hrun].
  match goal with
  | E : ln.ipvsAddFWMarkService _ ?m _ _ _ _ _ _ _ = (?a, _) |- _ =>
      destruct a as [hs [es|]]; [discriminate |];
      apply ipvsAddFWMarkService_ok in E; subst hs; exists m
  end.
  step_servers Hrun F5. apply orReturn_run in Hrun as [_ Hrun].
  step_servers Hrun F6. apply orReturn_run in Hrun as [_ Hrun].
  step_servers Hrun F7. apply orReturn_run in Hrun as [_ Hrun].
  apply externalIP_loop_nil in Hrun; [| intros x; apply dsrReceiver_flow].
  eapply externalIP_loop_servers in Hrun;
    [| exact Hg | intros x; frame
     | intros x; apply breakFree_of_nextOrError, dsrReceiver_flow].
  cbn [fst] in Hrun. rewrite Hrun, F7, F6, F5, F4, F3, F2, F1. reflexivity.
Qed.

(* ===================================================================== *)
(** ** The real servers the host accepts *)
(* ===================================================================== *)

(** An operation that leaves the oracle alone and makes no [ipvsAddServer]
    call leaves the accepted real servers as they were. *)
Lemma accepted_kept {A} (m : M A) (w : World) :
  preserves faults m ->
  (forall faulty, preserves (fun w => acceptedIn faulty (calls w)) m) ->
  acceptedServers (snd (m w)) = acceptedServers w.
Proof.
  intros Hf Ha. unfold acceptedServers. rewrite Hf. exact (Ha (faults w) w).
Qed.

Lemma ipvsAddServer_accepted h d w :
  faults (snd (ln.ipvsAddServer h d w)) = faults w
  /\ fst (ln.ipvsAddServer h d w) = faults w (length (calls w)) (IpvsAddServer h d)
  /\ activeServiceEndpointMap (snd (ln.ipvsAddServer h d w)) = activeServiceEndpointMap w
  /\ acceptedServers (snd (ln.ipvsAddServer h d w)) =
     match faults w (length (calls w)) (IpvsAddServer h d) with
     | None => [(h, d)]
     | Some _ => []
     end ++ acceptedServers w.
Proof.
  unfold ln.ipvsAddServer, bind, acceptedServers. rewrite call_run.
  destruct (faults w (length (calls w)) (IpvsAddServer h d)) eqn:Hf.
  - cbn. rewrite Hf. auto.
  - destruct h; cbn; rewrite Hf; auto.
Qed.

Lemma noAddRefused_kept (w w' : World) :
  faults w' = faults w -> noAddRefused w -> noAddRefused w'.
Proof. intros H Hn n h d. rewrite H. apply Hn. Qed.

(** The loop over the endpoints in the cluster-IP and node-port passes:
    [body] adds the endpoints that satisfy [p] to [h] and records under [id]
    those the host accepts. *)
Lemma recording_loop_accepted (p : endpointsInfo -> bool) (h : option Service) (id : string)
  (body : endpointsInfo -> M unit) :
  (forall x w,
     snd (body x w) =
     if p x
     then snd ((err <- ln.ipvsAddServer h (destinationFor x ConnectionFlagMasq) ;;
                match err with
                | Some _ => ret tt
                | None => activeAppend id (endpointIDFor x)
                end) w)
     else w) ->
  forall (l : list endpointsInfo) (recorded : list string) (w : World),
    activeServiceEndpointMap w !! id = Some recorded ->
    let w' := snd (forEach body l w) in
    faults w' = faults w
    /\ exists accepted,
         accepted `sublist_of` filter p l
         /\ acceptedServers w' =
            rev (map (fun endpoint => (h, destinationFor endpoint ConnectionFlagMasq)) accepted)
            ++ acceptedServers w
         /\ activeServiceEndpointMap w' =
            <[id := recorded ++ map endpointIDFor accepted]> (activeServiceEndpointMap w)
         /\ (noAddRefused w -> accepted = filter p l).
Proof.
  intros Hbody. induction l as [|x l IH]; intros recorded w Hrec; cbv zeta.
  - split; [reflexivity |]. exists []. split; [constructor |]. split; [reflexivity |].
    split; [| reflexivity]. cbn. rewrite app_nil_r, insert_id by exact Hrec. reflexivity.
  - rewrite forEach_cons, Hbody, filter_policy_cons.
    destruct (p x).
    + unfold bind.
      destruct (ipvsAddServer_accepted h (destinationFor x ConnectionFlagMasq) w)
        as (Hf & Hr & Ha & Hacc).
      destruct (ln.ipvsAddServer h (destinationFor x ConnectionFlagMasq) w) as [e w1].
      cbn [fst snd] in Hf, Hr, Ha, Hacc. subst e.
      destruct (faults w (length (calls w)) (IpvsAddServer h _)) as [msg|] eqn:Hfault.
      * cbn [ret snd].
        destruct (IH recorded w1) as (Hf2 & accepted & Hsub & Hacc2 & Hact & Hall);
          [rewrite Ha; exact Hrec |].
        cbv zeta in Hf2, Hacc2, Hact, Hall.
        split; [congruence |]. exists accepted.
        split; [apply sublist_cons; exact Hsub |].
        split; [rewrite Hacc2, Hacc; reflexivity |].
        split; [rewrite Hact, Ha; reflexivity |].
        intros Hn. rewrite Hn in Hfault. discriminate.
      * unfold activeAppend, modify. cbn [snd]. rewrite Ha, Hrec. cbn [default].
        match goal with
        | |- context [forEach body l ?w0] =>
            destruct (IH (recorded ++ [endpointIDFor x]) w0)
              as (Hf2 & accepted & Hsub & Hacc2 & Hact & Hall);
              [apply lookup_insert_eq |]
        end.
        cbv zeta in Hf2, Hacc2, Hact, Hall.
        split; [rewrite Hf2; exact Hf |]. exists (x :: accepted).
        split; [apply sublist_skip; exact Hsub |].
        split.
        { rewrite Hacc2. unfold acceptedServers at 1. cbn [faults calls set_active].
          fold (acceptedServers w1). rewrite Hacc. cbn [map rev app].
          rewrite <- app_assoc. reflexivity. }
        split.
        { rewrite Hact. cbn [activeServiceEndpointMap set_active map].
          rewrite insert_insert_eq, <- app_assoc. reflexivity. }
        intros Hn. f_equal. apply Hall. intros n h0 d0. cbn [faults set_active].
        rewrite Hf. apply Hn.
    + destruct (IH recorded w Hrec) as (Hf2 & accepted & Hsub & Hacc2 & Hact & Hall).
      cbv zeta in Hf2, Hacc2, Hact, Hall.
      split; [exact Hf2 |]. exists accepted. auto.
Qed.

Lemma clusterIPEndpoint_body svc endpoints h id x w :
  snd (clusterIPEndpoint svc endpoints h id x w) =
  if localPolicy svc endpoints x
  then snd ((err <- ln.ipvsAddServer h (destinationFor x ConnectionFlagMasq) ;;
             match err with
             | Some _ => ret tt
             | None => activeAppend id (endpointIDFor x)
             end) w)
  else w.
Proof.
  unfold clusterIPEndpoint, localPolicy.
  destruct (svc_local svc), (hasActiveEndpoints endpoints), (ep_isLocal x); reflexivity.
Qed.

Lemma nodePortServer_body svc endpoints h id x w :
  (svc_local svc = true -> hasActiveEndpoints endpoints = true) ->
  snd (forEach (nodePortServer svc x) [(h, id)] w) =
  if localPolicy svc endpoints x
  then snd ((err <- ln.ipvsAddServer h (destinationFor x ConnectionFlagMasq) ;;
             match err with
             | Some _ => ret tt
             | None => activeAppend id (endpointIDFor x)
             end) w)
  else w.
Proof.
  intros Hg. rewrite forEach_cons. cbn [forEach ret snd]. unfold nodePortServer.
  destruct (guarded_policy svc endpoints x Hg) as [-> _].
  destruct (localPolicy svc endpoints x); reflexivity.
Qed.

Lemma accepted_set_calls (c : Call) (w : World) :
  match c with IpvsAddServer _ _ => False | _ => True end ->
  acceptedServers (set_calls (c :: calls w) w) = acceptedServers w.
Proof. intros H. destruct c; try reflexivity. destruct H. Qed.

(** The visit of a service in the cluster-IP pass, on every host. *)
Lemma clusterIPService_accepted ipvsSvcs endpointsInfoMap k svc w :
  let endpoints := endpointsOf endpointsInfoMap k in
  let chosen := filter (localPolicy svc endpoints) endpoints in
  let entry :=
    Some (mkService (svc_clusterIP svc) (convertSvcProtoToSysCallProto (svc_protocol svc))
            (uint16 (svc_port svc)) 0 (svc_scheduler svc) (svc_sessionAffinity svc)
            (svc_sessionAffinityTimeoutSeconds svc) (svc_flags svc)) in
  let key := generateIPPortID (IP_String (svc_clusterIP svc)) (svc_protocol svc)
               (Itoa (svc_port svc)) in
  let w' := snd (clusterIPService ipvsSvcs endpointsInfoMap (k, svc) w) in
  exists accepted,
    accepted `sublist_of` chosen
    /\ acceptedServers w' =
       rev (map (fun endpoint => (entry, destinationFor endpoint ConnectionFlagMasq)) accepted)
       ++ acceptedServers w
    /\ (clusterIPInstalled svc w = false -> accepted = [])
    /\ (clusterIPInstalled svc w = true ->
        activeServiceEndpointMap w' !! key = Some (map endpointIDFor accepted)
        /\ (noAddRefused w -> accepted = chosen)).
Proof.
  cbv zeta.
  destruct (clusterIPService ipvsSvcs endpointsInfoMap (k, svc) w) as [f w'] eqn:Hrun.
  cbn [snd]. unfold clusterIPService in Hrun. unfold clusterIPInstalled.
  apply bind_run in Hrun. rewrite getKubeDummyInterface_run in Hrun.
  cbn [fst snd] in Hrun.
  destruct (faults w (length (calls w)) GetKubeDummyInterface) as [e1|].
  { inversion Hrun; subst. exists []. split; [apply sublist_nil_l |].
    split; [reflexivity |]. split; [reflexivity | discriminate]. }
  rewrite bool_decide_eq_true_2 by reflexivity.
  apply bind_run in Hrun.
  match type of Hrun with
  | context [ln.ipAddrAdd ?ip ?b ?w0] =>
      destruct (ipAddrAdd_run ip b w0) as (Hr1 & Hc1 & Hf1);
      assert (acceptedServers (snd (ln.ipAddrAdd ip b w0)) = acceptedServers w0) as Ha1
        by (apply accepted_kept; [frame | intros ?; frame]);
      destruct (ln.ipAddrAdd ip b w0) as [a1 w1]
  end.
  cbn [fst snd calls set_calls faults length] in Hr1, Hc1, Hf1, Ha1, Hrun. subst a1.
  rewrite (accepted_set_calls GetKubeDummyInterface w I) in Ha1.
  destruct (faults w (S (length (calls w))) (IpAddrAdd _ true)) as [e2|].
  { inversion Hrun; subst. exists []. split; [apply sublist_nil_l |].
    split; [exact Ha1 |]. split; [reflexivity | discriminate]. }
  rewrite bool_decide_eq_true_2 by reflexivity.
  apply bind_run in Hrun.
  match type of Hrun with
  | context [ln.ipvsAddService ?a ?b ?c ?d ?e ?f ?g ?h w1] =>
      destruct (ipvsAddService_run a b c d e f g h w1) as (Hr2 & Hc2);
      assert (acceptedServers (snd (ln.ipvsAddService a b c d e f g h w1))
              = acceptedServers w1) as Ha2
        by (apply accepted_kept; [frame | intros ?; frame]);
      assert (faults (snd (ln.ipvsAddService a b c d e f g h w1)) = faults w1) as Hf2
        by (apply preserves_apply; frame);
      destruct (ln.ipvsAddService a b c d e f g h w1) as [a2 w2]
  end.
  cbn [fst snd] in Hr2, Hc2, Ha2, Hf2, Hrun. rewrite Hf1, Hc1 in Hr2. cbn [length] in Hr2.
  subst a2.
  destruct (faults w (S (S (length (calls w)))) (IpvsAddService _ _ _ _ _ _ _)) as [e3|].
  { inversion Hrun; subst. exists []. split; [apply sublist_nil_l |].
    split; [cbn [map rev app]; congruence |]. split; [reflexivity | discriminate]. }
  rewrite bool_decide_eq_true_2 by reflexivity. cbn [andb fst snd] in Hrun |- *.
  apply bind_run in Hrun. apply bind_run in Hrun. inversion Hrun as [[Hn Hw']].
  clear Hrun Hn. subst w'. cbn [activeReset modify snd].
  match goal with
  | |- context [forEach (clusterIPEndpoint svc ?eps ?h ?id) ?l ?w0] =>
      destruct (recording_loop_accepted (localPolicy svc eps) h id
                  (clusterIPEndpoint svc eps h id)
                  (clusterIPEndpoint_body svc eps h id) l [] w0)
        as (Hf3 & accepted & Hsub & Hacc & Hact & Hall);
        [apply lookup_insert_eq |]
  end.
  cbv zeta in Hf3, Hacc, Hact, Hall.
  exists accepted. split; [exact Hsub |]. split.
  { rewrite Hacc. f_equal. change (acceptedServers w2 = acceptedServers w). congruence. }
  split; [discriminate |]. intros _. split.
  { rewrite Hact. rewrite lookup_insert_eq. reflexivity. }
  intros Hnr. apply Hall. intros n h0 d0. cbn [faults set_active].
  rewrite Hf2, Hf1. apply Hnr.
Qed.

(** The visit of a service in the node-port pass bound to the node IP, on
    every host. *)
Lemma nodePortService_accepted nsc ipvsSvcs endpointsInfoMap k svc w :
  nodeportBindOnAllIP nsc = false ->
  let endpoints := endpointsOf endpointsInfoMap k in
  let chosen := filter (localPolicy svc endpoints) endpoints in
  let entry :=
    Some (mkService (nodeIP nsc) (convertSvcProtoToSysCallProto (svc_protocol svc))
            (uint16 (svc_nodePort svc)) 0 (svc_scheduler svc) (svc_sessionAffinity svc)
            (svc_sessionAffinityTimeoutSeconds svc) (svc_flags svc)) in
  let key := generateIPPortID (IP_String (nodeIP nsc)) (svc_protocol svc)
               (Itoa (svc_nodePort svc)) in
  let w' := snd (nodePortService nsc ipvsSvcs endpointsInfoMap (k, svc) w) in
  exists accepted,
    accepted `sublist_of` chosen
    /\ acceptedServers w' =
       rev (map (fun endpoint => (entry, destinationFor endpoint ConnectionFlagMasq)) accepted)
       ++ acceptedServers w
    /\ (nodePortInstalled nsc svc endpoints w = false -> accepted = [])
    /\ (nodePortInstalled nsc svc endpoints w = true ->
        activeServiceEndpointMap w' !! key = Some (map endpointIDFor accepted)
        /\ (noAddRefused w -> accepted = chosen)).
Proof.
  intros Hmode. cbv zeta.
  destruct (nodePortService nsc ipvsSvcs endpointsInfoMap (k, svc) w) as [f w'] eqn:Hrun.
  cbn [snd]. unfold nodePortService in Hrun. unfold nodePortInstalled.
  destruct (svc_nodePort svc =? 0).
  { inversion Hrun; subst. exists []. split; [apply sublist_nil_l |].
    split; [reflexivity |]. split; [reflexivity | discriminate]. }
  destruct (svc_local svc && negb (hasActiveEndpoints (endpointsOf endpointsInfoMap k)))
    eqn:Hg.
  { inversion Hrun; subst. exists []. split; [apply sublist_nil_l |].
    split; [reflexivity |]. split; [reflexivity | discriminate]. }
  rewrite Hmode in Hrun. cbn [negb andb].
  apply bind_run in Hrun.
  match type of Hrun with
  | context [ln.ipvsAddService ?a ?b ?c ?d ?e ?f ?g ?h w] =>
      destruct (ipvsAddService_run a b c d e f g h w) as (Hr & Hc);
      assert (acceptedServers (snd (ln.ipvsAddService a b c d e f g h w))
              = acceptedServers w) as Ha
        by (apply accepted_kept; [frame | intros ?; frame]);
      assert (faults (snd (ln.ipvsAddService a b c d e f g h w)) = faults w) as Hf
        by (apply preserves_apply; frame);
      destruct (ln.ipvsAddService a b c d e f g h w) as [a1 w1]
  end.
  cbn [fst snd] in Hr, Hc, Ha, Hf, Hrun. subst a1.
  destruct (faults w (length (calls w)) (IpvsAddService _ _ _ _ _ _ _)) as [e|].
  { inversion Hrun; subst. exists []. split; [apply sublist_nil_l |].
    split; [cbn [map rev app]; congruence |]. split; [reflexivity | discriminate]. }
  rewrite bool_decide_eq_true_2 by reflexivity. cbn [fst snd] in Hrun.
  apply bind_run in Hrun. apply bind_run in Hrun. inversion Hrun as [[Hn Hw']].
  clear Hrun Hn. subst w'. cbn [activeReset modify snd]. unfold nodePortEndpoints.
  match goal with
  | |- context [forEach ?body ?l (set_active (<[?id := []]> _) w1)] =>
      match body with
      | (fun endpoint => forEach (nodePortServer svc endpoint) [(?h, _)]) =>
          destruct (recording_loop_accepted
                      (localPolicy svc (endpointsOf endpointsInfoMap k)) h id body
                      (fun x w0 =>
                         nodePortServer_body svc (endpointsOf endpointsInfoMap k) h id x w0
                           (guard_passed svc _ Hg))
                      l [] (set_active (<[id := []]> (activeServiceEndpointMap w1)) w1))
            as (Hf3 & accepted & Hsub & Hacc & Hact & Hall);
            [apply lookup_insert_eq |]
      end
  end.
  cbv zeta in Hf3, Hacc, Hact, Hall.
  exists accepted. split; [exact Hsub |]. split.
  { rewrite Hacc. f_equal. change (acceptedServers w1 = acceptedServers w). exact Ha. }
  split; [discriminate |]. intros _. split.
  { rewrite Hact. rewrite lookup_insert_eq. reflexivity. }
  intros Hnr. apply Hall. intros n h0 d0. cbn [faults set_active].
  rewrite Hf. apply Hnr.
Qed.

(** *** Runs only add calls *)

Lemma extends_ret {A} (a : A) : extends (ret a).
Proof. intros w. exists []. reflexivity. Qed.

Lemma extends_gets {A} (g : World -> A) : extends (gets g).
Proof. intros w. exists []. reflexivity. Qed.

Lemma extends_bind {A C} (m : M A) (k : A -> M C) :
  extends m -> (forall a, extends (k a)) -> extends (bind m k).
Proof.
  intros Hm Hk w. unfold bind. destruct (Hm w) as [l1 H1].
  destruct (m w) as [a w1]. destruct (Hk a w1) as [l2 H2]. cbn [snd] in H1.
  exists (l2 ++ l1). rewrite H2, H1, app_assoc. reflexivity.
Qed.

Lemma extends_modify (g : World -> World) :
  (forall w, calls (g w) = calls w) -> extends (modify g).
Proof. intros Hg w. exists []. cbn. apply Hg. Qed.

Lemma extends_call (c : Call) : extends (call c).
Proof. intros w. exists [c]. reflexivity. Qed.

Lemma extends_forEach {A} (body : A -> M unit) (l : list A) :
  (forall x, extends (body x)) -> extends (forEach body l).
Proof.
  intros H. induction l as [|x t IH]; cbn.
  - apply extends_ret.
  - apply extends_bind; [apply H | intros _; exact IH].
Qed.

Lemma extends_forRange {A} (body : A -> M Flow) (l : list A) :
  (forall x, extends (body x)) -> extends (forRange body l).
Proof.
  intros H. induction l as [|x t IH]; cbn.
  - apply extends_ret.
  - apply extends_bind; [apply H |].
    intros [| |e]; [exact IH | apply extends_ret | apply extends_ret].
Qed.

Lemma extends_forSlots {A C} (g : A -> M C) (l : list A) :
  (forall x, extends (g x)) -> extends (forSlots g l).
Proof.
  intros H. induction l as [|x t IH]; cbn.
  - apply extends_ret.
  - apply extends_bind; [apply H |]. intros y.
    apply extends_bind; [exact IH |]. intros ys. apply extends_ret.
Qed.

Lemma extends_orReturn (e : error) (k : M error) : extends k -> extends (orReturn e k).
Proof. intros H. destruct e; [apply extends_ret | exact H]. Qed.

Ltac extend_step :=
  lazymatch goal with
  | |- extends (ret _) => apply extends_ret
  | |- extends (gets _) => apply extends_gets
  | |- extends (bind _ _) => apply extends_bind; [| intros ?]
  | |- extends (orReturn _ _) => apply extends_orReturn
  | |- extends (forEach _ _) => apply extends_forEach; intros ?
  | |- extends (forRange _ _) => apply extends_forRange; intros ?
  | |- extends (forSlots _ _) => apply extends_forSlots; intros ?
  | |- extends (call _) => apply extends_call
  | |- extends (modify _) => apply extends_modify; intros ?
  | |- extends (match ?x with _ => _ end) => destruct x
  | |- extends (if ?x then _ else _) => destruct x
  | |- extends (let (_, _) := ?x in _) => destruct x
  end.

Ltac extend := repeat autounfold with engine; repeat extend_step; frame_done.

(** *** Accepted and requested real servers *)

Lemma acceptedIn_app faulty (l cs : list Call) :
  acceptedIn faulty (l ++ cs)
  = acceptedIn (fun n => faulty (n + length cs)%nat) l ++ acceptedIn faulty cs.
Proof.
  induction l as [|c l IH]; [reflexivity |].
  cbn [app acceptedIn]. rewrite IH, length_app.
  destruct c; try reflexivity.
  destruct (faulty _ _); reflexivity.
Qed.

Lemma acceptedIn_requested faulty (l : list Call) :
  acceptedIn faulty l `sublist_of` omap addedServerOf l
  /\ ((forall n h d, faulty n (IpvsAddServer h d) = None) ->
      acceptedIn faulty l = omap addedServerOf l).
Proof.
  induction l as [|c l [IH1 IH2]]; [split; [constructor | reflexivity] |].
  destruct c; cbn [acceptedIn omap addedServerOf]; try (split; assumption).
  split.
  - destruct (faulty _ _); [apply sublist_cons | apply sublist_skip]; exact IH1.
  - intros H. rewrite H, IH2 by exact H. reflexivity.
Qed.

(** What a run gets accepted follows from what it requests: the accepted
    real servers are some of the requested ones, all of them on a host that
    refuses none. *)
Lemma accepted_of_requested {A} (m : M A) (w : World)
  (requested : list (option Service * Destination)) :
  extends m ->
  faults (snd (m w)) = faults w ->
  addedServers (snd (m w)) = requested ++ addedServers w ->
  exists accepted,
    acceptedServers (snd (m w)) = accepted ++ acceptedServers w
    /\ accepted `sublist_of` requested
    /\ (noAddRefused w -> accepted = requested).
Proof.
  intros He Hf Hreq. destruct (He w) as [l Hl].
  unfold addedServers in Hreq. rewrite Hl, omap_app in Hreq.
  apply app_inv_tail in Hreq. subst requested.
  unfold acceptedServers. rewrite Hf, Hl, acceptedIn_app.
  eexists. split; [reflexivity |].
  destruct (acceptedIn_requested (fun n => faults w (n + length (calls w))%nat) l)
    as [Hs Hall].
  split; [exact Hs |]. intros Hn. apply Hall. intros n h d. apply Hn.
Qed.

Lemma nodePortService_extends nsc ipvsSvcs endpointsInfoMap entry :
  extends (nodePortService nsc ipvsSvcs endpointsInfoMap entry).
Proof. extend. Qed.

(** The visit of a service in the node-port pass bound to all local
    addresses, on every host that lists its addresses. *)
Lemma nodePortService_accepted_all nsc ipvsSvcs endpointsInfoMap k svc w :
  nodeportBindOnAllIP nsc = true ->
  svc_nodePort svc <> 0 ->
  (svc_local svc = true -> hasActiveEndpoints (endpointsOf endpointsInfoMap k) = true) ->
  faults w (length (calls w)) GetAllLocalIPs = None ->
  localAddrs w <> [] ->
  let requested :=
    rev (flat_map
           (fun endpoint =>
              map (fun slot => (fst slot, destinationFor endpoint ConnectionFlagMasq))
                  (fst (forSlots
                          (nodePortSlot svc ipvsSvcs
                             (convertSvcProtoToSysCallProto (svc_protocol svc)))
                          (localAddrs w) (set_calls (GetAllLocalIPs :: calls w) w))))
           (filter (localPolicy svc (endpointsOf endpointsInfoMap k))
                   (endpointsOf endpointsInfoMap k))) in
  exists accepted,
    acceptedServers (snd (nodePortService nsc ipvsSvcs endpointsInfoMap (k, svc) w))
    = accepted ++ acceptedServers w
    /\ accepted `sublist_of` requested
    /\ (noAddRefused w -> accepted = requested).
Proof.
  intros Hmode Hport Hg Hlist Haddrs. cbv zeta.
  apply accepted_of_requested.
  - apply nodePortService_extends.
  - apply preserves_apply. frame.
  - apply nodePortService_servers_all; assumption.
Qed.

(** *** The external IP setups, whatever they return *)

Lemma acceptedWithin_bind {A} h connectionFlags served (m : M A) (k : A -> M error)
  (w : World) :
  preserves faults m ->
  (forall faulty, preserves (fun w => acceptedIn faulty (calls w)) m) ->
  acceptedWithin h connectionFlags served (snd (m w)) (k (fst (m w)) (snd (m w))) ->
  acceptedWithin h connectionFlags served w (bind m k w).
Proof.
  intros Hf Ha (Hf2 & accepted & Hsub & Hacc & Hall).
  pose proof (accepted_kept m w Hf Ha) as Hk. specialize (Hf w).
  unfold bind. destruct (m w) as [a w1]. cbn [fst snd] in *.
  split; [congruence |]. exists accepted. split; [exact Hsub |].
  split; [congruence | exact Hall].
Qed.

Lemma acceptedWithin_orReturn h connectionFlags served (e : error) (k : M error)
  (w : World) :
  (e = None -> acceptedWithin h connectionFlags served w (k w)) ->
  acceptedWithin h connectionFlags served w (orReturn e k w).
Proof.
  destruct e as [msg|]; cbn; [intros _ | intros H; apply H; reflexivity].
  split; [reflexivity |]. exists []. split; [apply prefix_nil |].
  split; [reflexivity | discriminate].
Qed.

Lemma servedBy_cons svc x l :
  servedBy svc (x :: l) =
  if svc_local svc && negb (ep_isLocal x) then servedBy svc l else x :: servedBy svc l.
Proof.
  unfold servedBy. rewrite filter_cons.
  destruct (svc_local svc && negb (ep_isLocal x)); reflexivity.
Qed.

(** The loop over the endpoints of an external IP setup: it adds the
    endpoints it does not pass over, in order, and stops at the first that
    the host refuses or that [after] fails for. *)
Lemma externalIP_loop_within svc ip h connectionFlags
  (after : endpointsInfo -> M Flow) (l : list endpointsInfo) (w : World) :
  (forall x, preserves faults (after x)) ->
  (forall x faulty, preserves (fun w => acceptedIn faulty (calls w)) (after x)) ->
  (forall x, always nextOrError (after x)) ->
  let r := forRange (externalIPEndpoint svc ip h connectionFlags after) l w in
  faults (snd r) = faults w
  /\ (fst r = None \/ exists msg, fst r = Some (Some msg))
  /\ exists accepted,
       accepted `prefix_of` servedBy svc l
       /\ acceptedServers (snd r) =
          rev (map (fun endpoint => (h, destinationFor endpoint connectionFlags)) accepted)
          ++ acceptedServers w
       /\ (fst r = None -> accepted = servedBy svc l).
Proof.
  intros Hf Ha Hn. revert w. induction l as [|x l IH]; intros w; cbv zeta.
  - cbn. split; [reflexivity |]. split; [left; reflexivity |].
    exists []. split; [apply prefix_nil |]. split; reflexivity.
  - destruct (forRange (externalIPEndpoint svc ip h connectionFlags after) (x :: l) w)
      as [out w'] eqn:Hrun.
    cbn [fst snd]. rewrite forRange_cons in Hrun. rewrite servedBy_cons.
    unfold externalIPEndpoint in Hrun at 1.
    destruct (svc_local svc && negb (ep_isLocal x)).
    { change (forRange (externalIPEndpoint svc ip h connectionFlags after) l w = (out, w'))
        in Hrun.
      specialize (IH w). cbv zeta in IH. rewrite Hrun in IH. exact IH. }
    unfold bind in Hrun.
    destruct (ipvsAddServer_accepted h (destinationFor x connectionFlags) w)
      as (Hf1 & Hr1 & _ & Hacc1).
    destruct (ln.ipvsAddServer h (destinationFor x connectionFlags) w) as [e w1].
    cbn [fst snd] in Hf1, Hr1, Hacc1. subst e.
    destruct (faults w (length (calls w)) (IpvsAddServer h _)) as [msg|].
    + cbn [ret] in Hrun. inversion Hrun; subst out w'.
      split; [exact Hf1 |]. split; [right; eexists; reflexivity |].
      exists []. split; [apply prefix_nil |]. split; [exact Hacc1 | discriminate].
    + pose proof (Hf x w1) as Hf2.
      pose proof (accepted_kept (after x) w1 (Hf x) (Ha x)) as Ha2.
      pose proof (Hn x w1) as Hn2.
      destruct (after x w1) as [f w2]. cbn [fst snd] in Hf2, Ha2, Hn2.
      destruct Hn2 as [-> | [msg ->]].
      * destruct (IH w2) as (Hf3 & Hout & accepted & Hsub & Hacc & Hall).
        cbv zeta in Hf3, Hout, Hacc, Hall. rewrite Hrun in Hf3, Hout, Hacc, Hall.
        cbn [fst snd] in Hf3, Hout, Hacc, Hall.
        split; [congruence |]. split; [exact Hout |].
        exists (x :: accepted). split; [apply prefix_cons; exact Hsub |].
        split.
        { rewrite Hacc, Ha2, Hacc1. cbn [map rev app]. rewrite <- app_assoc. reflexivity. }
        intros H. f_equal. apply Hall. exact H.
      * inversion Hrun; subst out w'.
        split; [congruence |]. split; [right; eexists; reflexivity |].
        exists [x]. split; [apply prefix_cons, prefix_nil |].
        split; [rewrite Ha2, Hacc1; reflexivity | discriminate].
Qed.

Lemma externalIP_loop_acceptedWithin svc ip h connectionFlags
  (after : endpointsInfo -> M Flow) (l : list endpointsInfo) (w : World) :
  (forall x, preserves faults (after x)) ->
  (forall x faulty, preserves (fun w => acceptedIn faulty (calls w)) (after x)) ->
  (forall x, always nextOrError (after x)) ->
  acceptedWithin h connectionFlags (servedBy svc l) w
    ((out <- forRange (externalIPEndpoint svc ip h connectionFlags after) l ;;
      ret (loopResult out)) w).
Proof.
  intros Hf Ha Hn.
  destruct (externalIP_loop_within svc ip h connectionFlags after l w Hf Ha Hn)
    as (Hf1 & Hout & accepted & Hsub & Hacc & Hall).
  cbv zeta in Hf1, Hout, Hacc, Hall. unfold bind.
  destruct (forRange _ l w) as [out w1]. cbn [fst snd ret] in *.
  split; [exact Hf1 |]. exists accepted. split; [exact Hsub |]. split; [exact Hacc |].
  intros H. apply Hall. destruct Hout as [-> | [msg ->]]; [reflexivity | discriminate H].
Qed.

Lemma ipvsAddService_handle svcs vip protocol port persistent timeout scheduler flags w :
  snd (fst (ln.ipvsAddService svcs vip protocol port persistent timeout scheduler flags w))
  = None ->
  fst (fst (ln.ipvsAddService svcs vip protocol port persistent timeout scheduler flags w))
  = Some (mkService vip protocol port 0 scheduler persistent timeout flags).
Proof.
  destruct (ipvsAddService_run svcs vip protocol port persistent timeout scheduler flags w)
    as [-> _].
  destruct (faults w _ _); [discriminate | reflexivity].
Qed.

Lemma ipvsAddFWMarkService_handle svcs fwMark protocol port persistent timeout scheduler
  flags w :
  snd (fst (ln.ipvsAddFWMarkService svcs fwMark protocol port persistent timeout scheduler
              flags w)) = None ->
  fst (fst (ln.ipvsAddFWMarkService svcs fwMark protocol port persistent timeout scheduler
              flags w))
  = Some (mkService None 0 0 fwMark scheduler persistent timeout flags).
Proof.
  unfold ln.ipvsAddFWMarkService, bind. rewrite call_run.
  destruct (faults w _ _); [discriminate | reflexivity].
Qed.

Lemma wrapError_nil prefix (e : error) : wrapError prefix e = None -> e = None.
Proof. destruct e; [discriminate | reflexivity]. Qed.

(** A step of a setup that makes no [ipvsAddServer] call. *)
Ltac within_step :=
  apply acceptedWithin_bind; [frame | intros ?; frame |].

Lemma setupExternalIPForService_within nsc svc ip endpoints w :
  acceptedWithin
    (Some (mkService (ParseIP ip) (convertSvcProtoToSysCallProto (svc_protocol svc))
             (uint16 (svc_port svc)) 0 (svc_scheduler svc) (svc_sessionAffinity svc)
             (svc_sessionAffinityTimeoutSeconds svc) (svc_flags svc)))
    ConnectionFlagMasq (servedBy svc endpoints) w
    (setupExternalIPForService nsc svc ip endpoints w).
Proof.
  unfold setupExternalIPForService.
  within_step. apply acceptedWithin_orReturn. intros _.
  within_step. apply acceptedWithin_orReturn. intros _.
  within_step. apply acceptedWithin_orReturn. intros _.
  within_step. apply acceptedWithin_orReturn. intros Hs.
  apply wrapError_nil, ipvsAddService_handle in Hs. rewrite Hs.
  within_step. within_step. apply acceptedWithin_orReturn. intros _.
  apply externalIP_loop_acceptedWithin.
  - intros x. frame.
  - intros x faulty. frame.
  - intros x. apply always_ret. left. reflexivity.
Qed.

Lemma setupExternalIPForDSRService_within nsc svc ip endpoints w :
  exists fwMark,
    acceptedWithin
      (Some (mkService None 0 0 fwMark (svc_scheduler svc) (svc_sessionAffinity svc)
               (svc_sessionAffinityTimeoutSeconds svc) (svc_flags svc)))
      ConnectionFlagTunnel (servedBy svc endpoints) w
      (setupExternalIPForDSRService nsc svc ip endpoints w).
Proof.
  eexists. unfold setupExternalIPForDSRService.
  within_step. apply acceptedWithin_orReturn. intros _.
  within_step. apply acceptedWithin_orReturn. intros _.
  within_step. apply acceptedWithin_orReturn. intros _.
  within_step. apply acceptedWithin_orReturn. intros Hs.
  apply wrapError_nil, ipvsAddFWMarkService_handle in Hs. rewrite Hs.
  within_step. apply acceptedWithin_orReturn. intros _.
  within_step. apply acceptedWithin_orReturn. intros _.
  within_step. apply acceptedWithin_orReturn. intros _.
  apply externalIP_loop_acceptedWithin.
  - intros x. frame.
  - intros x faulty. frame.
  - intros x. apply dsrReceiver_flow.
Qed.

(** *** The guard of the node-port and external-IP passes *)

Lemma servedBy_policy svc endpoints (l : list endpointsInfo) :
  (svc_local svc = true -> hasActiveEndpoints endpoints = true) ->
  servedBy svc l = filter (localPolicy svc endpoints) l.
Proof.
  intros Hg. induction l as [|x l IH]; [reflexivity |].
  rewrite servedBy_cons, filter_policy_cons, IH.
  destruct (guarded_policy svc endpoints x Hg) as [_ <-].
  destruct (svc_local svc && negb (ep_isLocal x)); reflexivity.
Qed.

Lemma guarded_passes_skip nsc ipvsSvcs endpointsInfoMap k svc w :
  svc_local svc = true ->
  hasActiveEndpoints (endpointsOf endpointsInfoMap k) = false ->
  nodePortService nsc ipvsSvcs endpointsInfoMap (k, svc) w = (Next, w)
  /\ externalIPService nsc endpointsInfoMap (k, svc) w = (Next, w).
Proof.
  intros Hl Ha. unfold nodePortService, externalIPService. rewrite Hl, Ha. cbn [negb andb].
  split.
  - destruct (svc_nodePort svc =? 0); reflexivity.
  - destruct (_ =? _)%nat; reflexivity.
Qed.

Lemma externalIPService_guarded nsc endpointsInfoMap k svc w :
  (svc_local svc = true -> hasActiveEndpoints (endpointsOf endpointsInfoMap k) = true) ->
  externalIPService nsc endpointsInfoMap (k, svc) w =
  let out := forRange (externalIPOfService nsc svc (endpointsOf endpointsInfoMap k))
               (externalIPSetOf svc) w in
  (match fst out with
   | Some e => Return e
   | None => Next
   end, snd out).
Proof.
  intros Hg. unfold externalIPService. cbv zeta.
  destruct (externalIPSetOf svc) as [|ip ips] eqn:Hs; [reflexivity |].
  cbn [length Nat.eqb].
  assert (svc_local svc && negb (hasActiveEndpoints (endpointsOf endpointsInfoMap k))
          = false) as ->.
  { destruct (svc_local svc); [rewrite Hg by reflexivity |]; reflexivity. }
  unfold bind. destruct (forRange _ _ w) as [[e|] w1]; reflexivity.
Qed.

(** C4, as stated, fails.  The host refuses the real server [10.1.0.3].  In
    the cluster-IP pass the virtual service [10.0.0.1:80] is installed and
    both endpoints of the service satisfy the local-policy predicate, yet
    only [10.1.0.2] is added: the table of the host and the endpoint list the
    pass records hold that one alone.  In the external-IP pass the virtual
    service [203.0.113.9:80] is installed, the refused add ends the pass with
    an error and the third endpoint, [10.1.0.4], is never handed to the
    host. *)
Lemma real_servers_miss_an_endpoint_the_host_refuses :
  let w := emptyNode refuseSecondBackend in
  (let w' := snd (setupClusterIPServices plainController [("default/web", web)]
                    webEndpoints w) in
   filter (localPolicy web (endpointsOf webEndpoints "default/web"))
          (endpointsOf webEndpoints "default/web")
   = endpointsOf webEndpoints "default/web"
   /\ length (endpointsOf webEndpoints "default/web") = 2%nat
   /\ services w' = [webEntry]
   /\ acceptedServers w' = [(Some webEntry, webDestination "10.1.0.2")]
   /\ destinationsOf webEntry (ipvsTable w') = [webDestination "10.1.0.2"]
   /\ activeServiceEndpointMap w' !! "10.0.0.1-tcp-80" = Some ["10.1.0.2:8080"])
  /\ (let r := setupExternalIPServices plainController [("default/frontend", frontend)]
                 threeBackends w in
      filter (localPolicy frontend (endpointsOf threeBackends "default/frontend"))
             (endpointsOf threeBackends "default/frontend")
      = endpointsOf threeBackends "default/frontend"
      /\ length (endpointsOf threeBackends "default/frontend") = 3%nat
      /\ fst r <> None
      /\ services (snd r) = [externalEntry]
      /\ acceptedServers (snd r) = [(Some externalEntry, webDestination "10.1.0.2")]
      /\ destinationsOf externalEntry (ipvsTable (snd r)) = [webDestination "10.1.0.2"]
      /\ addedServers (snd r) = [(Some externalEntry, webDestination "10.1.0.3");
                                 (Some externalEntry, webDestination "10.1.0.2")]).
Proof.
  cbv zeta. split.
  - repeat split; reflexivity.
  - repeat split; try reflexivity. vm_compute. discriminate.
Qed.

(** C4, amended.  For a desired service [svc] with endpoint list [endpoints]
    the real servers the host accepts for a virtual service a reconcile pass
    installs are always, in the order of the list and once each, some of the
    endpoints that satisfy the local-policy predicate, and they are all of them
    under the condition given for each pass:
    - in the cluster-IP pass and in the node-port pass bound to the node IP
      every policy endpoint is handed to the host, once and in order, and a
      refused add is passed over; the endpoint list the pass records under
      the key of the service holds the accepted endpoints, which are all the
      policy endpoints on a host that refuses no add; when the visit does not
      get as far as installing the virtual service nothing is handed over;
    - in the node-port pass bound to all local addresses the same holds of
      the adds to the slots of the addresses;
    - in the external-IP pass an external IP setup, plain or DSR, adds the
      first of the endpoints its loop does not pass over, in order, and all
      of them when it returns nil: an add the host refuses ends the setup
      with an error; these endpoints are the policy endpoints because the
      pass runs the setups only for a service that is not local or has a
      local endpoint: otherwise the visit of the node-port and of the
      external-IP pass does nothing. *)
Theorem accepted_real_servers_are_policy_endpoints
  (nsc : NetworkServicesController) (ipvsSvcs : list Service)
  (endpointsInfoMap : gmap string (list endpointsInfo))
  (k : string) (svc : serviceInfo) (w : World) :
  let endpoints := endpointsOf endpointsInfoMap k in
  let chosen := filter (localPolicy svc endpoints) endpoints in
  let entry vip port :=
    Some (mkService vip (convertSvcProtoToSysCallProto (svc_protocol svc)) (uint16 port) 0
            (svc_scheduler svc) (svc_sessionAffinity svc)
            (svc_sessionAffinityTimeoutSeconds svc) (svc_flags svc)) in
  let masq h := map (fun endpoint => (h, destinationFor endpoint ConnectionFlagMasq)) in
  (let w' := snd (clusterIPService ipvsSvcs endpointsInfoMap (k, svc) w) in
   addedServers w'
   = (if clusterIPInstalled svc w
      then rev (masq (entry (svc_clusterIP svc) (svc_port svc)) chosen)
      else []) ++ addedServers w
   /\ exists accepted,
     accepted `sublist_of` chosen
     /\ acceptedServers w'
        = rev (masq (entry (svc_clusterIP svc) (svc_port svc)) accepted) ++ acceptedServers w
     /\ (clusterIPInstalled svc w = false -> accepted = [])
     /\ (clusterIPInstalled svc w = true ->
         activeServiceEndpointMap w'
           !! generateIPPortID (IP_String (svc_clusterIP svc)) (svc_protocol svc)
                (Itoa (svc_port svc))
         = Some (map endpointIDFor accepted)
         /\ (noAddRefused w -> accepted = chosen)))
  /\ (nodeportBindOnAllIP nsc = false ->
      let w' := snd (nodePortService nsc ipvsSvcs endpointsInfoMap (k, svc) w) in
      addedServers w'
      = (if nodePortInstalled nsc svc endpoints w
         then rev (masq (entry (nodeIP nsc) (svc_nodePort svc)) chosen)
         else []) ++ addedServers w
      /\ exists accepted,
        accepted `sublist_of` chosen
        /\ acceptedServers w'
           = rev (masq (entry (nodeIP nsc) (svc_nodePort svc)) accepted) ++ acceptedServers w
        /\ (nodePortInstalled nsc svc endpoints w = false -> accepted = [])
        /\ (nodePortInstalled nsc svc endpoints w = true ->
            activeServiceEndpointMap w'
              !! generateIPPortID (IP_String (nodeIP nsc)) (svc_protocol svc)
                   (Itoa (svc_nodePort svc))
            = Some (map endpointIDFor accepted)
            /\ (noAddRefused w -> accepted = chosen)))
  /\ (nodeportBindOnAllIP nsc = true ->
      svc_nodePort svc <> 0 ->
      (svc_local svc = true -> hasActiveEndpoints endpoints = true) ->
      faults w (length (calls w)) GetAllLocalIPs = None ->
      localAddrs w <> [] ->
      let slots :=
        fst (forSlots
               (nodePortSlot svc ipvsSvcs (convertSvcProtoToSysCallProto (svc_protocol svc)))
               (localAddrs w) (set_calls (GetAllLocalIPs :: calls w) w)) in
      let requested :=
        rev (flat_map
               (fun endpoint =>
                  map (fun slot => (fst slot, destinationFor endpoint ConnectionFlagMasq))
                      slots) chosen) in
      let w' := snd (nodePortService nsc ipvsSvcs endpointsInfoMap (k, svc) w) in
      addedServers w' = requested ++ addedServers w
      /\ exists accepted,
        acceptedServers w' = accepted ++ acceptedServers w
        /\ accepted `sublist_of` requested
        /\ (noAddRefused w -> accepted = requested))
  /\ (forall externalIP,
        acceptedWithin (entry (ParseIP externalIP) (svc_port svc)) ConnectionFlagMasq
          (servedBy svc endpoints) w
          (setupExternalIPForService nsc svc externalIP endpoints w))
  /\ (forall externalIP,
        exists fwMark,
          acceptedWithin
            (Some (mkService None 0 0 fwMark (svc_scheduler svc) (svc_sessionAffinity svc)
                     (svc_sessionAffinityTimeoutSeconds svc) (svc_flags svc)))
            ConnectionFlagTunnel (servedBy svc endpoints) w
            (setupExternalIPForDSRService nsc svc externalIP endpoints w))
  /\ ((svc_local svc = true -> hasActiveEndpoints endpoints = true) ->
      servedBy svc endpoints = chosen
      /\ externalIPService nsc endpointsInfoMap (k, svc) w =
         (let out := forRange (externalIPOfService nsc svc endpoints) (externalIPSetOf svc) w in
          (match fst out with
           | Some e => Return e
           | None => Next
           end, snd out)))
  /\ (svc_local svc = true ->
      hasActiveEndpoints endpoints = false ->
      nodePortService nsc ipvsSvcs endpointsInfoMap (k, svc) w = (Next, w)
      /\ externalIPService nsc endpointsInfoMap (k, svc) w = (Next, w)).
Proof.
  cbv zeta.
  split; [split; [apply clusterIPService_servers | apply clusterIPService_accepted] |].
  split.
  { intros Hmode. split; [apply nodePortService_servers | apply nodePortService_accepted];
      exact Hmode. }
  split.
  { intros Hmode Hport Hg Hlist Haddrs.
    split; [apply nodePortService_servers_all | apply nodePortService_accepted_all];
      assumption. }
  split; [intros ip; apply setupExternalIPForService_within |].
  split; [intros ip; apply setupExternalIPForDSRService_within |].
  split.
  - intros Hg. split; [apply servedBy_policy; exact Hg |].
    apply externalIPService_guarded. exact Hg.
  - apply guarded_passes_skip.
Qed.

(** A local service with a local and a remote endpoint on a host that
    refuses no real server: in each pass the local endpoint is added, and
    recorded, alone. *)
Lemma accepted_real_servers_are_policy_endpoints_witness :
  let w := twoAddressNode in
  noAddRefused w
  /\ filter (localPolicy webLocal localAndRemote) localAndRemote
     = [mkEndpointsInfo "10.1.0.2" 8080 true]
  /\ acceptedServers (snd (clusterIPService [] localEndpoints ("default/web", webLocal) w))
     = [(Some webEntry, webDestination "10.1.0.2")]
  /\ activeServiceEndpointMap
       (snd (clusterIPService [] localEndpoints ("default/web", webLocal) w))
       !! "10.0.0.1-tcp-80" = Some ["10.1.0.2:8080"]
  /\ acceptedServers (snd (nodePortService plainController [] localEndpoints
                             ("default/web", webLocal) w))
     = [(Some (mkService (Some "192.168.1.10") IPPROTO_TCP 30080 0 "rr" false 0 0),
         webDestination "10.1.0.2")]
  /\ acceptedServers (snd (setupExternalIPForService plainController webLocal "203.0.113.9"
                             localAndRemote w))
     = [(Some externalEntry, webDestination "10.1.0.2")].
Proof.
  intros w.
  assert (noAddRefused w) as Hno by (intros n h d; reflexivity).
  destruct (accepted_real_servers_are_policy_endpoints plainController []
              localEndpoints "default/web" webLocal w)
    as (Hc & Hn & _ & He & _ & Hg & _).
  split; [exact Hno |]. split; [reflexivity |].
  destruct Hc as (_ & acc & _ & Hacc & _ & Hinst).
  destruct (Hinst eq_refl) as [Hact Hall]. rewrite (Hall Hno) in Hacc, Hact.
  split; [rewrite Hacc; reflexivity |]. split; [exact Hact |].
  destruct (Hn eq_refl) as (_ & acc2 & _ & Hacc2 & _ & Hinst2).
  destruct (Hinst2 eq_refl) as [_ Hall2]. rewrite (Hall2 Hno) in Hacc2.
  split; [rewrite Hacc2; reflexivity |].
  destruct (He "203.0.113.9") as (_ & acc3 & _ & Hacc3 & Hall3).
  rewrite (Hall3 eq_refl) in Hacc3. exact Hacc3.
Defined.

(* ===================================================================== *)
(** ** What the sweeps leave on the node *)
(* ===================================================================== *)

(** An address is active when it is the first dash separated field of a key
    of the active map that contains a dash. *)
Lemma addrActiveOf_spec (active : gmap string (list string)) (a : string) :
  a ∈ addrActiveOf active <->
  exists key, is_Some (active !! key) /\ Contains key "-" = true
              /\ head (SplitN key "-" 3) = Some a.
Proof.
  unfold addrActiveOf. rewrite elem_of_list_to_set, list_elem_of_omap. split.
  - intros (k & Hk & Ha). apply elem_of_elements, elem_of_dom in Hk.
    exists k. destruct (Contains k "-"); [auto | discriminate].
  - intros (k & Hk & Hc & Ha). exists k. split.
    + apply elem_of_elements, elem_of_dom. exact Hk.
    + rewrite Hc. exact Ha.
Qed.

Lemma faultFree_kept {A} (m : M A) (w : World) :
  preserves faults m -> faultFree w -> faultFree (snd (m w)).
Proof. intros H Hw n c. rewrite H. apply Hw. Qed.

(** *** The stale-VIP sweep *)

Lemma staleVIP_faults addrActive addr : preserves faults (staleVIP addrActive addr).
Proof. frame. Qed.

Lemma staleVIP_dummyAddrs addrActive addr w a :
  faultFree w ->
  In a (dummyAddrs (snd (staleVIP addrActive addr w))) ->
  In a (dummyAddrs w) /\ (a = addr -> addr ∈ addrActive).
Proof.
  intros Hw. unfold staleVIP.
  destruct (bool_decide (addr ∈ addrActive)) eqn:Hd; cbn [negb].
  - apply bool_decide_eq_true in Hd. cbn. auto.
  - unfold ln.ipAddrDel, bind. rewrite call_run, Hw. cbn.
    rewrite <- !list_elem_of_In, list_elem_of_filter. intros [Hne Hin].
    split; [exact Hin |]. intros ->. rewrite String.eqb_refl in Hne. destruct Hne.
Qed.

Lemma staleVIPs_loop addrActive (l : list IP) (w : World) (a : IP) :
  faultFree w ->
  In a (dummyAddrs (snd (forEach (staleVIP addrActive) l w))) ->
  In a (dummyAddrs w) /\ (In a l -> a ∈ addrActive).
Proof.
  revert w. induction l as [|x l IH]; intros w Hw Hin; [cbn in *; tauto |].
  rewrite forEach_cons in Hin.
  apply IH in Hin; [| apply faultFree_kept; [apply staleVIP_faults | exact Hw]].
  destruct Hin as [Hin Hl].
  apply staleVIP_dummyAddrs in Hin as [Hin Hx]; [| exact Hw].
  split; [exact Hin |]. intros [-> | Hal]; [apply Hx; reflexivity | apply Hl; exact Hal].
Qed.

Lemma getKubeDummyInterface_ok w :
  faultFree w ->
  ln.getKubeDummyInterface w = (None, set_calls (GetKubeDummyInterface :: calls w) w).
Proof. intros H. unfold ln.getKubeDummyInterface. rewrite call_run, H. reflexivity. Qed.

Lemma AddrList_ok w :
  faultFree w ->
  netlink_AddrList w = ((dummyAddrs w, None), set_calls (AddrList :: calls w) w).
Proof. intros H. unfold netlink_AddrList, bind. rewrite call_run, H. reflexivity. Qed.

Lemma cleanupStaleVIPs_dummyAddrs (w : World) (a : IP) :
  faultFree w ->
  In a (dummyAddrs (snd (cleanupStaleVIPs w))) ->
  a ∈ addrActiveOf (activeServiceEndpointMap w).
Proof.
  intros Hw Hin. destruct (cleanupStaleVIPs w) as [e w'] eqn:Hrun. cbn [snd] in Hin.
  unfold cleanupStaleVIPs in Hrun.
  apply bind_run in Hrun. cbn [gets fst snd] in Hrun.
  apply bind_run in Hrun. rewrite (getKubeDummyInterface_ok w Hw) in Hrun.
  cbn [fst snd orReturn wrapError option_map] in Hrun.
  apply bind_run in Hrun. rewrite AddrList_ok in Hrun by exact Hw.
  cbn [fst snd orReturn wrapError option_map] in Hrun.
  apply bind_run in Hrun. inversion Hrun as [[He Hw']]. rewrite <- Hw' in Hin.
  apply staleVIPs_loop in Hin as [Hin0 Hact]; [| exact Hw].
  apply Hact. exact Hin0.
Qed.

(** *** The stale-IPVS sweep *)

Lemma sameService_refl s : sameService s s = true.
Proof.
  unfold sameService. rewrite bool_decide_eq_true_2 by reflexivity.
  rewrite !Z.eqb_refl. reflexivity.
Qed.

Lemma sameService_kept nsc active x s :
  sameService x s = true -> keptBySweep nsc active x -> keptBySweep nsc active s.
Proof.
  unfold sameService. rewrite !andb_true_iff, bool_decide_eq_true, !Z.eqb_eq.
  intros [[[Ha Hp] Hport] Hm].
  assert (staleKey x = staleKey s) as Hk
    by (unfold staleKey; rewrite Ha, Hp, Hport, Hm; reflexivity).
  assert (isExcluded nsc x = isExcluded nsc s) as He
    by (unfold isExcluded; rewrite Ha; reflexivity).
  unfold keptBySweep. rewrite Hk, He. exact id.
Qed.

Lemma services_removeService x t s :
  In s (map fst (removeService x t)) -> In s (map fst t) /\ sameService x s = false.
Proof.
  unfold removeService. rewrite !in_map_iff.
  intros (e & <- & He). apply list_elem_of_In, list_elem_of_filter in He as [Hn He].
  split.
  - exists e. split; [reflexivity | apply list_elem_of_In; exact He].
  - destruct (sameService x (fst e)); [destruct Hn | reflexivity].
Qed.

Lemma staleIPVSService_faults nsc s : preserves faults (staleIPVSService nsc s).
Proof. frame. Qed.

Lemma staleIPVSService_active nsc s :
  preserves activeServiceEndpointMap (staleIPVSService nsc s).
Proof. frame. Qed.

(** One visit: what is still installed afterwards was installed before, and
    an entry the visit was for is still there only if the sweep keeps it. *)
Lemma staleIPVSService_services nsc x w s :
  faultFree w ->
  In s (services (snd (staleIPVSService nsc x w))) ->
  In s (services w)
  /\ (sameService x s = true -> keptBySweep nsc (activeServiceEndpointMap w) x).
Proof.
  intros Hw Hin.
  destruct (staleIPVSService nsc x w) as [u w'] eqn:Hrun. cbn [snd] in Hin.
  unfold staleIPVSService in Hrun.
  destruct (staleKey x) as [key|] eqn:Hk;
    [| inversion Hrun; subst; split; [exact Hin | intros _; left; exact Hk]].
  unfold bind at 1 in Hrun.
  change (gets activeServiceEndpointMap w) with (activeServiceEndpointMap w, w) in Hrun.
  cbv beta iota in Hrun.
  destruct (activeServiceEndpointMap w !! key) as [endpointIDs|] eqn:Ha.
  - assert (preserves services
              (r <- ln.ipvsGetDestinations x ;;
               forEach (staleDestination x endpointIDs) (fst r))) as Hp.
    { apply preserves_bind; [frame |]. intros r. apply preserves_forEach. intros d.
      apply staleDestination_services. }
    specialize (Hp w). rewrite Hrun in Hp. cbn [snd] in Hp. rewrite Hp in Hin.
    split; [exact Hin |]. intros _. right; right. exists key. rewrite Ha. eauto.
  - destruct (isExcluded nsc x) eqn:Hx;
      [inversion Hrun; subst; split; [exact Hin | intros _; right; left; exact Hx] |].
    apply bind_run in Hrun.
    match type of Hrun with
    | context [snd (?m w)] =>
        assert (services (snd (m w)) = services w) as Hs
          by (apply preserves_apply; frame);
        assert (faultFree (snd (m w))) as Hf
          by (apply faultFree_kept; [frame | exact Hw]);
        destruct (m w) as [u1 w1]
    end.
    cbn [fst snd] in Hrun, Hs, Hf.
    unfold ln.ipvsDelService, bind in Hrun. rewrite call_run, Hf in Hrun.
    cbn in Hrun. inversion Hrun; subst w'. clear Hrun.
    unfold services in Hin. cbn [ipvsTable set_ipvsTable set_calls] in Hin.
    apply services_removeService in Hin as [Hin Hne].
    split; [rewrite <- Hs; exact Hin | congruence].
Qed.

Lemma staleIPVSServices_loop nsc (l : list Service) (w : World) (s : Service) :
  faultFree w ->
  In s (services (snd (forEach (staleIPVSService nsc) l w))) ->
  In s (services w)
  /\ (forall x, In x l -> sameService x s = true ->
                keptBySweep nsc (activeServiceEndpointMap w) x).
Proof.
  revert w. induction l as [|x l IH]; intros w Hw Hin; [cbn in *; tauto |].
  rewrite forEach_cons in Hin.
  apply IH in Hin; [| apply faultFree_kept; [apply staleIPVSService_faults | exact Hw]].
  destruct Hin as [Hin Hl]. rewrite staleIPVSService_active in Hl.
  apply staleIPVSService_services in Hin as [Hin Hx]; [| exact Hw].
  split; [exact Hin |]. intros y [<- | Hy] Hsame; [apply Hx | apply Hl]; assumption.
Qed.

Lemma cleanupStaleIPVSConfig_services nsc (w : World) (s : Service) :
  faultFree w ->
  In s (services (snd (cleanupStaleIPVSConfig nsc w))) ->
  keptBySweep nsc (activeServiceEndpointMap w) s.
Proof.
  intros Hw Hin. destruct (cleanupStaleIPVSConfig nsc w) as [e w'] eqn:Hrun.
  cbn [snd] in Hin. unfold cleanupStaleIPVSConfig in Hrun.
  apply bind_run in Hrun. rewrite ipvsGetServices_ok in Hrun by apply Hw.
  cbn [fst snd orReturn wrapError option_map] in Hrun.
  apply bind_run in Hrun. inversion Hrun as [[He Hw']]. rewrite <- Hw' in Hin.
  apply staleIPVSServices_loop in Hin as [Hin0 Hall]; [| exact Hw].
  apply (sameService_kept nsc _ s s (sameService_refl s)).
  apply (Hall s); [exact Hin0 | apply sameService_refl].
Qed.

(** Mangle rules go only with the teardown of a marked entry: a visit for an
    entry without a mark leaves the mangle table alone. *)
Lemma staleIPVSService_mangle nsc x w :
  FWMark x = 0 ->
  mangleTable (snd (staleIPVSService nsc x w)) = mangleTable w.
Proof.
  intros Hm. unfold staleIPVSService. rewrite Hm. cbn [Z.eqb negb].
  apply preserves_apply. frame.
Qed.

Lemma staleIPVSServices_mangle nsc (l : list Service) (w : World) :
  (forall x, In x l -> FWMark x = 0) ->
  mangleTable (snd (forEach (staleIPVSService nsc) l w)) = mangleTable w.
Proof.
  revert w. induction l as [|x l IH]; intros w Hl; [reflexivity |].
  rewrite forEach_cons, IH by (intros y Hy; apply Hl; right; exact Hy).
  apply staleIPVSService_mangle. apply Hl. left. reflexivity.
Qed.

Lemma cleanupStaleIPVSConfig_mangle nsc (w : World) :
  (forall x, In x (services w) -> FWMark x = 0) ->
  mangleTable (snd (cleanupStaleIPVSConfig nsc w)) = mangleTable w.
Proof.
  intros Hl. unfold cleanupStaleIPVSConfig, bind, ln.ipvsGetServices, bind.
  rewrite call_run.
  destruct (faults w (length (calls w)) IpvsGetServices); [reflexivity |].
  cbn [ret gets fst snd orReturn wrapError option_map].
  match goal with
  | |- context [forEach ?b ?l ?w0] =>
      pose proof (staleIPVSServices_mangle nsc l w0 Hl) as H;
      destruct (forEach b l w0) as [u w1]
  end.
  exact H.
Qed.

Lemma cleanupStaleVIPs_faults : preserves faults cleanupStaleVIPs.
Proof. frame. Qed.

Lemma cleanupStaleVIPs_active : preserves activeServiceEndpointMap cleanupStaleVIPs.
Proof. frame. Qed.

Lemma cleanupStaleVIPs_services : preserves services cleanupStaleVIPs.
Proof. frame. Qed.

Lemma cleanupStaleVIPs_mangle : preserves mangleTable cleanupStaleVIPs.
Proof. frame. Qed.

Lemma cleanupStaleIPVSConfig_dummyAddrs nsc :
  preserves dummyAddrs (cleanupStaleIPVSConfig nsc).
Proof. frame. Qed.

(** C3, as stated, fails: after a complete pass on a host where every call
    succeeds, with an empty active map and no excluded CIDR, the virtual
    service [10.0.0.99:80] is still installed.  Its protocol is neither TCP
    nor UDP and it has no mark, so the sweep passes it over. *)
Lemma syncIpvsServices_leaves_unmarked_foreign_protocol_entry :
  let w' := snd (syncIpvsServices plainController [] ∅ sctpNode) in
  activeServiceEndpointMap w' = ∅
  /\ excludedCidrs plainController = []
  /\ In (IpvsGetServices) (trace w')
  /\ services w' = [sctpEntry]
  /\ ~ In (IpvsDelService sctpEntry) (trace w').
Proof.
  cbv zeta. split; [reflexivity |]. split; [reflexivity |].
  split; [vm_compute; tauto |]. split; [reflexivity |].
  vm_compute. intros H. repeat (destruct H as [H | H]; [discriminate |]). exact H.
Qed.

(** The two sweeps in a row, from any world without failures. *)
Lemma sweeps_leave_kept (nsc : NetworkServicesController) (w : World) :
  faultFree w ->
  let w' := snd (cleanupStaleIPVSConfig nsc (snd (cleanupStaleVIPs w))) in
  (forall a, In a (dummyAddrs w') ->
     exists key, is_Some (activeServiceEndpointMap w !! key)
                 /\ Contains key "-" = true
                 /\ head (SplitN key "-" 3) = Some a)
  /\ (forall s, In s (services w') ->
        (exists key, staleKey s = Some key
                     /\ is_Some (activeServiceEndpointMap w !! key))
        \/ isExcluded nsc s = true
        \/ (staleKey s = None
            /\ FWMark s = 0
            /\ (Address s = None
                \/ convertSysCallProtoToSvcProto (Protocol s) = noneProtocol)))
  /\ ((forall s, In s (services w) -> FWMark s = 0) -> mangleTable w' = mangleTable w).
Proof.
  intros Hw w'. subst w'.
  pose proof (faultFree_kept cleanupStaleVIPs w cleanupStaleVIPs_faults Hw) as Hw1.
  pose proof (cleanupStaleVIPs_active w) as Ha1.
  split; [| split].
  - intros a Hin. rewrite cleanupStaleIPVSConfig_dummyAddrs in Hin.
    apply cleanupStaleVIPs_dummyAddrs in Hin; [| exact Hw].
    apply addrActiveOf_spec. exact Hin.
  - intros s Hin. apply cleanupStaleIPVSConfig_services in Hin; [| exact Hw1].
    rewrite Ha1 in Hin. destruct Hin as [Hn | [Hx | Hk]].
    + right; right.
      destruct (staleKey_address_first_cases s) as [H | [(a & _ & H) | (_ & _ & H)]];
        [exact H | congruence | congruence].
    + right; left. exact Hx.
    + left. exact Hk.
  - intros Hm. rewrite cleanupStaleIPVSConfig_mangle.
    + apply cleanupStaleVIPs_mangle.
    + intros x Hx. rewrite cleanupStaleVIPs_services in Hx. apply Hm. exact Hx.
Qed.


Lemma run_snd {A} (m : M A) (w w' : World) (a : A) : m w = (a, w') -> w' = snd (m w).
Proof. intros H. rewrite H. reflexivity. Qed.

Lemma logged_fields msg err w :
  dummyAddrs (logged msg err w) = dummyAddrs w
  /\ services (logged msg err w) = services w
  /\ activeServiceEndpointMap (logged msg err w) = activeServiceEndpointMap w
  /\ faults (logged msg err w) = faults w.
Proof. unfold logged, noteError. destruct err; repeat split; reflexivity. Qed.

Lemma setupClusterIPServices_faults nsc sm em :
  preserves faults (setupClusterIPServices nsc sm em).
Proof. frame. Qed.

Lemma setupNodePortServices_faults nsc sm em :
  preserves faults (setupNodePortServices nsc sm em).
Proof. frame. Qed.

Lemma setupExternalIPServices_faults nsc sm em :
  preserves faults (setupExternalIPServices nsc sm em).
Proof. frame. Qed.

Lemma cleanupStaleIPVSConfig_active nsc :
  preserves activeServiceEndpointMap (cleanupStaleIPVSConfig nsc).
Proof. frame. Qed.

(** The steps after the sweeps touch neither the dummy interface nor IPVS
    nor the active map. *)
Lemma afterSweeps_kept {B} (f : World -> B) sm :
  (forall v w, f (set_calls v w) = f w) ->
  (forall v w, f (set_metricsMap v w) = f w) ->
  preserves f cleanupStaleMetrics /\ preserves f syncIpvsFirewall
  /\ preserves f (setupForDSR sm).
Proof.
  intros Hc Hm. repeat split; repeat autounfold with engine; preserve;
    first [apply Hc | apply Hm].
Qed.

(** C3, amended.  After a complete pass on a host where every call
    succeeds:
    - every address left on the dummy interface is the first dash separated
      field of a key of the active map that contains a dash (excluded CIDRs
      play no role for addresses);
    - every virtual service left in IPVS is one the sweep keeps by design:
      its key is in the active map, or its address is inside an excluded
      CIDR, or the sweep computes no key for it, which is the case of an
      entry without a mark whose protocol is neither TCP nor UDP or that has
      no address;
    - mangle rules have no sweep of their own: the sweeps remove them only
      in the DSR teardown of a stale entry that carries a mark, so with no
      marked entry installed they leave the mangle table as it was. *)
Theorem syncIpvsServices_leaves_only_kept_objects
  (nsc : NetworkServicesController) (serviceInfoMap : list (string * serviceInfo))
  (endpointsInfoMap : gmap string (list endpointsInfo)) (w : World) :
  faultFree w ->
  let w' := snd (syncIpvsServices nsc serviceInfoMap endpointsInfoMap w) in
  let active := activeServiceEndpointMap w' in
  (forall a, In a (dummyAddrs w') ->
     exists key, is_Some (active !! key)
                 /\ Contains key "-" = true
                 /\ head (SplitN key "-" 3) = Some a)
  /\ (forall s, In s (services w') ->
        (exists key, staleKey s = Some key /\ is_Some (active !! key))
        \/ isExcluded nsc s = true
        \/ (staleKey s = None
            /\ FWMark s = 0
            /\ (Address s = None
                \/ convertSysCallProtoToSvcProto (Protocol s) = noneProtocol)))
  /\ (forall w0,
        (forall s, In s (services w0) -> FWMark s = 0) ->
        mangleTable (snd (cleanupStaleIPVSConfig nsc (snd (cleanupStaleVIPs w0))))
        = mangleTable w0).
Proof.
  intros Hw w' active. subst w' active.
  destruct (syncIpvsServices_steps nsc serviceInfoMap endpointsInfoMap w)
    as (e1 & w1 & e2 & w2 & e3 & w3 & e4 & w4 & e5 & w5 & w6 & e7 & w7 & e8 & w8
        & H1 & H2 & H3 & H4 & H5 & H6 & H7 & H8 & Hsync).
  rewrite Hsync. cbn [snd].
  apply run_snd in H1, H2, H3, H4, H5, H6, H7, H8.
  (* no failure up to the sweeps *)
  assert (faultFree (logged msgExternalIP e3 w3)) as Hff.
  { intros n c.
    destruct (logged_fields msgExternalIP e3 w3) as (_ & _ & _ & ->).
    rewrite H3, setupExternalIPServices_faults.
    destruct (logged_fields msgNodePort e2 w2) as (_ & _ & _ & ->).
    rewrite H2, setupNodePortServices_faults.
    destruct (logged_fields msgClusterIP e1 w1) as (_ & _ & _ & ->).
    rewrite H1, setupClusterIPServices_faults. apply Hw. }
  (* the world the sweeps leave *)
  set (v := logged msgExternalIP e3 w3) in *.
  assert (dummyAddrs w5 = dummyAddrs w4
          /\ activeServiceEndpointMap w5 = activeServiceEndpointMap v
          /\ activeServiceEndpointMap w4 = activeServiceEndpointMap v
          /\ faultFree (logged msgStaleVIPs e4 w4)) as (Hd5 & Ha5 & Ha4 & Hff4).
  { destruct (logged_fields msgStaleVIPs e4 w4) as (Ld & _ & La & Lf).
    assert (activeServiceEndpointMap w4 = activeServiceEndpointMap v) as Hw4
      by (rewrite H4; apply cleanupStaleVIPs_active).
    split; [rewrite H5, cleanupStaleIPVSConfig_dummyAddrs; exact Ld |].
    split; [rewrite H5, cleanupStaleIPVSConfig_active, La; exact Hw4 |].
    split; [exact Hw4 |].
    intros n c. rewrite Lf, H4, cleanupStaleVIPs_faults. apply Hff. }
  (* the steps after the sweeps *)
  destruct (afterSweeps_kept dummyAddrs serviceInfoMap
              ltac:(reflexivity) ltac:(reflexivity)) as (Md & Fd & Dd).
  destruct (afterSweeps_kept services serviceInfoMap
              ltac:(reflexivity) ltac:(reflexivity)) as (Ms & Fs & Ds).
  destruct (afterSweeps_kept activeServiceEndpointMap serviceInfoMap
              ltac:(reflexivity) ltac:(reflexivity)) as (Ma & Fa & Da).
  destruct (logged_fields msgDSR e8 w8) as (L8d & L8s & L8a & _).
  destruct (logged_fields msgFirewall e7 w7) as (L7d & L7s & L7a & _).
  destruct (logged_fields msgStaleIPVS e5 w5) as (L5d & L5s & L5a & _).
  assert (dummyAddrs (logged msgDSR e8 w8) = dummyAddrs w5) as Ed
    by (rewrite L8d, H8, Dd, L7d, H7, Fd, H6, Md, L5d; reflexivity).
  assert (services (logged msgDSR e8 w8) = services w5) as Es
    by (rewrite L8s, H8, Ds, L7s, H7, Fs, H6, Ms, L5s; reflexivity).
  assert (activeServiceEndpointMap (logged msgDSR e8 w8) = activeServiceEndpointMap v) as Ea
    by (rewrite L8a, H8, Da, L7a, H7, Fa, H6, Ma, L5a; exact Ha5).
  change (dummyAddrs (set_klog ?k ?x)) with (dummyAddrs x).
  change (services (set_klog ?k ?x)) with (services x).
  change (activeServiceEndpointMap (set_klog ?k ?x)) with (activeServiceEndpointMap x).
  rewrite Ed, Es, Ea. split; [| split].
  - intros a Hin. rewrite Hd5, H4 in Hin.
    apply cleanupStaleVIPs_dummyAddrs in Hin; [| exact Hff].
    apply addrActiveOf_spec. exact Hin.
  - intros s Hin. rewrite H5 in Hin.
    apply cleanupStaleIPVSConfig_services in Hin; [| exact Hff4].
    destruct (logged_fields msgStaleVIPs e4 w4) as (_ & _ & La & _).
    rewrite La, Ha4 in Hin. destruct Hin as [Hn | [Hx | Hk]].
    + right; right.
      destruct (staleKey_address_first_cases s) as [H | [(a & _ & H) | (_ & _ & H)]];
        [exact H | congruence | congruence].
    + right; left. exact Hx.
    + left. exact Hk.
  - intros w0 Hm. rewrite cleanupStaleIPVSConfig_mangle.
    + apply cleanupStaleVIPs_mangle.
    + intros x Hx. rewrite cleanupStaleVIPs_services in Hx. apply Hm. exact Hx.
Qed.

Lemma syncIpvsServices_leaves_only_kept_objects_witness :
  faultFree staleNode
  /\ (let w' := snd (syncIpvsServices plainController [("default/web", web)]
                      webEndpoints staleNode) in
      dummyAddrs w' = ["10.0.0.1"]
      /\ services w' = [webEntry]
      /\ (forall s, In s (services w') ->
            (exists key, staleKey s = Some key
                         /\ is_Some (activeServiceEndpointMap w' !! key))
            \/ isExcluded plainController s = true
            \/ (staleKey s = None
                /\ FWMark s = 0
                /\ (Address s = None
                    \/ convertSysCallProtoToSvcProto (Protocol s) = noneProtocol)))).
Proof.
  assert (faultFree staleNode) as Hff by (intros n c; reflexivity).
  split; [exact Hff |].
  destruct (syncIpvsServices_leaves_only_kept_objects plainController
              [("default/web", web)] webEndpoints staleNode Hff) as (_ & Hs & _).
  split; [reflexivity |]. split; [reflexivity | exact Hs].
Defined.
